(** * Schedula: recurrence engine, exception merger, conflict checker and
    idempotent create protocol

    A shallow embedding of the Go back end of the schedula calendar service
    (packages [domain], [store], [store/postgres], [service/appointments]
    and [transport/grpc]) and the proofs of its specification.

    Conventions of the embedding.
    - A [time.Time] is the instant it denotes: an integer number of
      nanoseconds since the Unix epoch.  [Before], [After], [Equal], [Add]
      and [UTC] only depend on the instant.  The calendar accessors
      ([Hour], [Weekday], ...) take the location explicitly, as the code
      always calls them on [t.In(loc)].
    - A civil date (year, month, day) is represented by its day number since
      1970-01-01 in the proleptic Gregorian calendar; [time.Date] applied to
      the [Year()], [Month()], [Day()] of a time is [Date] applied to that
      day number.
    - A [*time.Location] is its table of zone transitions.
    - Go's [int] arithmetic on week and day indices is carried out in [Z];
      [UnixNano] and the [time.Duration] product wrap to 64 bits and [Sub]
      saturates, as in Go.
    - A Go [string] is a byte string ([string] of Rocq).
    - The database is a record of row lists; the insert applies the model
      hook and the constraints of the schema.  Instants are stored as they
      are given, which is what PostgreSQL does with whole microseconds. *)

From Stdlib Require Import ZArith Lia List Bool String Ascii.
From Stdlib Require Import DecimalString DecimalZ ZifyBool.
From stdpp Require Import base numbers option list strings gmap sorting.

Local Open Scope Z_scope.

(** ** Go's [time] package, as far as the service uses it *)

Module GoTime.

(** An instant, in nanoseconds since the Unix epoch. *)
Definition Time := Z.
(** A [time.Duration], in nanoseconds. *)
Definition Duration := Z.

Definition Nanosecond : Duration := 1.
Definition Microsecond : Duration := 1000 * Nanosecond.
Definition Second : Duration := 1000000000.
Definition Minute : Duration := 60 * Second.
Definition Hour_d : Duration := 60 * Minute.

Definition minInt64 : Z := - 2 ^ 63.
Definition maxInt64 : Z := 2 ^ 63 - 1.

(** Two's complement reduction of an integer to [int64]. *)
Definition wrap64 (z : Z) : Z := (z + 2 ^ 63) mod 2 ^ 64 - 2 ^ 63.

Definition Before (t u : Time) : bool := t <? u.
Definition After (t u : Time) : bool := u <? t.
Definition Equal (t u : Time) : bool := t =? u.
Definition Add (t : Time) (d : Duration) : Time := t + d.
Definition UTC (t : Time) : Time := t.

(** [t.Sub(u)]: the difference, saturated to the range of a Duration. *)
Definition Sub (t u : Time) : Duration :=
  if t - u <? minInt64 then minInt64
  else if maxInt64 <? t - u then maxInt64
  else t - u.

(** [t.UnixNano()]: the 64-bit wrap of the nanoseconds since the epoch. *)
Definition UnixNano (t : Time) : Z := wrap64 t.

(** The zero [time.Time] is January 1, year 1, 00:00:00 UTC. *)
Definition zeroTime : Time := - 62135596800 * Second.
Definition IsZero (t : Time) : bool := t =? zeroTime.

(** Seconds since the epoch and nanoseconds within the second. *)
Definition unixSec (t : Time) : Z := t / Second.
Definition nsecOf (t : Time) : Z := t mod Second.

(** A location: the offset in force before the first transition and the
    transitions [(when, offset)], [when] in Unix seconds, in increasing
    order; [offset] is in seconds east of UTC. *)
Record Location := mkLocation {
  initOffset : Z;
  trans : list (Z * Z)
}.

Definition UTCLoc : Location := mkLocation 0 [].

Definition alpha : Z := minInt64.
Definition omega : Z := maxInt64.

(** [l.lookup(sec)]: the offset in force at [sec] and the bounds
    [start <= sec < end] of the period it belongs to. *)
Fixpoint lookupFrom (tx : list (Z * Z)) (sec off start : Z) : Z * Z * Z :=
  match tx with
  | [] => (off, start, omega)
  | (w, o) :: rest =>
      if sec <? w then (off, start, w) else lookupFrom rest sec o w
  end.

Definition lookup (l : Location) (sec : Z) : Z * Z * Z :=
  lookupFrom (trans l) sec (initOffset l) alpha.

Definition offsetAt (l : Location) (sec : Z) : Z := (lookup l sec).1.1.

(** Local seconds (the wall clock read as if it were UTC) of [t.In(l)]. *)
Definition localSec (l : Location) (t : Time) : Z :=
  unixSec t + offsetAt l (unixSec t).

Definition secondsPerDay : Z := 86400.

(** The civil date of [t.In(l)], as a day number. *)
Definition dayOf (l : Location) (t : Time) : Z := localSec l t / secondsPerDay.
Definition Hour (l : Location) (t : Time) : Z :=
  (localSec l t mod secondsPerDay) / 3600.
Definition Minute_of (l : Location) (t : Time) : Z :=
  (localSec l t mod 3600) / 60.
Definition Second_of (l : Location) (t : Time) : Z := localSec l t mod 60.
Definition Nanosecond_of (t : Time) : Z := nsecOf t.

(** [t.In(l).Weekday()], Sunday = 0; 1970-01-01 was a Thursday. *)
Definition Weekday (l : Location) (t : Time) : Z := (dayOf l t + 4) mod 7.
Definition Sunday : Z := 0.

(** [time.Date(y, m, d, hour, min, sec, nsec, l)] with the date given by
    its day number.  The zone offset is looked up at the wall-clock value
    taken as UTC and corrected once if the resulting instant falls outside
    the period found. *)
Definition Date (l : Location) (day hour min sec nsec : Z) : Time :=
  let unix := day * secondsPerDay + hour * 3600 + min * 60 + sec in
  let '(offset, start, end_) := lookup l unix in
  let unix' :=
    if offset =? 0 then unix
    else
      let utc := unix - offset in
      let offset' :=
        if (utc <? start) || (end_ <=? utc) then offsetAt l utc else offset in
      unix - offset' in
  unix' * Second + nsec.

(** [t.AddDate(0, 0, days)] for a time [t] located in UTC. *)
Definition AddDateDays (t : Time) (days : Z) : Time :=
  t + days * secondsPerDay * Second.

(** Day number of a proleptic Gregorian date. *)
Definition daysFromCivil (y m d : Z) : Z :=
  let y' := if m <=? 2 then y - 1 else y in
  let era := y' / 400 in
  let yoe := y' - era * 400 in
  let mp := if 2 <? m then m - 3 else m + 9 in
  let doy := (153 * mp + 2) / 5 + d - 1 in
  let doe := yoe * 365 + yoe / 4 - yoe / 100 + doy in
  era * 146097 + doe - 719468.

(** [time.Date(y, m, d, hh, mm, ss, 0, time.UTC)]. *)
Definition utcDate (y m d hh mm ss : Z) : Time :=
  Date UTCLoc (daysFromCivil y m d) hh mm ss 0.

End GoTime.

(** ** Results and errors *)

(** The errors the back end returns: the sentinel errors of package [store],
    the service's [*ValidationError], a plain [errors.New] value, and a
    failure reported by the database driver ([*pgconn.PgError]) with its
    SQLSTATE code and constraint name. *)
Inductive error : Type :=
  | ErrConflict
  | ErrNotFound
  | ErrIdempotencyConflict
  | ValidationError (msg : string)
  | ErrorString (msg : string)
  | PgError (code constraintName : string).

Inductive result (A : Type) : Type :=
  | Ok (a : A)
  | Fail (e : error).
Arguments Ok {A} a.
Arguments Fail {A} e.

#[global] Instance error_eq_dec : EqDecision error.
Proof. solve_decision. Defined.

(** ** Go's [strings] and [strconv], as far as the service uses them *)

Module GoStrings.

Local Open Scope string_scope.

Definition byte (n : nat) : ascii := ascii_of_nat n.

Definition str (l : list nat) : string :=
  string_of_list_ascii (List.map byte l).

(** The UTF-8 encodings of the code points with Unicode's White_Space
    property ([unicode.IsSpace]): U+0009..U+000D, U+0020, U+0085, U+00A0,
    U+1680, U+2000..U+200A, U+2028, U+2029, U+202F, U+205F, U+3000. *)
Definition spaceEncodings : list string :=
  List.map str
    [ [9%nat]; [10%nat]; [11%nat]; [12%nat]; [13%nat]; [32%nat];
      [194; 133]%nat; [194; 160]%nat;
      [225; 154; 128]%nat;
      [226; 128; 128]%nat; [226; 128; 129]%nat; [226; 128; 130]%nat;
      [226; 128; 131]%nat; [226; 128; 132]%nat; [226; 128; 133]%nat;
      [226; 128; 134]%nat; [226; 128; 135]%nat; [226; 128; 136]%nat;
      [226; 128; 137]%nat; [226; 128; 138]%nat;
      [226; 128; 168]%nat; [226; 128; 169]%nat; [226; 128; 175]%nat;
      [226; 129; 159]%nat;
      [227; 128; 128]%nat ].

(** [strings.HasPrefix(s, prefix)]. *)
Fixpoint HasPrefix (s prefix : string) {struct prefix} : bool :=
  match prefix with
  | EmptyString => true
  | String a prefix' =>
      match s with
      | EmptyString => false
      | String b s' => Ascii.eqb a b && HasPrefix s' prefix'
      end
  end.

(** The length of the white-space rune [s] starts with, or 0. *)
Definition leadingSpace (s : string) : nat :=
  match List.find (fun e => HasPrefix s e) spaceEncodings with
  | Some e => String.length e
  | None => 0
  end.

Definition revString (s : string) : string :=
  string_of_list_ascii (List.rev (list_ascii_of_string s)).

(** The length of the white-space rune [s] ends with, or 0
    ([utf8.DecodeLastRuneInString] followed by [unicode.IsSpace]). *)
Definition trailingSpace (s : string) : nat :=
  match List.find (fun e => HasPrefix (revString s) (revString e))
          spaceEncodings with
  | Some e => String.length e
  | None => 0
  end.

Definition dropBytes (n : nat) (s : string) : string :=
  String.substring n (String.length s - n) s.

Definition dropLastBytes (n : nat) (s : string) : string :=
  String.substring 0 (String.length s - n) s.

Fixpoint trimLeftFuel (fuel : nat) (s : string) : string :=
  match fuel with
  | O => s
  | S f =>
      match leadingSpace s with
      | O => s
      | n => trimLeftFuel f (dropBytes n s)
      end
  end.

Fixpoint trimRightFuel (fuel : nat) (s : string) : string :=
  match fuel with
  | O => s
  | S f =>
      match trailingSpace s with
      | O => s
      | n => trimRightFuel f (dropLastBytes n s)
      end
  end.

(** [strings.TrimLeftFunc(s, unicode.IsSpace)]; every step removes at
    least one byte, so [length s] steps are enough. *)
Definition TrimLeftSpace (s : string) : string :=
  trimLeftFuel (String.length s) s.

Definition TrimRightSpace (s : string) : string :=
  trimRightFuel (String.length s) s.

(** [strings.TrimSpace]. *)
Definition TrimSpace (s : string) : string :=
  TrimRightSpace (TrimLeftSpace s).

(** [len(s)]: the number of bytes. *)
Definition len (s : string) : Z := Z.of_nat (String.length s).

(** [strconv.FormatInt(n, 10)]. *)
Definition FormatInt (n : Z) : string :=
  NilZero.string_of_int (Z.to_int n).

End GoStrings.

(** ** [github.com/google/uuid], as far as the service uses it *)

Module uuid.

(** A UUID is an array of 16 bytes. *)
Definition UUID := list Z.

Definition Nil : UUID := replicate 16 0.

(** [uuid.NameSpaceOID] = 6ba7b812-9dad-11d1-80b4-00c04fd430c8. *)
Definition NameSpaceOID : UUID :=
  [107; 167; 184; 18; 157; 173; 17; 209; 128; 180; 0; 192; 79; 212; 48; 200].

Definition bytesOf (s : string) : list Z :=
  List.map (fun c => Z.of_nat (nat_of_ascii c)) (list_ascii_of_string s).

Section Hash.

(** The SHA-1 digest of a byte sequence (package [crypto/sha1]). *)
Variable sha1sum : list Z -> list Z.

(** [uuid.NewHash(sha1.New(), space, data, 5)]: the first 16 bytes of the
    digest of [space ++ data], with the version and variant bits set. *)
Definition NewSHA1 (space : UUID) (data : list Z) : UUID :=
  let s := sha1sum (space ++ data) in
  let u := take 16 (s ++ replicate 16 0) in
  let u6 := Z.lor (Z.land (u !!! 6%nat) 15) 80 in
  let u8 := Z.lor (Z.land (u !!! 8%nat) 63) 128 in
  <[8%nat := u8]> (<[6%nat := u6]> u).

End Hash.

(** [UUID.String]: the bytes in lower-case hexadecimal, in the groups
    8-4-4-4-12. *)
Definition hexDigit (n : Z) : ascii :=
  nth (Z.to_nat n) (list_ascii_of_string "0123456789abcdef") "0"%char.

Definition hexEncode (src : list Z) : list ascii :=
  List.flat_map (fun b => [hexDigit (Z.shiftr b 4); hexDigit (Z.land b 15)]) src.

Definition String (u : UUID) : string :=
  string_of_list_ascii
    (hexEncode (take 4 u) ++ ["-"%char]
     ++ hexEncode (take 2 (drop 4 u)) ++ ["-"%char]
     ++ hexEncode (take 2 (drop 6 u)) ++ ["-"%char]
     ++ hexEncode (take 2 (drop 8 u)) ++ ["-"%char]
     ++ hexEncode (drop 10 u)).

End uuid.

(** ** Package [domain] *)

Module domain.

Import GoTime.

Module Appointment.
Record t := mk {
  ID : uuid.UUID;
  UserID : string;
  Title : string;
  Notes : string;
  StartTime : Time;
  EndTime : Time;
  CreatedAt : Time;
  UpdatedAt : Time
}.
(** The zero value [domain.Appointment{}]. *)
Definition zero : t := mk uuid.Nil EmptyString EmptyString EmptyString zeroTime zeroTime zeroTime zeroTime.
End Appointment.

Definition RecurrenceFrequency := string.
Definition RecurrenceFrequencyWeekly : RecurrenceFrequency := "weekly".

Module RecurringSeries.
Record t := mk {
  ID : uuid.UUID;
  UserID : string;
  Title : string;
  Notes : string;
  Timezone : string;
  DTStart : Time;
  DurationSeconds : Z;
  Frequency : RecurrenceFrequency;
  Interval : Z;
  ByWeekday : list Z;
  Until : option Time;
  Count : option Z;
  CreatedAt : Time;
  UpdatedAt : Time
}.
End RecurringSeries.

Inductive RecurringExceptionKind : Type :=
  | RecurringExceptionKindSkip
  | RecurringExceptionKindOverride.

Module RecurringException.
Record t := mk {
  ID : uuid.UUID;
  SeriesID : uuid.UUID;
  OccurrenceStart : Time;
  Kind : RecurringExceptionKind;
  OverrideStart : option Time;
  OverrideEnd : option Time;
  OverrideTitle : option string;
  OverrideNotes : option string;
  CreatedAt : Time;
  UpdatedAt : Time
}.
End RecurringException.

Module RecurringOccurrence.
Record t := mk {
  ID : string;
  SeriesID : uuid.UUID;
  UserID : string;
  Title : string;
  Notes : string;
  StartTime : Time;
  EndTime : Time
}.
End RecurringOccurrence.

#[global] Instance Appointment_eq_dec : EqDecision Appointment.t.
Proof. solve_decision. Defined.
#[global] Instance RecurringOccurrence_eq_dec : EqDecision RecurringOccurrence.t.
Proof. solve_decision. Defined.

(** The clock and the random source an insert hook reads: [time.Now().UTC()]
    and the value [uuid.NewV7()] returns. *)
Record HookEnv := mkHookEnv {
  now : Time;
  newV7 : uuid.UUID
}.

(** [Appointment.BeforeAppendModel] for a [*bun.InsertQuery]. *)
Definition Appointment_BeforeAppendModel (env : HookEnv) (a : Appointment.t)
  : Appointment.t :=
  let id := if bool_decide (Appointment.ID a = uuid.Nil) then newV7 env
            else Appointment.ID a in
  let created := if IsZero (Appointment.CreatedAt a) then now env
                 else Appointment.CreatedAt a in
  let updated := if IsZero (Appointment.UpdatedAt a) then now env
                 else Appointment.UpdatedAt a in
  Appointment.mk id (Appointment.UserID a) (Appointment.Title a)
    (Appointment.Notes a) (Appointment.StartTime a) (Appointment.EndTime a)
    created updated.

(** [RecurringSeries.BeforeAppendModel] for a [*bun.InsertQuery]. *)
Definition RecurringSeries_BeforeAppendModel (env : HookEnv)
  (s : RecurringSeries.t) : RecurringSeries.t :=
  let id := if bool_decide (RecurringSeries.ID s = uuid.Nil) then newV7 env
            else RecurringSeries.ID s in
  let created := if IsZero (RecurringSeries.CreatedAt s) then now env
                 else RecurringSeries.CreatedAt s in
  let updated := if IsZero (RecurringSeries.UpdatedAt s) then now env
                 else RecurringSeries.UpdatedAt s in
  RecurringSeries.mk id (RecurringSeries.UserID s) (RecurringSeries.Title s)
    (RecurringSeries.Notes s) (RecurringSeries.Timezone s)
    (RecurringSeries.DTStart s) (RecurringSeries.DurationSeconds s)
    (RecurringSeries.Frequency s) (RecurringSeries.Interval s)
    (RecurringSeries.ByWeekday s) (RecurringSeries.Until s)
    (RecurringSeries.Count s) created updated.

Definition mondayDateUTC (loc : Location) (t : Time) : Time :=
  let wd := Weekday loc t in
  let offset := if wd =? Sunday then 6 else wd - 1 in
  let d := Date UTCLoc (dayOf loc t) 0 0 0 0 in
  AddDateDays d (- offset).

Definition weekdayOffsetFromMonday (weekday : Z) : Z :=
  if weekday =? 7 then 6 else weekday - 1.

(** The loop that validates the weekdays and drops repeated ones:
    [None] stands for the early return of "invalid weekday". *)
Fixpoint dedupWeekdays (l : list Z) (weekdays : list Z) : option (list Z) :=
  match l with
  | [] => Some weekdays
  | wd :: rest =>
      if (wd <? 1) || (7 <? wd) then None
      else if bool_decide (wd ∈ weekdays) then dedupWeekdays rest weekdays
      else dedupWeekdays rest (weekdays ++ [wd])
  end.

(** Ascending sort of the weekdays ([sort.Slice] in the engine, the
    insertion sort written out in the service). *)
Fixpoint insertWeekday (key : Z) (l : list Z) : list Z :=
  match l with
  | [] => [key]
  | x :: rest => if key <? x then key :: x :: rest else x :: insertWeekday key rest
  end.

Definition sortWeekdays (l : list Z) : list Z :=
  foldl (fun acc key => insertWeekday key acc) [] l.

(** How one pass over the weekdays of a week ends: the loop body ran for
    every weekday, or the function returned ([until] or [count] reached). *)
Inductive weekResult : Type :=
  | Continue (out : list RecurringOccurrence.t)
  | Return (out : list RecurringOccurrence.t).

(** The list [out] at the end of the pass. *)
Definition outOf (r : weekResult) : list RecurringOccurrence.t :=
  match r with Continue out | Return out => out end.

Section Generate.

(** The zone database [time.LoadLocation] reads. *)
Variable tzdb : string -> option Location.

Definition LoadLocation (name : string) : option Location := tzdb name.

Variable series : RecurringSeries.t.
Variables windowStart windowEnd : Time.
Variable loc : Location.

Definition dtstartUTC : Time := UTC (RecurringSeries.DTStart series).
(** [series.DTStart.In(loc)] denotes the same instant. *)
Definition dtstartLocal : Time := RecurringSeries.DTStart series.
Definition duration : Duration :=
  wrap64 (RecurringSeries.DurationSeconds series * Second).
Definition interval : Z :=
  if RecurringSeries.Interval series <? 1 then 1
  else RecurringSeries.Interval series.
Definition startWeekMondayUTC : Time := mondayDateUTC loc dtstartLocal.
Definition windowStartWeekMondayUTC : Time := mondayDateUTC loc windowStart.
Definition windowEndWeekBoundaryUTC : Time :=
  AddDateDays (mondayDateUTC loc windowEnd) 7.

(** The products [7 * interval] here and [weekIndex * interval * 7] in the
    outer loop are taken in [Z].  They are Go's [int] products as long as
    those do not wrap, which holds for every interval a request or the
    column can carry (below 2^32); the properties that depend on the
    products carry a bound. *)
Definition startWeekIndex : Z :=
  if After windowStartWeekMondayUTC startWeekMondayUTC then
    let daysDiff :=
      Z.quot (Sub windowStartWeekMondayUTC startWeekMondayUTC) (24 * Hour_d) in
    let i := Z.quot daysDiff (7 * interval) in
    if i <? 0 then 0 else i
  else 0.

Definition maxCount : Z :=
  match RecurringSeries.Count series with
  | Some c => c
  | None => -1
  end.

(** The candidate start on the date of [occDateUTC]: the wall clock of
    [dtstart] in [loc] applied to that date, converted to UTC. *)
Definition candidateStart (occDateUTC : Time) : Time :=
  UTC (Date loc (dayOf UTCLoc occDateUTC)
         (Hour loc dtstartLocal) (Minute_of loc dtstartLocal)
         (Second_of loc dtstartLocal) (Nanosecond_of dtstartLocal)).

Definition candidateOfWeek (weekStartMondayUTC : Time) (wd : Z) : Time :=
  candidateStart (AddDateDays weekStartMondayUTC (weekdayOffsetFromMonday wd)).

Definition skippedInFirstWeek (weekdays : list Z) : Z :=
  Z.of_nat (length (filter
    (fun wd => Is_true (Before (candidateOfWeek startWeekMondayUTC wd) dtstartUTC))
    weekdays)).

Definition makeOccurrence (startUTC endUTC : Time) : RecurringOccurrence.t :=
  RecurringOccurrence.mk
    (GoStrings.FormatInt (UnixNano startUTC))
    (RecurringSeries.ID series) (RecurringSeries.UserID series)
    (RecurringSeries.Title series) (RecurringSeries.Notes series)
    startUTC endUTC.

Section Loops.

Variable weekdays : list Z.

Definition occPerWeek : Z := Z.of_nat (length weekdays).

(** The inner loop, over the weekdays from position [weekdayIndex] on. *)
Fixpoint weekdaysLoop (weekStartMondayUTC : Time) (weekIndex : Z)
  (wds : list Z) (weekdayIndex : Z) (out : list RecurringOccurrence.t)
  : weekResult :=
  match wds with
  | [] => Continue out
  | wd :: rest =>
      let startUTC := candidateOfWeek weekStartMondayUTC wd in
      if Before startUTC dtstartUTC then
        weekdaysLoop weekStartMondayUTC weekIndex rest (weekdayIndex + 1) out
      else if match RecurringSeries.Until series with
              | Some u => After startUTC (UTC u)
              | None => false
              end then Return out
      else if (0 <=? maxCount) &&
              (maxCount <=? weekIndex * occPerWeek + weekdayIndex
                            - skippedInFirstWeek weekdays) then Return out
      else
        let endUTC := Add startUTC duration in
        let out' :=
          if Before startUTC windowEnd && After endUTC windowStart
          then out ++ [makeOccurrence startUTC endUTC] else out in
        weekdaysLoop weekStartMondayUTC weekIndex rest (weekdayIndex + 1) out'
  end.

(** The outer loop, over the weeks from [weekIndex] on.  The source loop
    has no bound of its own; [fuel] bounds the number of weeks visited and
    [None] means it ran out. *)
Fixpoint weeksLoop (fuel : nat) (weekIndex : Z)
  (out : list RecurringOccurrence.t) : option (list RecurringOccurrence.t) :=
  match fuel with
  | O => None
  | S fuel' =>
      let weekStartMondayUTC :=
        AddDateDays startWeekMondayUTC (weekIndex * interval * 7) in
      if negb (Before weekStartMondayUTC windowEndWeekBoundaryUTC) then Some out
      else
        match weekdaysLoop weekStartMondayUTC weekIndex weekdays 0 out with
        | Return out' => Some out'
        | Continue out' => weeksLoop fuel' (weekIndex + 1) out'
        end
  end.

End Loops.

(** Weeks between the first scanned week and the end boundary, plus one:
    at least the number of iterations of the outer loop. *)
Definition weeksFuel : nat :=
  Z.to_nat ((windowEndWeekBoundaryUTC - startWeekMondayUTC)
              / (7 * secondsPerDay * Second) + 1 - startWeekIndex) + 1.

End Generate.

(** The error [GenerateWeeklyOccurrences] cannot return: the outer loop
    always terminates (see [GenerateWeeklyOccurrences_total]). *)
Definition errLoopBound : error := ErrorString "week loop bound exceeded".

Definition GenerateWeeklyOccurrences (tzdb : string -> option Location)
  (series : RecurringSeries.t) (windowStart windowEnd : Time)
  : result (list RecurringOccurrence.t) :=
  if negb (String.eqb (RecurringSeries.Frequency series) RecurrenceFrequencyWeekly)
  then Fail (ErrorString "unsupported recurrence frequency")
  else if RecurringSeries.DurationSeconds series <=? 0
  then Fail (ErrorString "invalid duration")
  else
    match LoadLocation tzdb (RecurringSeries.Timezone series) with
    | None => Fail (ErrorString "invalid time_zone")
    | Some loc =>
        match dedupWeekdays (RecurringSeries.ByWeekday series) [] with
        | None => Fail (ErrorString "invalid weekday")
        | Some weekdays =>
            if (length weekdays =? 0)%nat
            then Fail (ErrorString "at least one weekday is required")
            else
              let weekdays := sortWeekdays weekdays in
              match weeksLoop series windowStart windowEnd loc weekdays
                      (weeksFuel series windowStart windowEnd loc)
                      (startWeekIndex series windowStart loc) [] with
              | Some out => Ok out
              | None => Fail errLoopBound
              end
        end
    end.

(** [RecurringException.BeforeAppendModel] for a [*bun.InsertQuery]. *)
Definition RecurringException_BeforeAppendModel (env : HookEnv)
  (e : RecurringException.t) : RecurringException.t :=
  let id := if bool_decide (RecurringException.ID e = uuid.Nil) then newV7 env
            else RecurringException.ID e in
  let created := if IsZero (RecurringException.CreatedAt e) then now env
                 else RecurringException.CreatedAt e in
  let updated := if IsZero (RecurringException.UpdatedAt e) then now env
                 else RecurringException.UpdatedAt e in
  RecurringException.mk id (RecurringException.SeriesID e)
    (RecurringException.OccurrenceStart e) (RecurringException.Kind e)
    (RecurringException.OverrideStart e) (RecurringException.OverrideEnd e)
    (RecurringException.OverrideTitle e) (RecurringException.OverrideNotes e)
    created updated.

End domain.

(** ** Zone data for the scenarios *)

Module tzdata.

Import GoTime.

(** The transitions of America/New_York from March 2025 to March 2027
    (IANA time zone database): Eastern Standard Time is UTC-5, Eastern
    Daylight Time is UTC-4; daylight time starts at 07:00 UTC on the second
    Sunday of March and ends at 06:00 UTC on the first Sunday of November. *)
Definition NewYork : Location :=
  mkLocation (-18000)
    [ (unixSec (utcDate 2025 3 9 7 0 0), -14400);
      (unixSec (utcDate 2025 11 2 6 0 0), -18000);
      (unixSec (utcDate 2026 3 8 7 0 0), -14400);
      (unixSec (utcDate 2026 11 1 6 0 0), -18000);
      (unixSec (utcDate 2027 3 14 7 0 0), -14400) ].

(** A zone database with the two zones the scenarios use. *)
Definition tzdb (name : string) : option Location :=
  if String.eqb name "UTC" then Some UTCLoc
  else if String.eqb name "America/New_York" then Some NewYork
  else None.

End tzdata.

(** ** Package [store] *)

Module store.

Import GoTime domain.

Definition RecurringConflictLookahead : Duration := 180 * 24 * Hour_d.

(** The interface [store.AppointmentRepository], over a store state [S];
    every method takes the state and the mutating ones return the new one. *)
Record AppointmentRepository (S : Type) := mkRepository {
  Create : S -> Appointment.t -> S * result Appointment.t;
  CreateRecurringSeries :
    S -> RecurringSeries.t -> S * result RecurringSeries.t;
  ListOccurrences :
    S -> string -> Time -> Time -> result (list RecurringOccurrence.t)
}.
Arguments Create {S} _ _ _.
Arguments CreateRecurringSeries {S} _ _ _.
Arguments ListOccurrences {S} _ _ _ _ _.

(** The methods [List] and [Delete] of [store.AppointmentRepository]. *)
Record AppointmentListDelete (S : Type) := mkListDelete {
  List : S -> string -> Time -> Time -> result (list Appointment.t);
  Delete : S -> string -> uuid.UUID -> S * result unit
}.
Arguments List {S} _ _ _ _ _.
Arguments Delete {S} _ _ _ _.

End store.

(** ** Package [store/postgres] *)

Module postgres.

Import GoTime domain.

(** The three relations of the schema.

    Precision.  The timestamp columns are [TIMESTAMPTZ]: PostgreSQL keeps
    them to the microsecond, and the driver writes an instant with six
    fractional digits.  The relations of this model keep the instants they
    are given and compare them as they are; they are the tables on instants
    that are whole microseconds ([storeSpec.wholeMicros]), and the
    properties that depend on what is stored or compared carry that
    hypothesis. *)
Record DB := mkDB {
  appointments : list Appointment.t;
  recurring_series : list RecurringSeries.t;
  recurring_exceptions : list RecurringException.t
}.

Definition emptyDB : DB := mkDB [] [] [].

(** The [appointments] relation of the first migration: a primary key on
    [id], the CHECK [appointments_valid_time_range] ([end_time >
    start_time]) and the exclusion constraint [appointments_no_overlap] on
    equal users and overlapping half-open ranges
    ([tstzrange (start_time, end_time, '[)')]).  The check is evaluated
    before the row is stored, then the primary key index, then the
    exclusion constraint.  [inr] carries the SQLSTATE code and the
    constraint name of the failure. *)
Definition rangesOverlap (s1 e1 s2 e2 : Time) : bool :=
  (s1 <? e2) && (s2 <? e1).

Definition insertAppointment (db : DB) (m : Appointment.t)
  : DB + (string * string) :=
  if negb (Appointment.StartTime m <? Appointment.EndTime m)
  then inr ("23514", "appointments_valid_time_range")
  else if existsb (fun r => bool_decide (Appointment.ID r = Appointment.ID m))
            (appointments db)
  then inr ("23505", "appointments_pkey")
  else if existsb (fun r =>
              String.eqb (Appointment.UserID r) (Appointment.UserID m) &&
              rangesOverlap (Appointment.StartTime r) (Appointment.EndTime r)
                (Appointment.StartTime m) (Appointment.EndTime m))
            (appointments db)
  then inr ("23P01", "appointments_no_overlap")
  else inl (mkDB (appointments db ++ [m]) (recurring_series db)
              (recurring_exceptions db)).

(** [SELECT ... WHERE id = ? LIMIT 1]; [None] is the error of an empty
    result ([sql.ErrNoRows]). *)
Definition selectAppointmentByID (db : DB) (id : uuid.UUID)
  : option Appointment.t :=
  List.find (fun r => bool_decide (Appointment.ID r = id)) (appointments db).

Definition setAppointmentID (a : Appointment.t) (id : uuid.UUID)
  : Appointment.t :=
  Appointment.mk id (Appointment.UserID a) (Appointment.Title a)
    (Appointment.Notes a) (Appointment.StartTime a) (Appointment.EndTime a)
    (Appointment.CreatedAt a) (Appointment.UpdatedAt a).

(** A statement sent on a transaction of which an earlier statement has
    failed: PostgreSQL refuses every statement of a failed transaction
    until it is rolled back (SQLSTATE 25P02), and the methods of
    [calendarTx] run on the one transaction of [InUserTransaction]
    ([RunInTx]), which sets no savepoint. *)
Definition inFailedTransaction {A : Type} (query : A) : result A :=
  Fail (PgError "25P02" EmptyString).

(** [calendarTx.CreateAppointment].  The SELECT of the unique-id branch is
    sent after the INSERT has failed, on the same transaction; with its
    error the function returns the error of the INSERT. *)
Definition CreateAppointment (env : HookEnv) (db : DB) (appt : Appointment.t)
  : DB * result Appointment.t :=
  let m := Appointment.mk (Appointment.ID appt) (Appointment.UserID appt)
             (Appointment.Title appt) (Appointment.Notes appt)
             (Appointment.StartTime appt) (Appointment.EndTime appt)
             (Appointment.CreatedAt appt) (Appointment.UpdatedAt appt) in
  let m := Appointment_BeforeAppendModel env m in
  match insertAppointment db m with
  | inr (code, constraintName) =>
      if String.eqb code "23P01" &&
         String.eqb constraintName "appointments_no_overlap"
      then (db, Fail ErrConflict)
      else if String.eqb code "23505" then
        match inFailedTransaction (selectAppointmentByID db (Appointment.ID m)) with
        | Fail _ => (db, Fail (PgError code constraintName))
        | Ok None => (db, Fail (PgError code constraintName))
        | Ok (Some existing) =>
            if negb (String.eqb (Appointment.UserID existing) (Appointment.UserID appt))
               || negb (String.eqb (Appointment.Title existing) (Appointment.Title appt))
               || negb (String.eqb (Appointment.Notes existing) (Appointment.Notes appt))
               || negb (Equal (Appointment.StartTime existing) (Appointment.StartTime appt))
               || negb (Equal (Appointment.EndTime existing) (Appointment.EndTime appt))
            then (db, Fail ErrIdempotencyConflict)
            else (db, Ok existing)
        end
      else (db, Fail (PgError code constraintName))
  | inl db' => (db', Ok (setAppointmentID appt (Appointment.ID m)))
  end.

Definition byStartAppointment : relation Appointment.t :=
  fun a b => Appointment.StartTime a <= Appointment.StartTime b.
Definition byStartOccurrence : relation RecurringOccurrence.t :=
  fun a b => RecurringOccurrence.StartTime a <= RecurringOccurrence.StartTime b.
Definition byDTStart : relation RecurringSeries.t :=
  fun a b => RecurringSeries.DTStart a <= RecurringSeries.DTStart b.

#[global] Instance byStartAppointment_dec a b : Decision (byStartAppointment a b).
Proof. unfold byStartAppointment. apply _. Defined.
#[global] Instance byStartOccurrence_dec a b : Decision (byStartOccurrence a b).
Proof. unfold byStartOccurrence. apply _. Defined.
#[global] Instance byDTStart_dec a b : Decision (byDTStart a b).
Proof. unfold byDTStart. apply _. Defined.

#[global] Instance byStartOccurrence_trans : Transitive byStartOccurrence.
Proof. unfold byStartOccurrence. intros x y z. lia. Defined.
#[global] Instance byStartOccurrence_total : Total byStartOccurrence.
Proof. unfold byStartOccurrence. intros x y. lia. Defined.

(** [calendarTx.ListAppointments]: the rows of the user that intersect the
    window, by ascending start. *)
Definition ListAppointments (db : DB) (userID : string)
  (windowStart windowEnd : Time) : list Appointment.t :=
  merge_sort byStartAppointment
    (List.filter (fun r =>
       String.eqb (Appointment.UserID r) userID &&
       (Appointment.StartTime r <? windowEnd) &&
       (windowStart <? Appointment.EndTime r)) (appointments db)).

(** [calendarTx.ListRecurringSeries]. *)
Definition ListRecurringSeries (db : DB) (userID : string)
  : list RecurringSeries.t :=
  merge_sort byDTStart
    (List.filter (fun r => String.eqb (RecurringSeries.UserID r) userID)
       (recurring_series db)).

(** [calendarTx.ListRecurringExceptions]. *)
Definition ListRecurringExceptions (db : DB) (seriesID : uuid.UUID)
  (windowStart windowEnd : Time) : list RecurringException.t :=
  List.filter (fun r =>
     bool_decide (RecurringException.SeriesID r = seriesID) &&
     (windowStart <=? RecurringException.OccurrenceStart r) &&
     (RecurringException.OccurrenceStart r <? windowEnd))
    (recurring_exceptions db).

(** The values of an [INTEGER] column. *)
Definition int4 (z : Z) : bool := (- 2 ^ 31 <=? z) && (z <? 2 ^ 31).

(** [calendarTx.CreateRecurringSeries].  The columns [duration_seconds],
    [interval] and [count] are [INTEGER]: a value outside their range is
    refused (SQLSTATE 22003) before the row reaches the primary key on
    [id], the only constraint of the relation a row can violate. *)
Definition CreateRecurringSeries (env : HookEnv) (db : DB)
  (series : RecurringSeries.t) : DB * result RecurringSeries.t :=
  let m := RecurringSeries_BeforeAppendModel env series in
  if negb (int4 (RecurringSeries.DurationSeconds m)
           && int4 (RecurringSeries.Interval m)
           && match RecurringSeries.Count m with
              | Some c => int4 c
              | None => true
              end)
  then (db, Fail (PgError "22003" EmptyString))
  else if existsb (fun r => bool_decide (RecurringSeries.ID r = RecurringSeries.ID m))
            (recurring_series db)
  then (db, Fail (PgError "23505" "recurring_series_pkey"))
  else
    (mkDB (appointments db) (recurring_series db ++ [m]) (recurring_exceptions db),
     Ok (RecurringSeries.mk (RecurringSeries.ID m)
           (RecurringSeries.UserID series) (RecurringSeries.Title series)
           (RecurringSeries.Notes series) (RecurringSeries.Timezone series)
           (RecurringSeries.DTStart series) (RecurringSeries.DurationSeconds series)
           (RecurringSeries.Frequency series) (RecurringSeries.Interval series)
           (RecurringSeries.ByWeekday series) (RecurringSeries.Until series)
           (RecurringSeries.Count series) (RecurringSeries.CreatedAt series)
           (RecurringSeries.UpdatedAt series))).

Record timeSpan := mkTimeSpan {
  Start : Time;
  End_ : Time
}.

(** The map [byOccurrenceStart]: a later exception with the same key
    replaces an earlier one. *)
Definition indexExceptions (exs : list RecurringException.t)
  : gmap Z RecurringException.t :=
  foldl (fun m e =>
           <[UnixNano (UTC (RecurringException.OccurrenceStart e)) := e]> m)
    ∅ exs.

(** The body of the loop of [applyRecurringExceptions] for one occurrence:
    the list [out] after the iteration. *)
Definition applyException (byOccurrenceStart : gmap Z RecurringException.t)
  (windowStart windowEnd : Time)
  (out : list RecurringOccurrence.t) (o : RecurringOccurrence.t)
  : list RecurringOccurrence.t :=
  match byOccurrenceStart !! UnixNano (UTC (RecurringOccurrence.StartTime o)) with
  | None => out ++ [o]
  | Some ex =>
      match RecurringException.Kind ex with
      | RecurringExceptionKindSkip => out
      | RecurringExceptionKindOverride =>
          let start := match RecurringException.OverrideStart ex with
                       | Some t => UTC t
                       | None => RecurringOccurrence.StartTime o
                       end in
          let end_ := match RecurringException.OverrideEnd ex with
                      | Some t => UTC t
                      | None => RecurringOccurrence.EndTime o
                      end in
          let title := match RecurringException.OverrideTitle ex with
                       | Some s => s
                       | None => RecurringOccurrence.Title o
                       end in
          let notes := match RecurringException.OverrideNotes ex with
                       | Some s => s
                       | None => RecurringOccurrence.Notes o
                       end in
          if Before start windowEnd && After end_ windowStart
          then out ++ [RecurringOccurrence.mk (RecurringOccurrence.ID o)
                         (RecurringOccurrence.SeriesID o)
                         (RecurringOccurrence.UserID o) title notes start end_]
          else out
      end
  end.

Definition applyRecurringExceptions (occs : list RecurringOccurrence.t)
  (exs : list RecurringException.t) (windowStart windowEnd : Time)
  : list RecurringOccurrence.t :=
  if (length exs =? 0)%nat then occs
  else
    foldl (applyException (indexExceptions exs) windowStart windowEnd) [] occs.

(** The self-check loop: some occurrence ends after its successor starts. *)
Fixpoint consecutiveOverlap (occs : list RecurringOccurrence.t) : bool :=
  match occs with
  | a :: ((b :: _) as rest) =>
      if After (RecurringOccurrence.EndTime a) (RecurringOccurrence.StartTime b)
      then true else consecutiveOverlap rest
  | _ => false
  end.

(** The final double loop: some new occurrence overlaps an existing span. *)
Definition overlapsSpan (n : RecurringOccurrence.t) (e : timeSpan) : bool :=
  Before (UTC (RecurringOccurrence.StartTime n)) (End_ e) &&
  After (UTC (RecurringOccurrence.EndTime n)) (Start e).

Definition anyConflict (newOccs : list RecurringOccurrence.t)
  (existing : list timeSpan) : bool :=
  existsb (fun n => existsb (overlapsSpan n) existing) newOccs.

Section Conflicts.

Variable tzdb : string -> option Location.
Variable db : DB.

(** The loop over the existing series of the user, appending their
    exception-adjusted occurrences to [existing]. *)
Fixpoint appendSeriesSpans (windowStart windowEnd : Time)
  (seriesRows : list RecurringSeries.t) (existing : list timeSpan)
  : result (list timeSpan) :=
  match seriesRows with
  | [] => Ok existing
  | s :: rest =>
      match GenerateWeeklyOccurrences tzdb s windowStart windowEnd with
      | Fail e => Fail e
      | Ok occs =>
          if (length occs =? 0)%nat
          then appendSeriesSpans windowStart windowEnd rest existing
          else
            let exWindowStart := Add windowStart (-14 * 24 * Hour_d) in
            let exWindowEnd := Add windowEnd (14 * 24 * Hour_d) in
            let exRows := ListRecurringExceptions db (RecurringSeries.ID s)
                            exWindowStart exWindowEnd in
            let occs := applyRecurringExceptions occs exRows windowStart windowEnd in
            appendSeriesSpans windowStart windowEnd rest
              (existing ++
               List.map (fun o => mkTimeSpan (UTC (RecurringOccurrence.StartTime o))
                                    (UTC (RecurringOccurrence.EndTime o))) occs)
      end
  end.

Definition conflictWindowStart (series : RecurringSeries.t) : Time :=
  UTC (RecurringSeries.DTStart series).

(** The end of the expansion window: the horizon, cut at [until], plus one
    duration. *)
Definition conflictWindowEnd (series : RecurringSeries.t) : Time :=
  let windowStart := conflictWindowStart series in
  let windowEnd := Add windowStart store.RecurringConflictLookahead in
  let windowEnd :=
    match RecurringSeries.Until series with
    | Some u => if Before (UTC u) windowEnd then UTC u else windowEnd
    | None => windowEnd
    end in
  Add windowEnd (wrap64 (RecurringSeries.DurationSeconds series * Second)).

Definition lastEnd (occs : list RecurringOccurrence.t) (d : Time) : Time :=
  match List.last (List.map Some occs) None with
  | Some o => UTC (RecurringOccurrence.EndTime o)
  | None => d
  end.

Definition ensureNoRecurringSeriesConflicts (series : RecurringSeries.t)
  : result unit :=
  let windowStart := conflictWindowStart series in
  let windowEnd := conflictWindowEnd series in
  match GenerateWeeklyOccurrences tzdb series windowStart windowEnd with
  | Fail e => Fail e
  | Ok newOccs =>
      if (length newOccs =? 0)%nat then Ok tt
      else
        let newOccs := merge_sort byStartOccurrence newOccs in
        let windowEnd := lastEnd newOccs windowEnd in
        if consecutiveOverlap newOccs then Fail ErrConflict
        else
          let appts := ListAppointments db (RecurringSeries.UserID series)
                         windowStart windowEnd in
          let existing :=
            List.map (fun a => mkTimeSpan (UTC (Appointment.StartTime a))
                                 (UTC (Appointment.EndTime a))) appts in
          let seriesRows := ListRecurringSeries db (RecurringSeries.UserID series) in
          match appendSeriesSpans windowStart windowEnd seriesRows existing with
          | Fail e => Fail e
          | Ok existing =>
              if anyConflict newOccs existing then Fail ErrConflict else Ok tt
          end
  end.

(** [AppointmentRepo.ListOccurrences]: the loop over the series rows. *)
Fixpoint collectOccurrences (windowStart windowEnd : Time)
  (seriesRows : list RecurringSeries.t) (out : list RecurringOccurrence.t)
  : result (list RecurringOccurrence.t) :=
  match seriesRows with
  | [] => Ok out
  | s :: rest =>
      match GenerateWeeklyOccurrences tzdb s windowStart windowEnd with
      | Fail e => Fail e
      | Ok occs =>
          if (length occs =? 0)%nat
          then collectOccurrences windowStart windowEnd rest out
          else
            let exWindowStart := Add windowStart (-14 * 24 * Hour_d) in
            let exWindowEnd := Add windowEnd (14 * 24 * Hour_d) in
            let exRows := ListRecurringExceptions db (RecurringSeries.ID s)
                            exWindowStart exWindowEnd in
            collectOccurrences windowStart windowEnd rest
              (out ++ applyRecurringExceptions occs exRows windowStart windowEnd)
      end
  end.

Definition ListOccurrences (userID : string) (windowStart windowEnd : Time)
  : result (list RecurringOccurrence.t) :=
  let seriesRows :=
    List.filter (fun r => String.eqb (RecurringSeries.UserID r) userID &&
                          (RecurringSeries.DTStart r <? windowEnd))
      (recurring_series db) in
  match collectOccurrences windowStart windowEnd seriesRows [] with
  | Fail e => Fail e
  | Ok out => Ok (merge_sort byStartOccurrence out)
  end.

End Conflicts.

(** [AppointmentRepo.Create], [AppointmentRepo.CreateRecurringSeries]: one
    transaction under the lock of the user; a failed transaction leaves the
    database as it was. *)
Definition Create (env : HookEnv) (db : DB) (appt : Appointment.t)
  : DB * result Appointment.t :=
  match CreateAppointment env db appt with
  | (db', Ok a) => (db', Ok a)
  | (_, Fail e) => (db, Fail e)
  end.

Definition RepoCreateRecurringSeries (tzdb : string -> option Location)
  (env : HookEnv) (db : DB) (series : RecurringSeries.t)
  : DB * result RecurringSeries.t :=
  match ensureNoRecurringSeriesConflicts tzdb db series with
  | Fail e => (db, Fail e)
  | Ok _ =>
      match CreateRecurringSeries env db series with
      | (db', Ok s) => (db', Ok s)
      | (_, Fail e) => (db, Fail e)
      end
  end.

(** The repository as the service sees it. *)
Definition AppointmentRepo (tzdb : string -> option Location) (env : HookEnv)
  : store.AppointmentRepository DB :=
  store.mkRepository DB (Create env) (RepoCreateRecurringSeries tzdb env)
    (ListOccurrences tzdb).

(** [AppointmentRepo.InUserTransaction]: [fn] runs in one transaction under
    the advisory lock of the user; when it fails the transaction is rolled
    back. *)
Definition InUserTransaction {A : Type} (db : DB) (userID : string)
  (fn : DB -> DB * result A) : DB * result A :=
  match fn db with
  | (db', Ok a) => (db', Ok a)
  | (_, Fail e) => (db, Fail e)
  end.

(** The rows [DELETE ... WHERE user_id = ? AND id = ?] names. *)
Definition appointmentHit (userID : string) (appointmentID : uuid.UUID)
  (r : Appointment.t) : bool :=
  String.eqb (Appointment.UserID r) userID
  && bool_decide (Appointment.ID r = appointmentID).

(** [calendarTx.DeleteAppointment]. *)
Definition DeleteAppointment (db : DB) (userID : string)
  (appointmentID : uuid.UUID) : DB * result unit :=
  let affected :=
    length (List.filter (appointmentHit userID appointmentID) (appointments db)) in
  if (affected =? 0)%nat then (db, Fail ErrNotFound)
  else
    (mkDB (List.filter (fun r => negb (appointmentHit userID appointmentID r))
             (appointments db))
       (recurring_series db) (recurring_exceptions db),
     Ok tt).

(** [AppointmentRepo.List]: the query of [ListAppointments], outside a
    transaction. *)
Definition List (db : DB) (userID : string) (windowStart windowEnd : Time)
  : result (list Appointment.t) :=
  Ok (ListAppointments db userID windowStart windowEnd).

(** [AppointmentRepo.Delete]. *)
Definition Delete (db : DB) (userID : string) (appointmentID : uuid.UUID)
  : DB * result unit :=
  InUserTransaction db userID (fun tx => DeleteAppointment tx userID appointmentID).

Definition AppointmentRepoListDelete : store.AppointmentListDelete DB :=
  store.mkListDelete DB List Delete.

(** The arbiter of the upsert: the unique index
    [recurring_exceptions_series_occurrence_idx] on
    [(series_id, occurrence_start)]. *)
Definition sameOccurrence (m r : RecurringException.t) : bool :=
  bool_decide (RecurringException.SeriesID r = RecurringException.SeriesID m)
  && (RecurringException.OccurrenceStart r =? RecurringException.OccurrenceStart m).

(** [DO UPDATE SET kind = EXCLUDED.kind, override_start = ..., override_end
    = ..., override_title = ..., override_notes = ...]: the other columns of
    the stored row stay. *)
Definition updateException (r m : RecurringException.t) : RecurringException.t :=
  RecurringException.mk (RecurringException.ID r) (RecurringException.SeriesID r)
    (RecurringException.OccurrenceStart r) (RecurringException.Kind m)
    (RecurringException.OverrideStart m) (RecurringException.OverrideEnd m)
    (RecurringException.OverrideTitle m) (RecurringException.OverrideNotes m)
    (RecurringException.CreatedAt r) (RecurringException.UpdatedAt r).

(** [calendarTx.UpsertRecurringException].  The relation has a primary key
    on [id], the unique index on [(series_id, occurrence_start)], the
    foreign key [series_id] into [recurring_series] and a CHECK on [kind]
    that the two kinds satisfy.  A row with the same series and occurrence
    start is updated in place; otherwise the row is inserted, the primary
    key being checked at the insertion and the foreign key after it.  The
    function returns the model it built, not the stored row. *)
Definition UpsertRecurringException (env : HookEnv) (db : DB)
  (ex : RecurringException.t) : DB * result RecurringException.t :=
  let m := RecurringException.mk (RecurringException.ID ex)
             (RecurringException.SeriesID ex) (RecurringException.OccurrenceStart ex)
             (RecurringException.Kind ex) (RecurringException.OverrideStart ex)
             (RecurringException.OverrideEnd ex) (RecurringException.OverrideTitle ex)
             (RecurringException.OverrideNotes ex) (RecurringException.CreatedAt ex)
             (RecurringException.UpdatedAt ex) in
  let m := RecurringException_BeforeAppendModel env m in
  if existsb (sameOccurrence m) (recurring_exceptions db) then
    (mkDB (appointments db) (recurring_series db)
       (List.map (fun r => if sameOccurrence m r then updateException r m else r)
          (recurring_exceptions db)),
     Ok m)
  else if existsb (fun r => bool_decide (RecurringException.ID r = RecurringException.ID m))
            (recurring_exceptions db)
  then (db, Fail (PgError "23505" "recurring_exceptions_pkey"))
  else if negb (existsb (fun s => bool_decide (RecurringSeries.ID s
                                               = RecurringException.SeriesID m))
                  (recurring_series db))
  then (db, Fail (PgError "23503" "recurring_exceptions_series_id_fkey"))
  else
    (mkDB (appointments db) (recurring_series db) (recurring_exceptions db ++ [m]),
     Ok m).

(** The rows [DELETE ... WHERE user_id = ? AND id = ?] names. *)
Definition seriesHit (userID : string) (seriesID : uuid.UUID)
  (r : RecurringSeries.t) : bool :=
  String.eqb (RecurringSeries.UserID r) userID
  && bool_decide (RecurringSeries.ID r = seriesID).

(** [calendarTx.DeleteRecurringSeries]; the exceptions of a deleted series
    go with it ([ON DELETE CASCADE]). *)
Definition DeleteRecurringSeries (db : DB) (userID : string)
  (seriesID : uuid.UUID) : DB * result unit :=
  let affected :=
    length (List.filter (seriesHit userID seriesID) (recurring_series db)) in
  if (affected =? 0)%nat then (db, Fail ErrNotFound)
  else
    (mkDB (appointments db)
       (List.filter (fun r => negb (seriesHit userID seriesID r))
          (recurring_series db))
       (List.filter (fun e => negb (bool_decide (RecurringException.SeriesID e
                                                  = seriesID)))
          (recurring_exceptions db)),
     Ok tt).

End postgres.

(** ** Package [service/appointments] *)

Module appointments.

Import GoTime domain.

Definition validationError {A : Type} (msg : string) : result A :=
  Fail (ValidationError msg).

Record CreateInput := mkCreateInput {
  UserID : string;
  Title : string;
  Notes : string;
  StartTime : Time;
  EndTime : Time;
  IdempotencyKey : string
}.

Record RecurrenceRuleInput := mkRecurrenceRuleInput {
  Frequency : RecurrenceFrequency;
  Interval : Z;
  ByWeekday : list Z;
  Until : option Time;
  Count : option Z;
  TimeZone : string
}.

Record CreateRecurringSeriesInput := mkCreateRecurringSeriesInput {
  rs_UserID : string;
  rs_Title : string;
  rs_Notes : string;
  rs_StartTime : Time;
  rs_EndTime : Time;
  Rule : RecurrenceRuleInput
}.

(** What the field checks of [CreateRecurringSeries] leave behind: the
    normalized series and the values the horizon checks read. *)
Record checkedSeries := mkCheckedSeries {
  cs_series : RecurringSeries.t;
  cs_start : Time;
  cs_durationSeconds : Z;
  cs_untilUTC : option Time;
  cs_count : option Z
}.

Definition withUntilCount (s : RecurringSeries.t) (until : option Time)
  (count : option Z) : RecurringSeries.t :=
  RecurringSeries.mk (RecurringSeries.ID s) (RecurringSeries.UserID s)
    (RecurringSeries.Title s) (RecurringSeries.Notes s)
    (RecurringSeries.Timezone s) (RecurringSeries.DTStart s)
    (RecurringSeries.DurationSeconds s) (RecurringSeries.Frequency s)
    (RecurringSeries.Interval s) (RecurringSeries.ByWeekday s)
    until count (RecurringSeries.CreatedAt s) (RecurringSeries.UpdatedAt s).

Section Service.

Variable S : Type.
Variable repo : store.AppointmentRepository S.
Variable sha1sum : list Z -> list Z.
Variable tzdb : string -> option Location.

(** The id an idempotency key determines. *)
Definition idempotentID (userID key : string) : uuid.UUID :=
  uuid.NewSHA1 sha1sum uuid.NameSpaceOID
    (uuid.bytesOf ("schedula:create_appointment:" ++ userID ++ ":" ++ key)).

(** The part of [Service.Create] before the call of the repository: the
    appointment it passes on, or the validation error. *)
Definition prepareCreate (in_ : CreateInput) : result Appointment.t :=
  let title := GoStrings.TrimSpace (Title in_) in
  if String.eqb title EmptyString then validationError "title is required"
  else if String.eqb (UserID in_) EmptyString then validationError "user_id is required"
  else
    let start := UTC (StartTime in_) in
    let end_ := UTC (EndTime in_) in
    if Equal end_ start || Before end_ start
    then validationError "end_time must be after start_time"
    else if 24 * Hour_d <? Sub end_ start
    then validationError "duration too long"
    else
      let key := GoStrings.TrimSpace (IdempotencyKey in_) in
      if negb (String.eqb key EmptyString) then
        if 256 <? GoStrings.len key
        then validationError "idempotency_key too long"
        else Ok (Appointment.mk (idempotentID (UserID in_) key) (UserID in_)
                   title (Notes in_) start end_ zeroTime zeroTime)
      else Ok (Appointment.mk uuid.Nil (UserID in_) title (Notes in_)
                 start end_ zeroTime zeroTime).

(** [Service.Create]. *)
Definition Create (st : S) (in_ : CreateInput) : S * result Appointment.t :=
  match prepareCreate in_ with
  | Fail e => (st, Fail e)
  | Ok appt => store.Create repo st appt
  end.

(** [Service.CreateRecurringSeries], first part: the checks of the fields
    and their normalization (up to and including the check of [count]). *)
Definition checkSeriesFields (in_ : CreateRecurringSeriesInput)
  : result checkedSeries :=
  let title := GoStrings.TrimSpace (rs_Title in_) in
  if String.eqb title EmptyString then validationError "title is required"
  else if String.eqb (rs_UserID in_) EmptyString then validationError "user_id is required"
  else
    let frequency :=
      if String.eqb (Frequency (Rule in_)) EmptyString then RecurrenceFrequencyWeekly
      else Frequency (Rule in_) in
    if negb (String.eqb frequency RecurrenceFrequencyWeekly)
    then validationError "unsupported frequency"
    else
      let tz := GoStrings.TrimSpace (TimeZone (Rule in_)) in
      if String.eqb tz EmptyString then validationError "time_zone is required"
      else
        match LoadLocation tzdb tz with
        | None => validationError "invalid time_zone"
        | Some loc =>
            let start := UTC (rs_StartTime in_) in
            let end_ := UTC (rs_EndTime in_) in
            if Equal end_ start || Before end_ start
            then validationError "end_time must be after start_time"
            else if 24 * Hour_d <? Sub end_ start
            then validationError "duration too long"
            else
              let durationSeconds := Z.quot (Sub end_ start) Second in
              let interval :=
                if Interval (Rule in_) =? 0 then 1 else Interval (Rule in_) in
              if interval <? 1
              then validationError "interval must be at least 1"
              else
                let weekdays :=
                  if (length (ByWeekday (Rule in_)) =? 0)%nat then
                    let weekday := Weekday loc start in
                    if weekday =? Sunday then [7] else [weekday]
                  else ByWeekday (Rule in_) in
                match dedupWeekdays weekdays [] with
                | None => validationError "invalid weekday"
                | Some normalized =>
                    if (length normalized =? 0)%nat
                    then validationError "at least one weekday is required"
                    else
                      let normalized := sortWeekdays normalized in
                      if match Until (Rule in_) with
                         | Some u => Before (UTC u) start
                         | None => false
                         end
                      then validationError "until must be after start_time"
                      else
                        let untilUTC := option_map UTC (Until (Rule in_)) in
                        if match Count (Rule in_) with
                           | Some c => c <? 1
                           | None => false
                           end
                        then validationError "count must be at least 1"
                        else
                          let count := Count (Rule in_) in
                          Ok (mkCheckedSeries
                                (RecurringSeries.mk uuid.Nil (rs_UserID in_)
                                   title (rs_Notes in_) tz start durationSeconds
                                   frequency interval normalized untilUTC count
                                   zeroTime zeroTime)
                                start durationSeconds untilUTC count)
                end
        end.

(** The number of occurrences the horizon admits: the expansion of the
    series without count, up to the horizon or [until], whichever is
    earlier. *)
Definition lookaheadEnd (c : checkedSeries) : Time :=
  Add (cs_start c) store.RecurringConflictLookahead.

Definition occLimitEnd (c : checkedSeries) : Time :=
  match cs_untilUTC c with
  | Some u => if Before u (lookaheadEnd c) then u else lookaheadEnd c
  | None => lookaheadEnd c
  end.

Definition horizonExpansion (c : checkedSeries)
  : result (list RecurringOccurrence.t) :=
  let duration := wrap64 (cs_durationSeconds c * Second) in
  let seriesForCount := withUntilCount (cs_series c) (Some (occLimitEnd c)) None in
  GenerateWeeklyOccurrences tzdb seriesForCount (cs_start c)
    (Add (occLimitEnd c) duration).

(** [Service.CreateRecurringSeries], second part: "until or count is
    required", the horizon checks, and the call of the repository. *)
Definition checkHorizonAndCreate (st : S) (c : checkedSeries)
  : S * result RecurringSeries.t :=
  if match cs_untilUTC c, cs_count c with
     | None, None => true
     | _, _ => false
     end
  then (st, validationError "until or count is required")
  else if match cs_count c, cs_untilUTC c with
          | None, Some u => After u (lookaheadEnd c)
          | _, _ => false
          end
  then (st, validationError "until must be within 180 days of start_time")
  else
    match horizonExpansion c with
    | Fail e => (st, Fail e)
    | Ok occs =>
        if (length occs =? 0)%nat
        then (st, validationError "recurrence rule produces no occurrences")
        else if match cs_count c with
                | Some n => Z.of_nat (length occs) <? n
                | None => false
                end
        then
          if match cs_untilUTC c with
             | Some u => Before u (lookaheadEnd c)
             | None => false
             end
          then (st, validationError "count exceeds occurrences available before until")
          else (st, validationError
                      "count exceeds occurrences available within 180 days of start_time")
        else store.CreateRecurringSeries repo st (cs_series c)
    end.

Definition CreateRecurringSeries (st : S) (in_ : CreateRecurringSeriesInput)
  : S * result RecurringSeries.t :=
  match checkSeriesFields in_ with
  | Fail e => (st, Fail e)
  | Ok c => checkHorizonAndCreate st c
  end.

(** [Service.ListOccurrences]. *)
Definition ListOccurrences (st : S) (userID : string)
  (windowStart windowEnd : Time) : result (list RecurringOccurrence.t) :=
  if String.eqb userID EmptyString then validationError "user_id is required"
  else
    let start := UTC windowStart in
    let end_ := UTC windowEnd in
    if Equal end_ start || Before end_ start
    then validationError "window_end must be after window_start"
    else store.ListOccurrences repo st userID start end_.

End Service.

Section ListDelete.

Variable S : Type.
Variable repo : store.AppointmentListDelete S.

(** [Service.List]. *)
Definition List (st : S) (userID : string) (windowStart windowEnd : Time)
  : result (list Appointment.t) :=
  if String.eqb userID EmptyString then validationError "user_id is required"
  else
    let start := UTC windowStart in
    let end_ := UTC windowEnd in
    if Equal end_ start || Before end_ start
    then validationError "window_end must be after window_start"
    else store.List repo st userID start end_.

(** [Service.Delete]. *)
Definition Delete (st : S) (userID : string) (appointmentID : uuid.UUID)
  : S * result unit :=
  if String.eqb userID EmptyString then (st, validationError "user_id is required")
  else if bool_decide (appointmentID = uuid.Nil)
  then (st, validationError "appointment_id is required")
  else store.Delete repo st userID appointmentID.

End ListDelete.

End appointments.

(** ** The gRPC transport *)

(** Go's integer conversions between the widths the transport uses. *)
Module GoInt.

Definition int16 (z : Z) : Z := (z + 2 ^ 15) mod 2 ^ 16 - 2 ^ 15.
Definition uint32 (z : Z) : Z := z mod 2 ^ 32.

End GoInt.

(** [google.golang.org/protobuf/types/known/timestamppb]. *)
Module timestamppb.

Import GoTime.

Record Timestamp := mkTimestamp {
  Seconds : Z;
  Nanos : Z
}.

(** [x.AsTime()] is [time.Unix(x.Seconds, x.Nanos).UTC()], for seconds
    within the range of Go's [Time] (the sum with the offset of the year 1
    does not wrap). *)
Definition AsTime (x : Timestamp) : Time := Seconds x * Second + Nanos x.

(** [timestamppb.New(t)] is [{Seconds: t.Unix(), Nanos: t.Nanosecond()}]. *)
Definition New (t : Time) : Timestamp := mkTimestamp (unixSec t) (nsecOf t).

End timestamppb.

(** [google.golang.org/grpc/metadata]: the header of a call, from
    lower-case keys to their values. *)
Module metadata.

Definition MD := gmap string (list string).

Definition Get (md : MD) (k : string) : list string := default [] (md !! k).

End metadata.

(** [google.golang.org/grpc/codes], the codes the server answers with. *)
Module codes.

Inductive Code : Type :=
  | InvalidArgument
  | NotFound
  | FailedPrecondition
  | Internal.

End codes.

(** The messages of package [schedulev1], with the fields the handlers read
    and write.  A message-typed field is a pointer and may be nil. *)
Module schedulev1.

Import timestamppb.

Definition Weekday := Z.
Definition Weekday_WEEKDAY_UNSPECIFIED : Weekday := 0.

Module CreateAppointmentRequest.
Record t := mk {
  UserId : string;
  Title : string;
  Notes : string;
  StartTime : option Timestamp;
  EndTime : option Timestamp
}.
End CreateAppointmentRequest.

Module Appointment.
Record t := mk {
  Id : string;
  UserId : string;
  Title : string;
  Notes : string;
  StartTime : option Timestamp;
  EndTime : option Timestamp;
  CreatedAt : option Timestamp;
  UpdatedAt : option Timestamp
}.
End Appointment.

Module CreateAppointmentResponse.
Record t := mk {
  Appointment : option Appointment.t
}.
End CreateAppointmentResponse.

Module WeeklyRecurrence.
Record t := mk {
  Interval : Z;
  Weekdays : list Weekday;
  Until : option Timestamp;
  Count : Z;
  TimeZone : string
}.
End WeeklyRecurrence.

Module CreateRecurringSeriesRequest.
Record t := mk {
  UserId : string;
  Title : string;
  Notes : string;
  StartTime : option Timestamp;
  EndTime : option Timestamp;
  Weekly : option WeeklyRecurrence.t
}.
End CreateRecurringSeriesRequest.

Module RecurringSeries.
Record t := mk {
  Id : string;
  UserId : string;
  Title : string;
  Notes : string;
  StartTime : option Timestamp;
  EndTime : option Timestamp;
  Weekly : option WeeklyRecurrence.t;
  CreatedAt : option Timestamp;
  UpdatedAt : option Timestamp
}.
End RecurringSeries.

Module CreateRecurringSeriesResponse.
Record t := mk {
  Series : option RecurringSeries.t
}.
End CreateRecurringSeriesResponse.

End schedulev1.

(** ** Package [transport/grpc] *)

Module grpc.

Import GoTime GoInt.

(** What a handler returns: the response, or the error of
    [status.Error(code, msg)]. *)
Inductive rpc (A : Type) : Type :=
  | Reply (a : A)
  | Status (c : codes.Code) (msg : string).
Arguments Reply {A} a.
Arguments Status {A} c msg.

(** The interface [appointmentsService], over a store state [S]. *)
Record appointmentsService (S : Type) := mkService {
  Create : S -> appointments.CreateInput -> S * result domain.Appointment.t;
  List : S -> string -> Time -> Time -> result (list domain.Appointment.t);
  Delete : S -> string -> uuid.UUID -> S * result unit;
  CreateRecurringSeries :
    S -> appointments.CreateRecurringSeriesInput
    -> S * result domain.RecurringSeries.t;
  ListOccurrences :
    S -> string -> Time -> Time -> result (list domain.RecurringOccurrence.t)
}.
Arguments Create {S} _ _ _.
Arguments List {S} _ _ _ _ _.
Arguments Delete {S} _ _ _ _.
Arguments CreateRecurringSeries {S} _ _ _.
Arguments ListOccurrences {S} _ _ _ _ _.

(** [*appointments.Service] over a repository, as the server sees it. *)
Definition Service (S : Type) (repo : store.AppointmentRepository S)
  (listDelete : store.AppointmentListDelete S) (sha1sum : list Z -> list Z)
  (tzdb : string -> option Location) : appointmentsService S :=
  mkService S (appointments.Create S repo sha1sum) (appointments.List S listDelete)
    (appointments.Delete S listDelete)
    (appointments.CreateRecurringSeries S repo tzdb)
    (appointments.ListOccurrences S repo).

(** [idempotencyKey]; the context carries the incoming header or none. *)
Definition idempotencyKey (ctx : option metadata.MD) : string :=
  match ctx with
  | None => EmptyString
  | Some md =>
      let values := metadata.Get md "idempotency-key" in
      let values :=
        if (length values =? 0)%nat then metadata.Get md "x-idempotency-key"
        else values in
      match values with
      | [] => EmptyString
      | v :: _ => GoStrings.TrimSpace v
      end
  end.

Definition toProtoAppointment (a : domain.Appointment.t) : schedulev1.Appointment.t :=
  schedulev1.Appointment.mk (uuid.String (domain.Appointment.ID a))
    (domain.Appointment.UserID a) (domain.Appointment.Title a)
    (domain.Appointment.Notes a)
    (Some (timestamppb.New (domain.Appointment.StartTime a)))
    (Some (timestamppb.New (domain.Appointment.EndTime a)))
    (Some (timestamppb.New (domain.Appointment.CreatedAt a)))
    (Some (timestamppb.New (domain.Appointment.UpdatedAt a))).

Definition toProtoWeeklyRecurrence (s : domain.RecurringSeries.t)
  : schedulev1.WeeklyRecurrence.t :=
  let weekdays :=
    List.filter (fun wd => negb ((wd <? 1) || (7 <? wd)))
      (domain.RecurringSeries.ByWeekday s) in
  let until :=
    option_map (fun u => timestamppb.New (UTC u)) (domain.RecurringSeries.Until s) in
  let count :=
    match domain.RecurringSeries.Count s with
    | Some c => if 0 <? c then uint32 c else 0
    | None => 0
    end in
  schedulev1.WeeklyRecurrence.mk (uint32 (domain.RecurringSeries.Interval s))
    weekdays until count (domain.RecurringSeries.Timezone s).

Definition toProtoRecurringSeries (s : domain.RecurringSeries.t)
  : schedulev1.RecurringSeries.t :=
  let duration := wrap64 (domain.RecurringSeries.DurationSeconds s * Second) in
  schedulev1.RecurringSeries.mk (uuid.String (domain.RecurringSeries.ID s))
    (domain.RecurringSeries.UserID s) (domain.RecurringSeries.Title s)
    (domain.RecurringSeries.Notes s)
    (Some (timestamppb.New (domain.RecurringSeries.DTStart s)))
    (Some (timestamppb.New (Add (domain.RecurringSeries.DTStart s) duration)))
    (Some (toProtoWeeklyRecurrence s))
    (Some (timestamppb.New (domain.RecurringSeries.CreatedAt s)))
    (Some (timestamppb.New (domain.RecurringSeries.UpdatedAt s))).

(** The rule [CreateRecurringSeries] builds from [req.Weekly]: a count of 0
    stands for no count, and unspecified weekdays are dropped. *)
Definition weeklyRule (weekly : schedulev1.WeeklyRecurrence.t)
  : appointments.RecurrenceRuleInput :=
  let until := option_map timestamppb.AsTime (schedulev1.WeeklyRecurrence.Until weekly) in
  let count :=
    if 0 <? schedulev1.WeeklyRecurrence.Count weekly
    then Some (schedulev1.WeeklyRecurrence.Count weekly) else None in
  let weekdays :=
    List.map int16
      (List.filter (fun wd => negb (wd =? schedulev1.Weekday_WEEKDAY_UNSPECIFIED))
         (schedulev1.WeeklyRecurrence.Weekdays weekly)) in
  appointments.mkRecurrenceRuleInput domain.RecurrenceFrequencyWeekly
    (schedulev1.WeeklyRecurrence.Interval weekly) weekdays until count
    (schedulev1.WeeklyRecurrence.TimeZone weekly).

Definition conflictMessage : string :=
  "You already have an appointment during that time. Pick a different slot.".

Definition idempotencyConflictMessage : string :=
  "This request key was already used for a different appointment. Try again.".

Module AppointmentsServer.

Section Server.

Variable S : Type.
Variable svc : appointmentsService S.

(** [AppointmentsServer.CreateAppointment].  The log records the handlers
    write are not part of the model. *)
Definition CreateAppointment (st : S) (ctx : option metadata.MD)
  (req : option schedulev1.CreateAppointmentRequest.t)
  : S * rpc schedulev1.CreateAppointmentResponse.t :=
  match req with
  | None => (st, Status codes.InvalidArgument "request is required")
  | Some req =>
      match schedulev1.CreateAppointmentRequest.StartTime req,
            schedulev1.CreateAppointmentRequest.EndTime req with
      | Some startTime, Some endTime =>
          match Create svc st
                  (appointments.mkCreateInput
                     (schedulev1.CreateAppointmentRequest.UserId req)
                     (schedulev1.CreateAppointmentRequest.Title req)
                     (schedulev1.CreateAppointmentRequest.Notes req)
                     (timestamppb.AsTime startTime) (timestamppb.AsTime endTime)
                     (idempotencyKey ctx)) with
          | (st', Fail ErrConflict) =>
              (st', Status codes.FailedPrecondition conflictMessage)
          | (st', Fail ErrIdempotencyConflict) =>
              (st', Status codes.FailedPrecondition idempotencyConflictMessage)
          | (st', Fail (ValidationError msg)) =>
              (st', Status codes.InvalidArgument msg)
          | (st', Fail _) => (st', Status codes.Internal "internal error")
          | (st', Ok appt) =>
              (st', Reply (schedulev1.CreateAppointmentResponse.mk
                             (Some (toProtoAppointment appt))))
          end
      | _, _ =>
          (st, Status codes.InvalidArgument "start_time and end_time are required")
      end
  end.

(** [AppointmentsServer.CreateRecurringSeries]. *)
Definition CreateRecurringSeries (st : S)
  (req : option schedulev1.CreateRecurringSeriesRequest.t)
  : S * rpc schedulev1.CreateRecurringSeriesResponse.t :=
  match req with
  | None => (st, Status codes.InvalidArgument "request is required")
  | Some req =>
      match schedulev1.CreateRecurringSeriesRequest.StartTime req,
            schedulev1.CreateRecurringSeriesRequest.EndTime req with
      | Some startTime, Some endTime =>
          match schedulev1.CreateRecurringSeriesRequest.Weekly req with
          | None => (st, Status codes.InvalidArgument "weekly is required")
          | Some weekly =>
              match CreateRecurringSeries svc st
                      (appointments.mkCreateRecurringSeriesInput
                         (schedulev1.CreateRecurringSeriesRequest.UserId req)
                         (schedulev1.CreateRecurringSeriesRequest.Title req)
                         (schedulev1.CreateRecurringSeriesRequest.Notes req)
                         (timestamppb.AsTime startTime) (timestamppb.AsTime endTime)
                         (weeklyRule weekly)) with
              | (st', Fail ErrConflict) =>
                  (st', Status codes.FailedPrecondition conflictMessage)
              | (st', Fail (ValidationError msg)) =>
                  (st', Status codes.InvalidArgument msg)
              | (st', Fail _) => (st', Status codes.Internal "internal error")
              | (st', Ok series) =>
                  (st', Reply (schedulev1.CreateRecurringSeriesResponse.mk
                                 (Some (toProtoRecurringSeries series))))
              end
          end
      | _, _ =>
          (st, Status codes.InvalidArgument "start_time and end_time are required")
      end
  end.

End Server.

End AppointmentsServer.

End grpc.

(** ** The concrete scenarios of the specification *)

Module scenarios.

Import GoTime domain.

Definition seriesID (n : Z) : uuid.UUID := (replicate 15 0 ++ [n])%list.

(** Scenario S5: a Sunday 09:00 meeting in New York across the start of
    daylight time on 2026-03-08. *)
Definition S5 : RecurringSeries.t :=
  RecurringSeries.mk (seriesID 5) "u1" "title" EmptyString "America/New_York"
    (Date tzdata.NewYork (daysFromCivil 2026 3 1) 9 0 0 0)
    3600 RecurrenceFrequencyWeekly 1 [7] None (Some 4) zeroTime zeroTime.

Definition S5_windowStart : Time := utcDate 2026 3 1 0 0 0.
Definition S5_windowEnd : Time := utcDate 2026 3 22 0 0 0.

Definition S5_db : postgres.DB := postgres.mkDB [] [S5] [].

(** The same rule anchored at 02:30 local time, a wall-clock time that
    does not exist in New York on 2026-03-08. *)
Definition S5_gap : RecurringSeries.t :=
  RecurringSeries.mk (seriesID 6) "u1" "title" EmptyString "America/New_York"
    (Date tzdata.NewYork (daysFromCivil 2026 3 1) 2 30 0 0)
    3600 RecurrenceFrequencyWeekly 1 [7] None (Some 4) zeroTime zeroTime.

(** The time of day of [t.In(l)]: hour, minute, second, nanosecond. *)
Definition timeOfDay (l : Location) (t : Time) : Z * Z * Z * Z :=
  (Hour l t, Minute_of l t, Second_of l t, Nanosecond_of t).

End scenarios.

(** ** The exception merger as the specification words it *)

Module spec.

Import GoTime domain.

(** The instants whose nanosecond count fits [int64] (years 1678 to 2262):
    the ones [UnixNano] is defined on. *)
Definition inRange (t : Time) : Prop := minInt64 <= t <= maxInt64.

(** The exception that applies to an occurrence: the one whose
    [occurrence_start] is the instant the occurrence starts at (the one
    stored last, should the list repeat an instant). *)
Definition applicable (exs : list RecurringException.t)
  (o : RecurringOccurrence.t) : option RecurringException.t :=
  List.find (fun e => Equal (RecurringException.OccurrenceStart e)
                        (RecurringOccurrence.StartTime o))
    (List.rev exs).

(** An occurrence with the fields an override carries put in place of its
    own, the id and the owner kept. *)
Definition overridden (ex : RecurringException.t) (o : RecurringOccurrence.t)
  : RecurringOccurrence.t :=
  RecurringOccurrence.mk (RecurringOccurrence.ID o)
    (RecurringOccurrence.SeriesID o) (RecurringOccurrence.UserID o)
    (default (RecurringOccurrence.Title o) (RecurringException.OverrideTitle ex))
    (default (RecurringOccurrence.Notes o) (RecurringException.OverrideNotes ex))
    (default (RecurringOccurrence.StartTime o) (RecurringException.OverrideStart ex))
    (default (RecurringOccurrence.EndTime o) (RecurringException.OverrideEnd ex)).

(** [start, end) meets [windowStart, windowEnd). *)
Definition intersectsWindow (windowStart windowEnd : Time)
  (o : RecurringOccurrence.t) : bool :=
  (RecurringOccurrence.StartTime o <? windowEnd) &&
  (windowStart <? RecurringOccurrence.EndTime o).

(** What one occurrence becomes: itself without an exception, nothing under
    a skip, the overridden occurrence if it still meets the window. *)
Definition mergeOne (exs : list RecurringException.t)
  (windowStart windowEnd : Time) (o : RecurringOccurrence.t)
  : list RecurringOccurrence.t :=
  match applicable exs o with
  | None => [o]
  | Some ex =>
      match RecurringException.Kind ex with
      | RecurringExceptionKindSkip => []
      | RecurringExceptionKindOverride =>
          if intersectsWindow windowStart windowEnd (overridden ex o)
          then [overridden ex o] else []
      end
  end.

Definition mergeExceptions (exs : list RecurringException.t)
  (windowStart windowEnd : Time) (occs : list RecurringOccurrence.t)
  : list RecurringOccurrence.t :=
  List.flat_map (mergeOne exs windowStart windowEnd) occs.

End spec.

(** ** Sample data for the exception merger *)

Module samples.

Import GoTime domain.

Definition baseTime : Time := utcDate 2026 1 5 9 0 0.
Definition windowStart : Time := baseTime.
Definition windowEnd : Time := Add baseTime (24 * Hour_d).

(** An occurrence as the engine emits it. *)
Definition occurrenceAt (title notes : string) (start : Time)
  : RecurringOccurrence.t :=
  RecurringOccurrence.mk (GoStrings.FormatInt (UnixNano start))
    (scenarios.seriesID 257) "u1" title notes start (Add start Hour_d).

Definition occs : list RecurringOccurrence.t :=
  [ occurrenceAt "t1" "n1" baseTime;
    occurrenceAt "t2" "n2" (Add baseTime (2 * Hour_d)) ].

(** An override that moves the first occurrence by half an hour. *)
Definition overrideFirst : RecurringException.t :=
  RecurringException.mk (scenarios.seriesID 1) (scenarios.seriesID 257)
    baseTime RecurringExceptionKindOverride
    (Some (Add baseTime (30 * Minute))) (Some (Add baseTime (90 * Minute)))
    (Some "new title") None zeroTime zeroTime.

Definition movedFirst : RecurringOccurrence.t :=
  RecurringOccurrence.mk (GoStrings.FormatInt (UnixNano baseTime))
    (scenarios.seriesID 257) "u1" "new title" "n1"
    (Add baseTime (30 * Minute)) (Add baseTime (90 * Minute)).

End samples.

(** ** Sample data for the create protocol *)

Module createSamples.

Import GoTime domain.

Definition env1 : HookEnv :=
  mkHookEnv (utcDate 2026 1 1 9 59 0) (scenarios.seriesID 1793).
Definition env2 : HookEnv :=
  mkHookEnv (utcDate 2026 1 1 9 59 30) (scenarios.seriesID 1794).

(** The request of scenario S1 as the service passes it to the store when no
    idempotency key is given. *)
Definition A1 : Appointment.t :=
  Appointment.mk uuid.Nil "u1" "t" EmptyString
    (utcDate 2026 1 1 10 0 0) (utcDate 2026 1 1 11 0 0) zeroTime zeroTime.

End createSamples.

(** ** Vocabulary of the claims about the create protocol *)

Module createSpec.

Import domain.

(** A string that consists of white space only: a sequence of encoded
    white-space code points. *)
Inductive allSpace : string -> Prop :=
  | allSpace_nil : allSpace EmptyString
  | allSpace_cons (e s : string) :
      In e GoStrings.spaceEncodings -> allSpace s -> allSpace (e ++ s)%string.

(** Equality of the fields the replay compares. *)
Definition samePayload (a b : Appointment.t) : Prop :=
  Appointment.UserID a = Appointment.UserID b
  /\ Appointment.Title a = Appointment.Title b
  /\ Appointment.Notes a = Appointment.Notes b
  /\ Appointment.StartTime a = Appointment.StartTime b
  /\ Appointment.EndTime a = Appointment.EndTime b.

#[global] Instance samePayload_dec a b : Decision (samePayload a b).
Proof. unfold samePayload. apply _. Defined.

(** The request without its idempotency key. *)
Definition keyless (in_ : appointments.CreateInput) : appointments.CreateInput :=
  appointments.mkCreateInput (appointments.UserID in_) (appointments.Title in_)
    (appointments.Notes in_) (appointments.StartTime in_)
    (appointments.EndTime in_) EmptyString.

(** A key of 300 spaces followed by [k1]: 302 bytes, 2 after trimming. *)
Definition paddedKey : string :=
  (string_of_list_ascii (List.repeat " "%char 300) ++ "k1")%string.

Definition requestWithKey (title key : string) : appointments.CreateInput :=
  appointments.mkCreateInput "u1" title EmptyString
    (GoTime.utcDate 2026 1 1 10 0 0) (GoTime.utcDate 2026 1 1 11 0 0) key.

(** A stand-in for SHA-1 in the examples: any function will do, the
    theorems hold for every digest function. *)
Definition sampleDigest (data : list Z) : list Z :=
  take 20 (List.map (fun b => (b * 31 + 7) mod 256) (List.rev data) ++ replicate 20 0).

End createSpec.

(** ** Sample requests for the series checks *)

Module seriesSamples.

Import GoTime domain.

(** A Monday 09:00-10:00 UTC meeting from 2026-01-05, weekly. *)
Definition request (until : option Time) (count : option Z)
  : appointments.CreateRecurringSeriesInput :=
  appointments.mkCreateRecurringSeriesInput "u1" "t" EmptyString
    (utcDate 2026 1 5 9 0 0) (utcDate 2026 1 5 10 0 0)
    (appointments.mkRecurrenceRuleInput "weekly" 1 [1] until count "UTC").

(** A repository that accepts everything, for the examples. *)
Definition acceptAll : store.AppointmentRepository unit :=
  store.mkRepository unit (fun st a => (st, Ok a)) (fun st s => (st, Ok s))
    (fun _ _ _ _ => Ok []).

End seriesSamples.

(** ** Vocabulary of the claims about the recurrence engine *)

Module engineSpec.

Import GoTime domain.

(** The local wall clock of [dtstart]: seconds since local midnight. *)
Definition wallClock (loc : Location) (series : RecurringSeries.t) : Z :=
  localSec loc (RecurringSeries.DTStart series) mod secondsPerDay.

(** [o] is the occurrence of [series] on the date [day]: it starts at the
    wall clock of [dtstart] applied to that date in [loc], lasts the
    duration of the series and carries its fields; it does not start before
    [dtstart] nor after [until], and it meets the window. *)
Definition occurrenceOn (series : RecurringSeries.t) (windowStart windowEnd : Time)
  (loc : Location) (day : Z) (o : RecurringOccurrence.t) : Prop :=
  let start :=
    Date loc day (Hour loc (RecurringSeries.DTStart series))
      (Minute_of loc (RecurringSeries.DTStart series))
      (Second_of loc (RecurringSeries.DTStart series))
      (Nanosecond_of (RecurringSeries.DTStart series)) in
  o = makeOccurrence series start (start + duration series)
  /\ RecurringSeries.DTStart series <= start
  /\ start < windowEnd
  /\ windowStart < start + duration series
  /\ (forall u, RecurringSeries.Until series = Some u -> start <= u).

Definition emitted (series : RecurringSeries.t) (windowStart windowEnd : Time)
  (loc : Location) (o : RecurringOccurrence.t) : Prop :=
  exists day, occurrenceOn series windowStart windowEnd loc day o.

End engineSpec.

(** ** Vocabulary of the claim about the conflict check *)

Module conflictSpec.

Import GoTime domain postgres.

Section Spec.

Variable tzdb : string -> option Location.
Variable db : DB.
Variable series : RecurringSeries.t.

(** The occurrences of the new series within the horizon, by start. *)
Definition newOccurrences : list RecurringOccurrence.t :=
  match GenerateWeeklyOccurrences tzdb series (conflictWindowStart series)
          (conflictWindowEnd series) with
  | Ok occs => merge_sort byStartOccurrence occs
  | Fail _ => []
  end.

(** The comparison window: from [dtstart] to the end of the last new
    occurrence. *)
Definition comparisonStart : Time := conflictWindowStart series.
Definition comparisonEnd : Time := lastEnd newOccurrences (conflictWindowEnd series).

Definition spanOfAppointment (a : Appointment.t) : timeSpan :=
  mkTimeSpan (Appointment.StartTime a) (Appointment.EndTime a).
Definition spanOfOccurrence (o : RecurringOccurrence.t) : timeSpan :=
  mkTimeSpan (RecurringOccurrence.StartTime o) (RecurringOccurrence.EndTime o).

(** The spans of all the appointments of the user. *)
Definition appointmentSpans : list timeSpan :=
  List.map spanOfAppointment
    (List.filter (fun a => String.eqb (Appointment.UserID a)
                             (RecurringSeries.UserID series))
       (appointments db)).

(** The spans one stored series contributes to a comparison window: its
    exception-adjusted occurrences over the window, the exceptions taken 14
    days around it. *)
Definition seriesContribution (ws we : Time) (s : RecurringSeries.t)
  : list timeSpan :=
  match GenerateWeeklyOccurrences tzdb s ws we with
  | Ok occs =>
      List.map spanOfOccurrence
        (applyRecurringExceptions occs
           (ListRecurringExceptions db (RecurringSeries.ID s)
              (Add ws (-14 * 24 * Hour_d)) (Add we (14 * 24 * Hour_d))) ws we)
  | Fail _ => []
  end.

(** The spans of the stored series of the user. *)
Definition seriesSpans : list timeSpan :=
  List.flat_map (seriesContribution comparisonStart comparisonEnd)
    (List.filter (fun s => String.eqb (RecurringSeries.UserID s)
                             (RecurringSeries.UserID series))
       (recurring_series db)).

Definition existingSpans : list timeSpan := appointmentSpans ++ seriesSpans.

(** Every stored series of the user can be expanded over the comparison
    window (its rule and time zone are valid). *)
Definition storedSeriesExpand : Prop :=
  forall s, In s (recurring_series db) ->
    RecurringSeries.UserID s = RecurringSeries.UserID series ->
    exists occs,
      GenerateWeeklyOccurrences tzdb s comparisonStart comparisonEnd = Ok occs.

End Spec.

(** The half-open intervals of [n] and [e] overlap. *)
Definition overlaps (n : RecurringOccurrence.t) (e : timeSpan) : Prop :=
  RecurringOccurrence.StartTime n < End_ e /\ Start e < RecurringOccurrence.EndTime n.

(** Two consecutive occurrences of the list overlap. *)
Definition selfOverlap (l : list RecurringOccurrence.t) : Prop :=
  exists (i : nat) a b,
    l !! i = Some a /\ l !! Datatypes.S i = Some b
    /\ RecurringOccurrence.StartTime b < RecurringOccurrence.EndTime a.

End conflictSpec.

(** ** Scenario S6: a new series against an existing appointment *)

Module conflictSamples.

Import GoTime domain.

Definition S6_series : RecurringSeries.t :=
  RecurringSeries.mk (scenarios.seriesID 513) "u1" "t" EmptyString "UTC"
    (utcDate 2026 1 5 9 0 0) 3600 RecurrenceFrequencyWeekly 1 [1]
    (Some (utcDate 2026 1 20 0 0 0)) None zeroTime zeroTime.

Definition S6_A1 : Appointment.t :=
  Appointment.mk (scenarios.seriesID 769) "u1" "existing" EmptyString
    (utcDate 2026 1 12 9 30 0) (utcDate 2026 1 12 9 45 0) zeroTime zeroTime.

(** A stored series of the same user on Tuesdays, 14:00 New York time. *)
Definition tuesdays : RecurringSeries.t :=
  RecurringSeries.mk (scenarios.seriesID 514) "u1" "other" EmptyString
    "America/New_York" (utcDate 2026 1 6 19 0 0) 1800 RecurrenceFrequencyWeekly
    1 [2] None (Some 10) zeroTime zeroTime.

Definition S6_db : postgres.DB := postgres.mkDB [S6_A1] [tuesdays] [].

(** A stored series on Sundays, 23:30-00:30 UTC, from 2026-01-04: each
    occurrence ends on the Monday of the next week. *)
Definition sundayLate : RecurringSeries.t :=
  RecurringSeries.mk (scenarios.seriesID 515) "u1" "late" EmptyString "UTC"
    (utcDate 2026 1 4 23 30 0) 3600 RecurrenceFrequencyWeekly 1 [7]
    None (Some 52) zeroTime zeroTime.

(** A new series of the same user with a single occurrence, Monday
    2026-01-12, 00:00-01:00 UTC. *)
Definition mondayOnce : RecurringSeries.t :=
  RecurringSeries.mk uuid.Nil "u1" "new" EmptyString "UTC"
    (utcDate 2026 1 12 0 0 0) 3600 RecurrenceFrequencyWeekly 1 [1]
    None (Some 1) zeroTime zeroTime.

Definition sundayLate_db : postgres.DB := postgres.mkDB [] [sundayLate] [].

(** The same calendar with the occurrence of 2026-01-11 stored as a one-off
    appointment instead. *)
Definition lateAppointment : Appointment.t :=
  Appointment.mk (scenarios.seriesID 770) "u1" "late" EmptyString
    (utcDate 2026 1 11 23 30 0) (utcDate 2026 1 12 0 30 0) zeroTime zeroTime.

Definition lateAppointment_db : postgres.DB :=
  postgres.mkDB [lateAppointment] [] [].

End conflictSamples.

(** ** Vocabulary of the claims about time zones *)

Module zoneSpec.

Import GoTime.

(** The transitions from [prev] on are more than [2 * M] seconds apart and
    the offsets are at most [M] seconds in absolute value. *)
Fixpoint spacedFrom (M prev : Z) (tx : list (Z * Z)) : bool :=
  match tx with
  | [] => true
  | (w, o) :: rest =>
      (prev + 2 * M <? w) && (Z.abs o <=? M) && spacedFrom M w rest
  end.

(** A zone whose offsets are bounded by [M] and whose transitions are more
    than [2 * M] apart: around any instant, at most one transition lies
    within reach of an offset. *)
Definition regularZone (M : Z) (loc : Location) : bool :=
  (0 <=? M) && (Z.abs (initOffset loc) <=? M) && spacedFrom M alpha (trans loc).

(** The wall-clock reading [L] (local seconds) occurs in the zone. *)
Definition existsLocal (loc : Location) (L : Z) : Prop :=
  exists u, u + offsetAt loc u = L.

(** [L] is far enough from the ends of the time line of [lookup]. *)
Definition representable (M L : Z) : Prop := alpha + M <= L /\ L + M < omega.

End zoneSpec.

(** ** The candidates the engine visits, as one list *)

Module engineFlat.

Import GoTime domain.

(** The series with another count. *)
Definition setCount (s : RecurringSeries.t) (count : option Z) : RecurringSeries.t :=
  RecurringSeries.mk (RecurringSeries.ID s) (RecurringSeries.UserID s)
    (RecurringSeries.Title s) (RecurringSeries.Notes s)
    (RecurringSeries.Timezone s) (RecurringSeries.DTStart s)
    (RecurringSeries.DurationSeconds s) (RecurringSeries.Frequency s)
    (RecurringSeries.Interval s) (RecurringSeries.ByWeekday s)
    (RecurringSeries.Until s) count (RecurringSeries.CreatedAt s)
    (RecurringSeries.UpdatedAt s).

(** All offsets of the zone lie between [lo] and [hi]. *)
Definition offsetsWithin (lo hi : Z) (loc : Location) : bool :=
  forallb (fun o => (lo <=? o) && (o <=? hi))
    (initOffset loc :: List.map snd (trans loc)).

Section Flat.

Variable series : RecurringSeries.t.
Variables windowStart windowEnd : Time.
Variable loc : Location.
Variable weekdays : list Z.

(** The candidates of one week, each with its global index. *)
Fixpoint weekCands (weekStartMondayUTC : Time) (weekIndex : Z) (wds : list Z)
  (weekdayIndex : Z) : list (Time * Z) :=
  match wds with
  | [] => []
  | wd :: rest =>
      (candidateOfWeek series loc weekStartMondayUTC wd,
       weekIndex * occPerWeek weekdays + weekdayIndex
       - skippedInFirstWeek series loc weekdays)
      :: weekCands weekStartMondayUTC weekIndex rest (weekdayIndex + 1)
  end.

(** The candidates of the weeks from [weekIndex] up to the end boundary. *)
Fixpoint allCands (fuel : nat) (weekIndex : Z) : list (Time * Z) :=
  match fuel with
  | O => []
  | S fuel' =>
      let weekStartMondayUTC :=
        AddDateDays (startWeekMondayUTC series loc) (weekIndex * interval series * 7) in
      if negb (Before weekStartMondayUTC (windowEndWeekBoundaryUTC windowEnd loc))
      then []
      else weekCands weekStartMondayUTC weekIndex weekdays 0
           ++ allCands fuel' (weekIndex + 1)
  end.

(** The body of the inner loop, run over a list of candidates. *)
Fixpoint run (cands : list (Time * Z)) (out : list RecurringOccurrence.t)
  : weekResult :=
  match cands with
  | [] => Continue out
  | (startUTC, globalIndex) :: rest =>
      if Before startUTC (dtstartUTC series) then run rest out
      else if match RecurringSeries.Until series with
              | Some u => After startUTC (UTC u)
              | None => false
              end then Return out
      else if (0 <=? maxCount series) && (maxCount series <=? globalIndex)
      then Return out
      else
        let endUTC := Add startUTC (duration series) in
        let out' :=
          if Before startUTC windowEnd && After endUTC windowStart
          then out ++ [makeOccurrence series startUTC endUTC] else out in
        run rest out'
  end.

End Flat.

(** The global indices of the candidates of a list that do not start before
    [dtstart] count them from [r] on. *)
Fixpoint ranked (dtstart : Time) (r : Z) (cands : list (Time * Z)) : Prop :=
  match cands with
  | [] => True
  | (startUTC, globalIndex) :: rest =>
      if startUTC <? dtstart then ranked dtstart r rest
      else globalIndex = r /\ ranked dtstart (r + 1) rest
  end.

(** The candidates are visited in the order of their starts. *)
Definition ascending (cands : list (Time * Z)) : Prop :=
  StronglySorted (fun a b => a.1 < b.1) cands.

(** The global indices of the list are [g0], [g0 + 1], ... *)
Fixpoint indexedFrom (g0 : Z) (cands : list (Time * Z)) : Prop :=
  match cands with
  | [] => True
  | (_, globalIndex) :: rest => globalIndex = g0 /\ indexedFrom (g0 + 1) rest
  end.

(** The number of candidates of the list that start before [dtstart]. *)
Definition preCount (dtstart : Time) (cands : list (Time * Z)) : Z :=
  Z.of_nat (length (List.filter (fun c => c.1 <? dtstart) cands)).

Section Dates.

Variables lo hi : Z.
Variables tod ns : Z.

(** [st] is the wall-clock time [tod], [ns] on the date [D], converted with
    some offset between [lo] and [hi]. *)
Definition onDate (D : Z) (st : Time) : Prop :=
  exists o, lo <= o <= hi /\ st = (D * secondsPerDay + tod - o) * Second + ns.

(** The candidates are in the order of their starts and fall on dates
    after [b]. *)
Definition above (b : Z) (cands : list (Time * Z)) : Prop :=
  ascending cands /\ Forall (fun c => exists D, b < D /\ onDate D c.1) cands.

End Dates.

(** The Monday on or before the date [D]. *)
Definition mondayOf (D : Z) : Z := D - (D + 3) mod 7.

(** The window starts no later than [dtstart], as an instant and as a
    date of the zone. *)
Definition windowCoversStart (loc : Location) (series : RecurringSeries.t)
  (windowStart : Time) : Prop :=
  windowStart <= RecurringSeries.DTStart series
  /\ dayOf loc windowStart <= dayOf loc (RecurringSeries.DTStart series).

End engineFlat.

(** ** A sample for the count cap *)

Module countSamples.

Import GoTime domain.

(** Every second week on Wednesday and Sunday at 09:00 New York time, from
    Sunday 2026-03-01: the Wednesday of the first week precedes [dtstart]. *)
Definition biweekly : RecurringSeries.t :=
  RecurringSeries.mk (scenarios.seriesID 7) "u1" "title" EmptyString
    "America/New_York" (Date tzdata.NewYork (daysFromCivil 2026 3 1) 9 0 0 0)
    3600 RecurrenceFrequencyWeekly 2 [7; 3; 7] None None zeroTime zeroTime.

Definition windowStart : Time := utcDate 2026 2 1 0 0 0.
Definition windowEnd : Time := utcDate 2026 6 1 0 0 0.

End countSamples.

(** ** Vocabulary of the properties of the store *)

Module storeSpec.
Import GoTime domain postgres.

(** Two appointments of one user whose half-open ranges overlap. *)
Definition clash (a b : Appointment.t) : Prop :=
  Appointment.UserID a = Appointment.UserID b
  /\ Appointment.StartTime a < Appointment.EndTime b
  /\ Appointment.StartTime b < Appointment.EndTime a.

(** What the constraints of the [appointments] relation keep: every range
    is non-empty, the ids are distinct, and no two rows of one user
    overlap. *)
Definition wellFormed (db : DB) : Prop :=
  Forall (fun a => Appointment.StartTime a < Appointment.EndTime a) (appointments db)
  /\ NoDup (List.map Appointment.ID (appointments db))
  /\ ForallOrdPairs (fun a b => ~ clash a b) (appointments db).

(** An instant the tables keep as it is: a whole number of microseconds. *)
Definition wholeMicros (t : Time) : Prop := t mod Microsecond = 0.

Definition wholeMicrosOption (t : option Time) : Prop :=
  match t with
  | Some t => wholeMicros t
  | None => True
  end.

End storeSpec.

(** ** Vocabulary of the properties of the series relations *)

Module seriesSpec.
Import GoTime domain postgres.

(** The key of the unique index of [recurring_exceptions]. *)
Definition occurrenceKey (e : RecurringException.t) : uuid.UUID * Time :=
  (RecurringException.SeriesID e, RecurringException.OccurrenceStart e).

(** What the constraints of [recurring_series] and [recurring_exceptions]
    keep: distinct series ids, distinct exception ids, at most one exception
    per series and occurrence start, and every exception refers to a stored
    series. *)
Definition wellFormed (db : DB) : Prop :=
  NoDup (List.map RecurringSeries.ID (recurring_series db))
  /\ NoDup (List.map RecurringException.ID (recurring_exceptions db))
  /\ NoDup (List.map occurrenceKey (recurring_exceptions db))
  /\ Forall (fun e => In (RecurringException.SeriesID e)
                        (List.map RecurringSeries.ID (recurring_series db)))
       (recurring_exceptions db).

(** The occurrences one stored series contributes to a listing: its
    expansion over the window, merged with its exceptions taken 14 days
    around the window. *)
Definition listed (tzdb : string -> option Location) (db : DB)
  (windowStart windowEnd : Time) (s : RecurringSeries.t)
  : list RecurringOccurrence.t :=
  match GenerateWeeklyOccurrences tzdb s windowStart windowEnd with
  | Ok occs =>
      applyRecurringExceptions occs
        (ListRecurringExceptions db (RecurringSeries.ID s)
           (Add windowStart (-14 * 24 * Hour_d)) (Add windowEnd (14 * 24 * Hour_d)))
        windowStart windowEnd
  | Fail _ => []
  end.

(** The rows [ListOccurrences] expands. *)
Definition listedRows (db : DB) (userID : string) (we : Time) : list RecurringSeries.t :=
  List.filter (fun r => String.eqb (RecurringSeries.UserID r) userID &&
                        (RecurringSeries.DTStart r <? we)) (recurring_series db).

(** The database without the appointments and series of the other users. *)
Definition calendarOf (userID : string) (db : DB) : DB :=
  mkDB (List.filter (fun a => String.eqb (Appointment.UserID a) userID)
          (appointments db))
       (List.filter (fun s => String.eqb (RecurringSeries.UserID s) userID)
          (recurring_series db))
       (recurring_exceptions db).

End seriesSpec.

(** ** Vocabulary of the properties of the rule *)

Module ruleSpec.
Import GoTime domain.

(** The series with other weekdays, another interval, another count. *)
Definition setByWeekday (s : RecurringSeries.t) (wds : list Z) : RecurringSeries.t :=
  RecurringSeries.mk (RecurringSeries.ID s) (RecurringSeries.UserID s)
    (RecurringSeries.Title s) (RecurringSeries.Notes s)
    (RecurringSeries.Timezone s) (RecurringSeries.DTStart s)
    (RecurringSeries.DurationSeconds s) (RecurringSeries.Frequency s)
    (RecurringSeries.Interval s) wds
    (RecurringSeries.Until s) (RecurringSeries.Count s)
    (RecurringSeries.CreatedAt s) (RecurringSeries.UpdatedAt s).

Definition setInterval (s : RecurringSeries.t) (i : Z) : RecurringSeries.t :=
  RecurringSeries.mk (RecurringSeries.ID s) (RecurringSeries.UserID s)
    (RecurringSeries.Title s) (RecurringSeries.Notes s)
    (RecurringSeries.Timezone s) (RecurringSeries.DTStart s)
    (RecurringSeries.DurationSeconds s) (RecurringSeries.Frequency s)
    i (RecurringSeries.ByWeekday s)
    (RecurringSeries.Until s) (RecurringSeries.Count s)
    (RecurringSeries.CreatedAt s) (RecurringSeries.UpdatedAt s).

(** Some weekday of the list is outside 1..7. *)
Definition invalidWeekday (l : list Z) : Prop :=
  exists wd, In wd l /\ (wd < 1 \/ 7 < wd).

End ruleSpec.

(** ** Sample data for the store *)

Module storeSamples.
Import GoTime domain.
Local Open Scope string_scope.

(** The data of the integration test: an appointment on 2026-01-01,
    10:00-11:00 UTC, a request that overlaps it, one that abuts it and one
    inside its range. *)
Definition a1 : Appointment.t :=
  Appointment.mk (scenarios.seriesID 901) "u1" "t" EmptyString
    (utcDate 2026 1 1 10 0 0) (utcDate 2026 1 1 11 0 0)
    (utcDate 2026 1 1 9 59 0) (utcDate 2026 1 1 9 59 0).


Definition abutting : Appointment.t :=
  Appointment.mk (scenarios.seriesID 903) "u1" "t3" EmptyString
    (utcDate 2026 1 1 11 0 0) (utcDate 2026 1 1 12 0 0) zeroTime zeroTime.

Definition inside : Appointment.t :=
  Appointment.mk (scenarios.seriesID 904) "u1" "t4" EmptyString
    (utcDate 2026 1 1 10 15 0) (utcDate 2026 1 1 10 45 0) zeroTime zeroTime.

Definition db1 : postgres.DB := postgres.mkDB [a1] [] [].

(** Exceptions of the series of scenario S5 for its occurrence of
    2026-03-08: a skip without id, and a stored override. *)
Definition skipSecond : RecurringException.t :=
  RecurringException.mk uuid.Nil (scenarios.seriesID 5) (utcDate 2026 3 8 13 0 0)
    RecurringExceptionKindSkip None None None None zeroTime zeroTime.

Definition storedOverride : RecurringException.t :=
  RecurringException.mk (scenarios.seriesID 77) (scenarios.seriesID 5)
    (utcDate 2026 3 8 13 0 0) RecurringExceptionKindOverride
    (Some (utcDate 2026 3 8 15 0 0)) (Some (utcDate 2026 3 8 16 0 0)) None None
    (utcDate 2026 1 1 8 0 0) (utcDate 2026 1 1 8 0 0).

Definition S5_overridden : postgres.DB :=
  postgres.mkDB [] [scenarios.S5] [storedOverride].

(** A request for a series that lasts half a second. *)
Definition halfSecond : appointments.CreateRecurringSeriesInput :=
  appointments.mkCreateRecurringSeriesInput "u1" "t" EmptyString
    (utcDate 2026 1 5 9 0 0) (utcDate 2026 1 5 9 0 0 + 500000000)
    (appointments.mkRecurrenceRuleInput "weekly" 1 [1] None (Some 3) "UTC").

End storeSamples.

(** ** Sample calls of the transport *)

Module transportSamples.
Import GoTime.
Local Open Scope string_scope.

(** 2026-01-05 (a Monday) 09:00:00 UTC, the instant 30 minutes and half a
    second after it, and the instant half a second after it. *)
Definition nine : timestamppb.Timestamp := timestamppb.mkTimestamp 1767603600 0.
Definition halfPastNine : timestamppb.Timestamp :=
  timestamppb.mkTimestamp 1767605400 500000000.
Definition justAfterNine : timestamppb.Timestamp :=
  timestamppb.mkTimestamp 1767603600 500000000.



(** A rule as a client may send it: interval 0, weekdays unordered, with a
    repeat and an unspecified entry, the zone padded. *)
Definition rawWeekly : schedulev1.WeeklyRecurrence.t :=
  schedulev1.WeeklyRecurrence.mk 0 [3; 1; 3; 0] None 3 " UTC ".

Definition seriesRequest (endTime : timestamppb.Timestamp)
  : schedulev1.CreateRecurringSeriesRequest.t :=
  schedulev1.CreateRecurringSeriesRequest.mk "u1" " standup " EmptyString
    (Some nine) (Some endTime) (Some rawWeekly).

Definition server : grpc.appointmentsService postgres.DB :=
  grpc.Service postgres.DB (postgres.AppointmentRepo tzdata.tzdb createSamples.env1)
    postgres.AppointmentRepoListDelete createSpec.sampleDigest tzdata.tzdb.

End transportSamples.

(* ================================================================== *)
(** * Properties *)
(* ================================================================== *)

(** ** Sanity checks of the library models *)

Example utcDate_epoch : GoTime.utcDate 1970 1 1 0 0 0 = 0.
Proof. reflexivity. Qed.
Example utcDate_2026 : GoTime.utcDate 2026 3 1 14 0 0 = 1772373600 * GoTime.Second.
Proof. reflexivity. Qed.
Example zeroTime_is_year_one : GoTime.utcDate 1 1 1 0 0 0 = GoTime.zeroTime.
Proof. reflexivity. Qed.
Example TrimSpace_ex1 : GoStrings.TrimSpace "  abc  " = "abc"%string.
Proof. reflexivity. Qed.
Example TrimSpace_ex2 :
  GoStrings.TrimSpace (GoStrings.str [32; 194; 160; 9; 107; 32; 49; 226; 128; 168; 10]%nat)
  = GoStrings.str [107; 32; 49]%nat.
Proof. reflexivity. Qed.
Example TrimSpace_ex3 : GoStrings.TrimSpace (GoStrings.str [194; 133; 160]%nat) = GoStrings.str [160]%nat.
Proof. reflexivity. Qed.
Example FormatInt_ex1 : GoStrings.FormatInt 1772373600000000000 = "1772373600000000000"%string.
Proof. reflexivity. Qed.
Example FormatInt_ex2 : GoStrings.FormatInt (-45) = "-45"%string.
Proof. reflexivity. Qed.
Example FormatInt_ex3 : GoStrings.FormatInt 0 = "0"%string.
Proof. reflexivity. Qed.

(** ** Scenario S5: a weekly series across a daylight-saving transition *)

(** C6.  Listing the occurrences of the series S5 (America/New_York,
    dtstart 2026-03-01 09:00 local, one hour, every Sunday, count 4, no
    exceptions) over [2026-03-01T00:00Z, 2026-03-22T00:00Z) gives exactly
    three occurrences, on 2026-03-01, 2026-03-08 and 2026-03-15, and the
    local hour of each in New York is 9, although the UTC start moves from
    14:00 to 13:00 at the transition of 2026-03-08. *)
Theorem S5_three_occurrences_at_nine_local :
  exists occs,
    postgres.ListOccurrences tzdata.tzdb scenarios.S5_db "u1"
      scenarios.S5_windowStart scenarios.S5_windowEnd = Ok occs
    /\ appointments.ListOccurrences postgres.DB
         (postgres.AppointmentRepo tzdata.tzdb createSamples.env1)
         scenarios.S5_db "u1" scenarios.S5_windowStart scenarios.S5_windowEnd
       = Ok occs
    /\ domain.GenerateWeeklyOccurrences tzdata.tzdb scenarios.S5
         scenarios.S5_windowStart scenarios.S5_windowEnd = Ok occs
    /\ List.map domain.RecurringOccurrence.StartTime occs
       = [ GoTime.utcDate 2026 3 1 14 0 0;
           GoTime.utcDate 2026 3 8 13 0 0;
           GoTime.utcDate 2026 3 15 13 0 0 ]
    /\ List.map (GoTime.dayOf tzdata.NewYork ∘ domain.RecurringOccurrence.StartTime) occs
       = [ GoTime.daysFromCivil 2026 3 1;
           GoTime.daysFromCivil 2026 3 8;
           GoTime.daysFromCivil 2026 3 15 ]
    /\ List.map (GoTime.Hour tzdata.NewYork ∘ domain.RecurringOccurrence.StartTime) occs
       = [9; 9; 9]
    /\ length occs = 3%nat.
Proof.
  eexists. split; [vm_compute; reflexivity|].
  repeat split; vm_compute; reflexivity.
Qed.

(** ** Integers, decimal strings *)

Section Int64.
Import GoTime.

Lemma wrap64_inRange (t : Z) : spec.inRange t -> wrap64 t = t.
Proof.
  unfold spec.inRange, wrap64, minInt64, maxInt64. intros H.
  rewrite Z.mod_small; lia.
Qed.

Lemma wrap64_eq_iff (a b : Z) :
  wrap64 a = wrap64 b <-> exists k, a - b = k * 2 ^ 64.
Proof.
  unfold wrap64. split.
  - intros H.
    exists ((a + 2 ^ 63) / 2 ^ 64 - (b + 2 ^ 63) / 2 ^ 64).
    pose proof (Z.div_mod (a + 2 ^ 63) (2 ^ 64) ltac:(lia)).
    pose proof (Z.div_mod (b + 2 ^ 63) (2 ^ 64) ltac:(lia)).
    lia.
  - intros [k Hk]. f_equal.
    replace (a + 2 ^ 63) with (b + 2 ^ 63 + k * 2 ^ 64) by lia.
    apply Z.mod_add. lia.
Qed.

Lemma wrap64_near_miss (a b : Z) :
  a <> b -> Z.abs (a - b) < 2 ^ 64 -> wrap64 a <> wrap64 b.
Proof.
  intros Hne Hlt Heq. apply wrap64_eq_iff in Heq as [k Hk]. nia.
Qed.

Lemma to_int_not_nil (z : Z) :
  Z.to_int z <> Decimal.Pos Decimal.Nil /\ Z.to_int z <> Decimal.Neg Decimal.Nil.
Proof.
  split; intros H; pose proof (DecimalZ.of_to z) as Hz; rewrite H in Hz;
    cbn in Hz; subst z; discriminate H.
Qed.

Lemma FormatInt_inj (a b : Z) :
  GoStrings.FormatInt a = GoStrings.FormatInt b -> a = b.
Proof.
  unfold GoStrings.FormatInt. intros H.
  apply DecimalZ.to_int_inj.
  destruct (to_int_not_nil a) as [Ha1 Ha2], (to_int_not_nil b) as [Hb1 Hb2].
  pose proof (NilZero.isi _ Ha1 Ha2) as Ia.
  pose proof (NilZero.isi _ Hb1 Hb2) as Ib.
  rewrite H in Ia. congruence.
Qed.

End Int64.

(** ** The exception merger *)

Section Merger.
Import GoTime domain postgres.

Implicit Types (o : RecurringOccurrence.t) (ex e : RecurringException.t).
Implicit Types (m : gmap Z RecurringException.t).

Lemma applyException_acc m ws we (acc : list RecurringOccurrence.t) o :
  applyException m ws we acc o = acc ++ applyException m ws we [] o.
Proof.
  unfold applyException.
  destruct (m !! _) as [ex|]; [|reflexivity].
  destruct (RecurringException.Kind ex); [by rewrite app_nil_r|].
  destruct (_ && _); [reflexivity|by rewrite app_nil_r].
Qed.

Lemma foldl_applyException m ws we (acc occs : list RecurringOccurrence.t) :
  foldl (applyException m ws we) acc occs
  = acc ++ List.flat_map (applyException m ws we []) occs.
Proof.
  revert acc. induction occs as [|o occs IH]; intros acc; cbn.
  - by rewrite app_nil_r.
  - rewrite IH, applyException_acc. by rewrite <- app_assoc.
Qed.

(** The map holds, under a key, the last exception of the list with it. *)
Lemma indexExceptions_lookup (exs : list RecurringException.t) (k : Z) :
  indexExceptions exs !! k
  = List.find (fun e => UnixNano (UTC (RecurringException.OccurrenceStart e)) =? k)
      (List.rev exs).
Proof.
  unfold indexExceptions.
  induction exs as [|e exs IH] using rev_ind; [reflexivity|].
  rewrite foldl_snoc, rev_unit. cbn [List.find].
  destruct (Z.eqb_spec (UnixNano (UTC (RecurringException.OccurrenceStart e))) k) as [->|Hne].
  - apply lookup_insert_eq.
  - rewrite lookup_insert_ne by done. apply IH.
Qed.

Lemma find_ext_Forall {A} (f g : A -> bool) (l : list A) :
  Forall (fun x => f x = g x) l -> List.find f l = List.find g l.
Proof.
  induction 1 as [|x l Hx _ IH]; [reflexivity|]. cbn. by rewrite Hx, IH.
Qed.

Lemma find_none_Forall {A} (f : A -> bool) (l : list A) :
  Forall (fun x => f x = false) l -> List.find f l = None.
Proof.
  induction 1 as [|x l Hx _ IH]; [reflexivity|]. cbn. by rewrite Hx.
Qed.

(** For instants of the range of [UnixNano], the lookup in the map is the
    search for an exception at the instant of the occurrence. *)
Lemma indexExceptions_applicable exs o :
  spec.inRange (RecurringOccurrence.StartTime o) ->
  Forall (fun e => spec.inRange (RecurringException.OccurrenceStart e)) exs ->
  indexExceptions exs !! UnixNano (UTC (RecurringOccurrence.StartTime o))
  = spec.applicable exs o.
Proof.
  intros Ho Hexs. rewrite indexExceptions_lookup. unfold spec.applicable.
  apply find_ext_Forall.
  apply Forall_rev. eapply Forall_impl; [exact Hexs|].
  intros e He. cbn beta. unfold UnixNano, UTC, Equal.
  by rewrite !wrap64_inRange.
Qed.

Lemma applyException_mergeOne exs ws we o :
  spec.inRange (RecurringOccurrence.StartTime o) ->
  Forall (fun e => spec.inRange (RecurringException.OccurrenceStart e)) exs ->
  applyException (indexExceptions exs) ws we [] o = spec.mergeOne exs ws we o.
Proof.
  intros Ho Hexs. unfold applyException, spec.mergeOne.
  rewrite indexExceptions_applicable by done.
  destruct (spec.applicable exs o) as [ex|]; [|reflexivity].
  destruct (RecurringException.Kind ex); [reflexivity|].
  unfold spec.intersectsWindow, spec.overridden, Before, After, UTC. cbn.
  destruct (RecurringException.OverrideStart ex), (RecurringException.OverrideEnd ex),
    (RecurringException.OverrideTitle ex), (RecurringException.OverrideNotes ex);
    reflexivity.
Qed.

Lemma flat_map_singleton {A} (l : list A) : List.flat_map (fun x => [x]) l = l.
Proof. induction l; cbn; congruence. Qed.

Lemma flat_map_ext_Forall {A B} (f g : A -> list B) (l : list A) :
  Forall (fun x => f x = g x) l -> List.flat_map f l = List.flat_map g l.
Proof. induction 1 as [|x l Hx _ IH]; cbn; congruence. Qed.

(** C5.  For occurrences and exceptions at instants of the range of
    [UnixNano], [applyRecurringExceptions] is the merger of the
    specification: the occurrences are treated one by one and in order; an
    occurrence no exception starts at (not even one nanosecond off) passes
    unchanged; under a skip at exactly its start it is removed; under an
    override at exactly its start its start, end, title and notes are
    replaced by the fields the override has, the others kept, and the result
    is kept if and only if its interval still meets the window. *)
Theorem applyRecurringExceptions_merges
  (occs : list RecurringOccurrence.t) (exs : list RecurringException.t)
  (windowStart windowEnd : Time) :
  Forall (fun o => spec.inRange (RecurringOccurrence.StartTime o)) occs ->
  Forall (fun e => spec.inRange (RecurringException.OccurrenceStart e)) exs ->
  applyRecurringExceptions occs exs windowStart windowEnd
    = spec.mergeExceptions exs windowStart windowEnd occs
  /\ (forall o,
        (forall e, In e exs ->
           RecurringException.OccurrenceStart e <> RecurringOccurrence.StartTime o) ->
        spec.mergeOne exs windowStart windowEnd o = [o])
  /\ (forall o e,
        spec.applicable exs o = Some e ->
        In e exs /\
        RecurringException.OccurrenceStart e = RecurringOccurrence.StartTime o /\
        spec.mergeOne exs windowStart windowEnd o =
          match RecurringException.Kind e with
          | RecurringExceptionKindSkip => []
          | RecurringExceptionKindOverride =>
              if (RecurringOccurrence.StartTime (spec.overridden e o) <? windowEnd)
                 && (windowStart <? RecurringOccurrence.EndTime (spec.overridden e o))
              then [spec.overridden e o] else []
          end).
Proof.
  intros Hoccs Hexs. split; [|split].
  - unfold applyRecurringExceptions, spec.mergeExceptions.
    destruct exs as [|e0 exs'].
    + cbn. symmetry. apply flat_map_singleton.
    + cbn [length Nat.eqb]. rewrite foldl_applyException. cbn [app].
      apply flat_map_ext_Forall.
      eapply Forall_impl; [exact Hoccs|]. intros o Ho. cbn beta.
      by apply applyException_mergeOne.
  - intros o Hno. unfold spec.mergeOne, spec.applicable.
    rewrite find_none_Forall; [reflexivity|].
    apply Forall_rev, List.Forall_forall. intros e He.
    unfold Equal. apply Z.eqb_neq. by apply Hno.
  - intros o e Happ. unfold spec.applicable in Happ.
    apply List.find_some in Happ as Hin. destruct Hin as [Hin Heq].
    apply List.in_rev in Hin. unfold Equal in Heq. apply Z.eqb_eq in Heq.
    split; [done|]. split; [done|].
    unfold spec.mergeOne, spec.applicable. rewrite Happ. reflexivity.
Qed.

Lemma applyException_In m ws we o o' :
  In o' (applyException m ws we [] o) ->
  RecurringOccurrence.ID o' = RecurringOccurrence.ID o
  /\ RecurringOccurrence.SeriesID o' = RecurringOccurrence.SeriesID o
  /\ RecurringOccurrence.UserID o' = RecurringOccurrence.UserID o
  /\ (RecurringOccurrence.StartTime o' = RecurringOccurrence.StartTime o
      \/ exists ex,
           m !! UnixNano (UTC (RecurringOccurrence.StartTime o)) = Some ex
           /\ RecurringException.Kind ex = RecurringExceptionKindOverride
           /\ RecurringException.OverrideStart ex
              = Some (RecurringOccurrence.StartTime o')).
Proof.
  unfold applyException.
  destruct (m !! _) as [ex|] eqn:Hm.
  - destruct (RecurringException.Kind ex) eqn:Hk; [intros []|].
    destruct (_ && _); [|intros []].
    intros [<-|[]]. cbn. repeat split.
    destruct (RecurringException.OverrideStart ex) as [t|] eqn:Hs; [|by left].
    right. exists ex. by rewrite Hs.
  - intros [<-|[]]. repeat split. by left.
Qed.

Lemma indexExceptions_In exs k ex :
  indexExceptions exs !! k = Some ex -> In ex exs.
Proof.
  rewrite indexExceptions_lookup. intros H.
  apply List.find_some in H as [H _]. by apply List.in_rev.
Qed.

(** C9.  Every occurrence [applyRecurringExceptions] returns carries the id
    (and the series and user) of the input occurrence it comes from; its
    start differs from that occurrence's only through an override that
    sets it.  So when the input occurrence has the id the engine gives it
    (the decimal nanoseconds of its start) and an override moved the start,
    the returned id is not the decimal nanosecond string of the reported
    start (the instants taken in the range of [UnixNano]). *)
Theorem override_keeps_original_occurrence_id
  (occs : list RecurringOccurrence.t) (exs : list RecurringException.t)
  (windowStart windowEnd : Time) (o' : RecurringOccurrence.t) :
  In o' (applyRecurringExceptions occs exs windowStart windowEnd) ->
  exists o,
    In o occs
    /\ RecurringOccurrence.ID o' = RecurringOccurrence.ID o
    /\ RecurringOccurrence.SeriesID o' = RecurringOccurrence.SeriesID o
    /\ RecurringOccurrence.UserID o' = RecurringOccurrence.UserID o
    /\ (RecurringOccurrence.StartTime o' <> RecurringOccurrence.StartTime o ->
        exists ex,
          In ex exs
          /\ RecurringException.Kind ex = RecurringExceptionKindOverride
          /\ RecurringException.OverrideStart ex
             = Some (RecurringOccurrence.StartTime o'))
    /\ (RecurringOccurrence.ID o
          = GoStrings.FormatInt (UnixNano (RecurringOccurrence.StartTime o)) ->
        spec.inRange (RecurringOccurrence.StartTime o) ->
        spec.inRange (RecurringOccurrence.StartTime o') ->
        RecurringOccurrence.StartTime o' <> RecurringOccurrence.StartTime o ->
        RecurringOccurrence.ID o'
          <> GoStrings.FormatInt (UnixNano (RecurringOccurrence.StartTime o'))).
Proof.
  unfold applyRecurringExceptions.
  assert (Hkey : forall o, In o occs ->
            RecurringOccurrence.ID o' = RecurringOccurrence.ID o ->
            RecurringOccurrence.ID o
              = GoStrings.FormatInt (UnixNano (RecurringOccurrence.StartTime o)) ->
            spec.inRange (RecurringOccurrence.StartTime o) ->
            spec.inRange (RecurringOccurrence.StartTime o') ->
            RecurringOccurrence.StartTime o' <> RecurringOccurrence.StartTime o ->
            RecurringOccurrence.ID o'
              <> GoStrings.FormatInt (UnixNano (RecurringOccurrence.StartTime o'))).
  { intros o _ Hid Hgen Hr Hr' Hne Heq.
    rewrite Hid, Hgen in Heq. apply FormatInt_inj in Heq.
    unfold UnixNano in Heq. rewrite !wrap64_inRange in Heq by done. congruence. }
  destruct exs as [|e0 exs'].
  - cbn. intros Hin. exists o'. repeat split; try done.
  - cbn [length Nat.eqb]. rewrite foldl_applyException. cbn [app].
    intros Hin. apply List.in_flat_map in Hin as (o & Ho & Hin).
    apply applyException_In in Hin as (Hid & Hs & Hu & Hstart).
    exists o. repeat split; try done.
    + intros Hne. destruct Hstart as [?|(ex & Hm & Hk & Hos)]; [done|].
      exists ex. split; [|done]. by eapply indexExceptions_In.
    + by apply Hkey.
Qed.

End Merger.

Lemma applyRecurringExceptions_merges_witness :
  postgres.applyRecurringExceptions samples.occs [samples.overrideFirst]
    samples.windowStart samples.windowEnd
  = spec.mergeExceptions [samples.overrideFirst]
      samples.windowStart samples.windowEnd samples.occs
  /\ spec.mergeExceptions [samples.overrideFirst]
       samples.windowStart samples.windowEnd samples.occs
     = [ samples.movedFirst;
         samples.occurrenceAt "t2" "n2" (GoTime.Add samples.baseTime (2 * GoTime.Hour_d)) ].
Proof.
  split; [|vm_compute; reflexivity].
  apply (applyRecurringExceptions_merges samples.occs [samples.overrideFirst]
           samples.windowStart samples.windowEnd).
  - repeat constructor; vm_compute; discriminate.
  - repeat constructor; vm_compute; discriminate.
Defined.

Lemma override_keeps_original_occurrence_id_witness :
  In samples.movedFirst
    (postgres.applyRecurringExceptions samples.occs [samples.overrideFirst]
       samples.windowStart samples.windowEnd)
  /\ domain.RecurringOccurrence.ID samples.movedFirst
     <> GoStrings.FormatInt
          (GoTime.UnixNano (domain.RecurringOccurrence.StartTime samples.movedFirst)).
Proof.
  assert (Hin : In samples.movedFirst
            (postgres.applyRecurringExceptions samples.occs [samples.overrideFirst]
               samples.windowStart samples.windowEnd)).
  { vm_compute. left. reflexivity. }
  split; [exact Hin|].
  destruct (override_keeps_original_occurrence_id _ _ _ _ _ Hin)
    as (o & Ho & _ & _ & _ & _ & Hne).
  destruct Ho as [<-|[<-|[]]]; apply Hne;
    solve [ reflexivity | vm_compute; split; discriminate | vm_compute; discriminate ].
Defined.

(** ** The store's [CreateAppointment] *)

Section CreateAppointment.
Import GoTime domain postgres createSpec.

Implicit Types (a appt row : Appointment.t) (db : DB) (env : HookEnv).

Lemma eqb_string_decide (s t : string) : String.eqb s t = bool_decide (s = t).
Proof.
  destruct (String.eqb_spec s t); symmetry;
    [by apply bool_decide_eq_true|by apply bool_decide_eq_false].
Qed.

Lemma existsb_find_none {A} (f : A -> bool) (l : list A) :
  existsb f l = false -> List.find f l = None.
Proof.
  induction l as [|x l IH]; cbn; [done|].
  destruct (f x); [done|]. exact IH.
Qed.

Lemma find_some_existsb {A} (f : A -> bool) (l : list A) x :
  List.find f l = Some x -> existsb f l = true.
Proof.
  intros H. apply List.find_some in H as [Hin Hf].
  apply existsb_exists. eauto.
Qed.

Lemma find_app_none {A} (f : A -> bool) (l k : list A) :
  List.find f l = None -> List.find f (l ++ k) = List.find f k.
Proof.
  induction l as [|x l IH]; cbn; [done|].
  destruct (f x); [done|]. exact IH.
Qed.

Lemma hook_copy env appt :
  Appointment_BeforeAppendModel env
    (Appointment.mk (Appointment.ID appt) (Appointment.UserID appt)
       (Appointment.Title appt) (Appointment.Notes appt)
       (Appointment.StartTime appt) (Appointment.EndTime appt)
       (Appointment.CreatedAt appt) (Appointment.UpdatedAt appt))
  = Appointment_BeforeAppendModel env appt.
Proof. by destruct appt. Qed.

Lemma insertAppointment_inl db m db' :
  insertAppointment db m = inl db' ->
  appointments db' = appointments db ++ [m]
  /\ recurring_series db' = recurring_series db
  /\ recurring_exceptions db' = recurring_exceptions db
  /\ selectAppointmentByID db (Appointment.ID m) = None
  /\ Appointment.StartTime m < Appointment.EndTime m.
Proof.
  unfold insertAppointment, selectAppointmentByID.
  destruct (Appointment.StartTime m <? Appointment.EndTime m) eqn:Hlt; [|done].
  cbn [negb].
  destruct (existsb _ _) eqn:Hpk at 1; [done|].
  destruct (existsb _ _) eqn:Hex at 1; [done|].
  intros [= <-]. cbn. repeat split; try done.
  - by apply existsb_find_none.
  - lia.
Qed.

(** A fresh insert: what is stored and what is returned. *)
Lemma CreateAppointment_fresh env db appt db' :
  insertAppointment db (Appointment_BeforeAppendModel env appt) = inl db' ->
  CreateAppointment env db appt
  = (db', Ok (setAppointmentID appt
                (Appointment.ID (Appointment_BeforeAppendModel env appt)))).
Proof.
  intros H. unfold CreateAppointment. rewrite hook_copy, H. reflexivity.
Qed.

(** The insert of a row whose id is taken, when the row satisfies the
    check: the unique-id signal. *)
Lemma insertAppointment_taken db m row :
  selectAppointmentByID db (Appointment.ID m) = Some row ->
  Appointment.StartTime m < Appointment.EndTime m ->
  insertAppointment db m = inr ("23505", "appointments_pkey")%string.
Proof.
  unfold insertAppointment, selectAppointmentByID. intros Hf Hlt.
  apply find_some_existsb in Hf.
  destruct (Z.ltb_spec (Appointment.StartTime m) (Appointment.EndTime m)); [|lia].
  cbn [negb]. by rewrite Hf.
Qed.

(** The unique-id branch: the SELECT is refused, and the error of the
    INSERT comes back, whatever the stored row holds. *)
Lemma CreateAppointment_replay env db appt row :
  Appointment.ID appt <> uuid.Nil ->
  Appointment.StartTime appt < Appointment.EndTime appt ->
  selectAppointmentByID db (Appointment.ID appt) = Some row ->
  CreateAppointment env db appt
  = (db, Fail (PgError "23505" "appointments_pkey")).
Proof.
  intros Hid Hlt Hsel. unfold CreateAppointment. rewrite hook_copy.
  assert (Hm : Appointment.ID (Appointment_BeforeAppendModel env appt)
               = Appointment.ID appt).
  { unfold Appointment_BeforeAppendModel. cbn. by rewrite bool_decide_eq_false_2. }
  rewrite (insertAppointment_taken db _ row); [|by rewrite Hm|done].
  reflexivity.
Qed.

(** After a successful create of an appointment with a given id, the row
    found under that id agrees with the request on the compared fields, and
    the appointment returned carries the id and the same fields. *)
Lemma CreateAppointment_ok_row env db appt db1 a :
  Appointment.ID appt <> uuid.Nil ->
  CreateAppointment env db appt = (db1, Ok a) ->
  Appointment.ID a = Appointment.ID appt
  /\ samePayload a appt
  /\ exists row,
       selectAppointmentByID db1 (Appointment.ID appt) = Some row
       /\ samePayload row appt.
Proof.
  intros Hid. unfold CreateAppointment. rewrite hook_copy.
  assert (Hm : Appointment.ID (Appointment_BeforeAppendModel env appt)
               = Appointment.ID appt).
  { unfold Appointment_BeforeAppendModel. cbn. by rewrite bool_decide_eq_false_2. }
  destruct (insertAppointment db _) as [db'|[code cname]] eqn:Hins.
  - intros [= <- <-]. rewrite (bool_decide_eq_false_2 _ Hid).
    apply insertAppointment_inl in Hins as (Happ & _ & _ & Hnone & _).
    split; [reflexivity|]. split; [by repeat split|].
    exists (Appointment_BeforeAppendModel env appt).
    split; [|by repeat split].
    unfold selectAppointmentByID in *. rewrite Happ, <- Hm.
    rewrite find_app_none by done. cbn. by rewrite bool_decide_eq_true_2.
  - destruct (_ && _); [done|].
    destruct (String.eqb code "23505"); done.
Qed.

End CreateAppointment.

Section CreatedTimestamps.
Import GoTime domain postgres.



End CreatedTimestamps.

(** ** White space and trimming *)

Section Trim.
Import GoStrings.
Local Open Scope string_scope.

Lemma substring_0_length (s : string) : String.substring 0 (String.length s) s = s.
Proof. induction s as [|c s IH]; simpl; [done|]. by f_equal. Qed.

Lemma length_append (s t : string) :
  String.length (s ++ t) = (String.length s + String.length t)%nat.
Proof. induction s as [|c s IH]; simpl; [done|]. by f_equal. Qed.

Lemma dropBytes_append (e s : string) : dropBytes (String.length e) (e ++ s) = s.
Proof.
  unfold dropBytes. rewrite length_append.
  replace (String.length e + String.length s - String.length e)%nat
    with (String.length s) by lia.
  induction e as [|c e IH]; simpl; [apply substring_0_length|exact IH].
Qed.

Lemma leadingSpace_append (e s : string) :
  In e spaceEncodings ->
  leadingSpace (e ++ s) = String.length e /\ (1 <= String.length e)%nat.
Proof.
  intros He. unfold spaceEncodings in He. cbn in He.
  repeat (destruct He as [<-|He]; [split; [vm_compute; reflexivity|cbn; lia]|]).
  destruct He.
Qed.

(** One step of the left trim removes a leading white-space code point. *)
Lemma trimLeftFuel_step (e s : string) (fuel : nat) :
  In e spaceEncodings ->
  trimLeftFuel (S fuel) (e ++ s) = trimLeftFuel fuel s.
Proof.
  intros He. apply (leadingSpace_append e s) in He as [Hl Hpos].
  cbn [trimLeftFuel]. rewrite Hl.
  destruct (String.length e) as [|n] eqn:En; [lia|].
  rewrite <- En. by rewrite dropBytes_append.
Qed.

Lemma trimLeftFuel_allSpace (s : string) :
  createSpec.allSpace s ->
  forall fuel, (String.length s <= fuel)%nat -> trimLeftFuel fuel s = EmptyString.
Proof.
  induction 1 as [|e s He Hs IH]; intros fuel Hlen.
  - by destruct fuel.
  - rewrite length_append in Hlen.
    assert (1 <= String.length e)%nat by by apply (leadingSpace_append e s).
    destruct fuel as [|fuel]; [lia|].
    rewrite trimLeftFuel_step by done. apply IH. lia.
Qed.

Lemma TrimSpace_allSpace (s : string) :
  createSpec.allSpace s -> TrimSpace s = EmptyString.
Proof.
  intros Hs. unfold TrimSpace, TrimLeftSpace.
  rewrite trimLeftFuel_allSpace by done. reflexivity.
Qed.

End Trim.

(** ** The idempotent create protocol *)

Section Idempotency.
Import GoTime domain.

Variable sha1sum : list Z -> list Z.

Lemma NewSHA1_not_Nil (space : uuid.UUID) (data : list Z) :
  uuid.NewSHA1 sha1sum space data <> uuid.Nil.
Proof.
  unfold uuid.NewSHA1, uuid.Nil. intros H.
  set (u := take 16 (sha1sum (space ++ data) ++ replicate 16 0)) in *.
  assert (Hlen : length u = 16%nat).
  { subst u. rewrite length_take, length_app, length_replicate. lia. }
  apply (f_equal (fun l : list Z => l !! 6%nat)) in H. cbv beta in H.
  rewrite list_lookup_insert_ne in H by lia.
  rewrite list_lookup_insert_eq in H by lia.
  cbn in H. injection H as H.
  apply Z.lor_eq_0_iff in H as [_ H]. discriminate H.
Qed.

(** [prepareCreate] in terms of the request without the key: the key is
    trimmed first, an empty trimmed key changes nothing, and the length
    limit and the derived id only see the trimmed key. *)
Lemma prepareCreate_keyless (in_ : appointments.CreateInput) :
  let key := GoStrings.TrimSpace (appointments.IdempotencyKey in_) in
  appointments.prepareCreate sha1sum in_
  = match appointments.prepareCreate sha1sum (createSpec.keyless in_) with
    | Fail e => Fail e
    | Ok a0 =>
        if String.eqb key EmptyString then Ok a0
        else if 256 <? GoStrings.len key
        then appointments.validationError "idempotency_key too long"
        else Ok (postgres.setAppointmentID a0
                   (appointments.idempotentID sha1sum (appointments.UserID in_) key))
    end.
Proof.
  unfold appointments.prepareCreate, createSpec.keyless.
  cbn [appointments.UserID appointments.Title appointments.Notes
       appointments.StartTime appointments.EndTime appointments.IdempotencyKey].
  change (GoStrings.TrimSpace EmptyString) with EmptyString.
  cbn [String.eqb negb].
  destruct (String.eqb (GoStrings.TrimSpace (appointments.Title in_)) EmptyString);
    [reflexivity|].
  destruct (String.eqb (appointments.UserID in_) EmptyString); [reflexivity|].
  destruct (_ || _); [reflexivity|].
  destruct (_ <? _); [reflexivity|].
  destruct (String.eqb (GoStrings.TrimSpace (appointments.IdempotencyKey in_)) EmptyString);
    [reflexivity|]. cbn [negb].
  destruct (256 <? _); reflexivity.
Qed.

Lemma prepareCreate_keyless_inv (in_ : appointments.CreateInput) (a0 : Appointment.t) :
  appointments.prepareCreate sha1sum (createSpec.keyless in_) = Ok a0 ->
  a0 = Appointment.mk uuid.Nil (appointments.UserID in_)
         (GoStrings.TrimSpace (appointments.Title in_)) (appointments.Notes in_)
         (appointments.StartTime in_) (appointments.EndTime in_) zeroTime zeroTime
  /\ appointments.StartTime in_ < appointments.EndTime in_.
Proof.
  unfold appointments.prepareCreate, createSpec.keyless.
  cbn [appointments.UserID appointments.Title appointments.Notes
       appointments.StartTime appointments.EndTime appointments.IdempotencyKey].
  change (GoStrings.TrimSpace EmptyString) with EmptyString.
  cbn [String.eqb negb].
  destruct (String.eqb (GoStrings.TrimSpace _) EmptyString); [done|].
  destruct (String.eqb (appointments.UserID in_) EmptyString); [done|].
  unfold Equal, Before, UTC.
  destruct (Z.eqb_spec (appointments.EndTime in_) (appointments.StartTime in_));
    [done|].
  destruct (Z.ltb_spec (appointments.EndTime in_) (appointments.StartTime in_));
    [done|]. cbn [orb].
  destruct (_ <? _); [done|].
  intros [= <-]. split; [reflexivity|lia].
Qed.

(** C10.  The idempotency key is trimmed before anything else is done with
    it.  A request whose key is white space only is handled as the request
    without a key: no id is derived, the appointment goes to the store with
    the nil id and the insert hook gives it the fresh UUIDv7.  The limit of
    256 bytes bears on the trimmed key: when the trimmed key is not empty
    and at most 256 bytes long the request is accepted with the id derived
    from the trimmed key, whatever the length of the raw key; when the
    trimmed key is longer it is rejected. *)
Theorem idempotency_key_is_trimmed_first
  (S : Type) (repo : store.AppointmentRepository S) (st : S)
  (in_ : appointments.CreateInput) :
  let key := GoStrings.TrimSpace (appointments.IdempotencyKey in_) in
  (createSpec.allSpace (appointments.IdempotencyKey in_) ->
     appointments.Create S repo sha1sum st in_
       = appointments.Create S repo sha1sum st (createSpec.keyless in_)
     /\ forall appt,
          appointments.prepareCreate sha1sum in_ = Ok appt ->
          Appointment.ID appt = uuid.Nil
          /\ forall env,
               Appointment.ID (Appointment_BeforeAppendModel env appt) = newV7 env)
  /\ (key <> EmptyString -> GoStrings.len key <= 256 ->
      forall a0,
        appointments.prepareCreate sha1sum (createSpec.keyless in_) = Ok a0 ->
        appointments.prepareCreate sha1sum in_
          = Ok (postgres.setAppointmentID a0
                  (appointments.idempotentID sha1sum (appointments.UserID in_) key))
        /\ appointments.Create S repo sha1sum st in_
           = store.Create repo st
               (postgres.setAppointmentID a0
                  (appointments.idempotentID sha1sum (appointments.UserID in_) key)))
  /\ (256 < GoStrings.len key ->
      forall a0,
        appointments.prepareCreate sha1sum (createSpec.keyless in_) = Ok a0 ->
        appointments.Create S repo sha1sum st in_
          = (st, Fail (ValidationError "idempotency_key too long"))).
Proof.
  intros key. pose proof (prepareCreate_keyless in_) as Hk. cbn zeta in Hk.
  fold key in Hk. split; [|split].
  - intros Hsp. apply TrimSpace_allSpace in Hsp. fold key in Hsp.
    rewrite Hsp in Hk. cbn [String.eqb] in Hk.
    assert (Hsame : appointments.prepareCreate sha1sum in_
                    = appointments.prepareCreate sha1sum (createSpec.keyless in_)).
    { rewrite Hk. by destruct (appointments.prepareCreate sha1sum (createSpec.keyless in_)). }
    split; [unfold appointments.Create; by rewrite Hsame|].
    intros appt Happt. rewrite Hsame in Happt.
    apply prepareCreate_keyless_inv in Happt as [-> _].
    split; [reflexivity|]. intros env. reflexivity.
  - intros Hne Hlen a0 Ha0. rewrite Ha0 in Hk.
    destruct (String.eqb_spec key EmptyString); [done|].
    destruct (Z.ltb_spec 256 (GoStrings.len key)); [lia|].
    split; [exact Hk|]. unfold appointments.Create. by rewrite Hk.
  - intros Hlen a0 Ha0. rewrite Ha0 in Hk.
    destruct (String.eqb_spec key EmptyString) as [He|_].
    { rewrite He in Hlen. discriminate Hlen. }
    destruct (Z.ltb_spec 256 (GoStrings.len key)); [|lia].
    unfold appointments.Create. by rewrite Hk.
Qed.

End Idempotency.

Lemma idempotency_key_is_trimmed_first_witness :
  GoStrings.len createSpec.paddedKey = 302
  /\ appointments.prepareCreate createSpec.sampleDigest
       (createSpec.requestWithKey "t" createSpec.paddedKey)
     = Ok (postgres.setAppointmentID createSamples.A1
             (appointments.idempotentID createSpec.sampleDigest "u1" "k1"))
  /\ appointments.prepareCreate createSpec.sampleDigest
       (createSpec.requestWithKey "t" "   ")
     = Ok createSamples.A1.
Proof.
  split; [reflexivity|].
  destruct (idempotency_key_is_trimmed_first createSpec.sampleDigest
              unit (store.mkRepository unit (fun st a => (st, Ok a))
                      (fun st s => (st, Ok s)) (fun _ _ _ _ => Ok []))
              tt (createSpec.requestWithKey "t" createSpec.paddedKey))
    as (_ & Hlong & _).
  destruct (Hlong ltac:(vm_compute; discriminate) ltac:(vm_compute; discriminate)
              createSamples.A1 ltac:(vm_compute; reflexivity)) as [Hp _].
  split; [exact Hp|].
  destruct (idempotency_key_is_trimmed_first createSpec.sampleDigest
              unit (store.mkRepository unit (fun st a => (st, Ok a))
                      (fun st s => (st, Ok s)) (fun _ _ _ _ => Ok []))
              tt (createSpec.requestWithKey "t" "   "))
    as (Hspace & _ & _).
  assert (Hall : createSpec.allSpace "   ").
  { apply (createSpec.allSpace_cons " " "  "); [vm_compute; tauto|].
    apply (createSpec.allSpace_cons " " " "); [vm_compute; tauto|].
    apply (createSpec.allSpace_cons " " EmptyString); [vm_compute; tauto|].
    constructor. }
  destruct (Hspace Hall) as [Hc _].
  unfold appointments.Create in Hc.
  change (appointments.prepareCreate createSpec.sampleDigest
            (createSpec.keyless (createSpec.requestWithKey "t" "   ")))
    with (@Ok domain.Appointment.t createSamples.A1) in Hc.
  cbv beta iota in Hc.
  destruct (appointments.prepareCreate createSpec.sampleDigest
              (createSpec.requestWithKey "t" "   ")) as [a|e];
    cbn in Hc; congruence.
Defined.

Section Replay.
Import GoTime domain postgres createSpec.

Variable sha1sum : list Z -> list Z.
Variable tzdb : string -> option Location.

Lemma samePayload_sym (a b : Appointment.t) : samePayload a b -> samePayload b a.
Proof. unfold samePayload. intuition congruence. Qed.

Lemma samePayload_trans (a b c : Appointment.t) :
  samePayload a b -> samePayload b c -> samePayload a c.
Proof. unfold samePayload. intuition congruence. Qed.

Lemma repo_Create_ok (env : HookEnv) (db db1 : DB) (appt a : Appointment.t) :
  postgres.Create env db appt = (db1, Ok a) ->
  CreateAppointment env db appt = (db1, Ok a).
Proof.
  unfold postgres.Create.
  destruct (CreateAppointment env db appt) as [db' [a'|e]]; congruence.
Qed.

(** What a request with a non-empty trimmed key passes to the store. *)
Lemma prepareCreate_keyed (in_ : appointments.CreateInput) (appt : Appointment.t) :
  GoStrings.TrimSpace (appointments.IdempotencyKey in_) <> EmptyString ->
  appointments.prepareCreate sha1sum in_ = Ok appt ->
  Appointment.ID appt
    = appointments.idempotentID sha1sum (appointments.UserID in_)
        (GoStrings.TrimSpace (appointments.IdempotencyKey in_))
  /\ Appointment.ID appt <> uuid.Nil
  /\ Appointment.StartTime appt < Appointment.EndTime appt.
Proof.
  intros Hkey. rewrite prepareCreate_keyless.
  destruct (appointments.prepareCreate sha1sum (keyless in_)) as [a0|] eqn:Ha0; [|done].
  apply prepareCreate_keyless_inv in Ha0 as [-> Hlt].
  destruct (String.eqb_spec (GoStrings.TrimSpace (appointments.IdempotencyKey in_))
              EmptyString); [done|].
  destruct (256 <? _); [done|].
  intros [= <-]. cbn. split; [reflexivity|]. split; [|exact Hlt].
  apply NewSHA1_not_Nil.
Qed.

(** Two create requests of the same user with the same idempotency key
    derive the same id, the name-based UUID of
    [schedula:create_appointment:<user>:<key>].  Once the first has
    succeeded, the INSERT of the second meets the unique-id signal; the
    SELECT that is to load the stored row is sent on the failed
    transaction and refused, so the second request gets the error of the
    INSERT, whether its payload agrees with the stored row or not, and the
    database stays as it is. *)
Lemma replay_meets_the_failed_transaction
  (env1 env2 : HookEnv) (db db1 : DB)
  (in1 in2 : appointments.CreateInput) (a1 : Appointment.t) :
  let svc := fun env => appointments.Create DB (AppointmentRepo tzdb env) sha1sum in
  let key := GoStrings.TrimSpace (appointments.IdempotencyKey in1) in
  key <> EmptyString ->
  appointments.UserID in2 = appointments.UserID in1 ->
  appointments.IdempotencyKey in2 = appointments.IdempotencyKey in1 ->
  svc env1 db in1 = (db1, Ok a1) ->
  Appointment.ID a1
    = uuid.NewSHA1 sha1sum uuid.NameSpaceOID
        (uuid.bytesOf ("schedula:create_appointment:"
                       ++ appointments.UserID in1 ++ ":" ++ key))
  /\ forall appt2,
       appointments.prepareCreate sha1sum in2 = Ok appt2 ->
       Appointment.ID appt2 = Appointment.ID a1
       /\ (exists row,
             In row (appointments db1)
             /\ Appointment.ID row = Appointment.ID a1
             /\ samePayload row a1)
       /\ svc env2 db1 in2 = (db1, Fail (PgError "23505" "appointments_pkey")).
Proof.
  intros svc key Hkey Huser Hk. subst svc. unfold appointments.Create.
  destruct (appointments.prepareCreate sha1sum in1) as [appt1|] eqn:Hp1; [|done].
  cbn [store.Create AppointmentRepo]. intros Hc1. apply repo_Create_ok in Hc1.
  destruct (prepareCreate_keyed in1 appt1 Hkey Hp1) as (Hid1 & Hnil1 & _).
  destruct (CreateAppointment_ok_row env1 db appt1 db1 a1 Hnil1 Hc1)
    as (Hida & Hpa & row & Hsel & Hprow).
  assert (Hidrow : Appointment.ID row = Appointment.ID appt1).
  { unfold selectAppointmentByID in Hsel. apply List.find_some in Hsel as [_ Hs].
    by apply bool_decide_eq_true_1 in Hs. }
  split; [by rewrite Hida, Hid1|].
  intros appt2 Hp2. rewrite Hp2.
  assert (Hkey2 : GoStrings.TrimSpace (appointments.IdempotencyKey in2) <> EmptyString)
    by by rewrite Hk.
  destruct (prepareCreate_keyed in2 appt2 Hkey2 Hp2) as (Hid2 & Hnil2 & Hlt2).
  rewrite Huser, Hk in Hid2. fold key in Hid2, Hid1.
  assert (Hsame : Appointment.ID appt2 = Appointment.ID appt1) by congruence.
  split; [congruence|].
  split.
  { exists row. rewrite Hida.
    split. { unfold selectAppointmentByID in Hsel. by apply List.find_some in Hsel as [? _]. }
    split; [done|].
    eapply samePayload_trans; [exact Hprow|]. by apply samePayload_sym. }
  rewrite <- Hsame in Hsel.
  pose proof (CreateAppointment_replay env2 db1 appt2 row Hnil2 Hlt2 Hsel) as Hr.
  unfold postgres.Create. by rewrite Hr.
Qed.

End Replay.

(** C2.  The replay of a created appointment does not return the stored
    row.  The request of user u1 with key k1 for 2026-01-01, 10:00 to 11:00
    UTC, creates the row under the id derived from user and key; the same
    request sent again creates no second row, but it is answered with the
    error of the INSERT (SQLSTATE 23505 on [appointments_pkey]) instead of
    the stored row, and a request with the same key and another title gets
    that error too, instead of [ErrIdempotencyConflict]. *)
Theorem replay_of_created_appointment_returns_the_insert_error :
  let svc := fun env =>
    appointments.Create postgres.DB (postgres.AppointmentRepo tzdata.tzdb env)
      createSpec.sampleDigest in
  let id := appointments.idempotentID createSpec.sampleDigest "u1" "k1" in
  let a1 := postgres.setAppointmentID createSamples.A1 id in
  let db1 := postgres.mkDB
               [domain.Appointment_BeforeAppendModel createSamples.env1 a1] [] [] in
  svc createSamples.env1 postgres.emptyDB (createSpec.requestWithKey "t" "k1")
    = (db1, Ok a1)
  /\ svc createSamples.env2 db1 (createSpec.requestWithKey "t" "k1")
     = (db1, Fail (PgError "23505" "appointments_pkey"))
  /\ svc createSamples.env2 db1 (createSpec.requestWithKey "different" "k1")
     = (db1, Fail (PgError "23505" "appointments_pkey")).
Proof.
  intros svc id a1 db1.
  assert (H1 : svc createSamples.env1 postgres.emptyDB
                 (createSpec.requestWithKey "t" "k1") = (db1, Ok a1))
    by (vm_compute; reflexivity).
  split; [exact H1|].
  assert (Hkey : GoStrings.TrimSpace
                   (appointments.IdempotencyKey (createSpec.requestWithKey "t" "k1"))
                 <> EmptyString) by (vm_compute; discriminate).
  split.
  - destruct (replay_meets_the_failed_transaction createSpec.sampleDigest tzdata.tzdb
                createSamples.env1 createSamples.env2 postgres.emptyDB db1
                (createSpec.requestWithKey "t" "k1")
                (createSpec.requestWithKey "t" "k1") a1
                Hkey eq_refl eq_refl H1) as [_ H2].
    destruct (H2 a1 ltac:(vm_compute; reflexivity)) as (_ & _ & Hr). exact Hr.
  - destruct (replay_meets_the_failed_transaction createSpec.sampleDigest tzdata.tzdb
                createSamples.env1 createSamples.env2 postgres.emptyDB db1
                (createSpec.requestWithKey "t" "k1")
                (createSpec.requestWithKey "different" "k1") a1
                Hkey eq_refl eq_refl H1) as [_ H2].
    destruct (H2 (postgres.setAppointmentID
                       (domain.Appointment.mk uuid.Nil "u1" "different" EmptyString
                          (GoTime.utcDate 2026 1 1 10 0 0) (GoTime.utcDate 2026 1 1 11 0 0)
                          GoTime.zeroTime GoTime.zeroTime) id)
                   ltac:(vm_compute; reflexivity)) as (_ & _ & Hr).
    exact Hr.
Qed.

(** ** The horizon checks of [CreateRecurringSeries] *)

Section Horizon.
Import GoTime domain.

Variable S : Type.
Variable repo : store.AppointmentRepository S.
Variable tzdb : string -> option Location.



End Horizon.


(** ** The recurrence engine: what is emitted *)

Section Engine.
Import GoTime domain.

Variable series : RecurringSeries.t.
Variables windowStart windowEnd : Time.
Variable loc : Location.
Variable weekdays : list Z.

Local Abbreviation emitted := (engineSpec.emitted series windowStart windowEnd loc).

Lemma weekdaysLoop_emitted (weekStart : Time) (weekIndex : Z) (wds : list Z)
  (weekdayIndex : Z) (out : list RecurringOccurrence.t) :
  exists extra,
    outOf (weekdaysLoop series windowStart windowEnd loc weekdays
             weekStart weekIndex wds weekdayIndex out) = out ++ extra
    /\ Forall emitted extra.
Proof.
  revert weekdayIndex out.
  induction wds as [|wd wds IH]; intros weekdayIndex out; cbn [weekdaysLoop].
  - exists []. by rewrite app_nil_r.
  - set (start := candidateOfWeek series loc weekStart wd).
    unfold Before at 1, dtstartUTC, UTC.
    destruct (Z.ltb_spec start (RecurringSeries.DTStart series)) as [|Hge];
      [apply IH|].
    destruct (match RecurringSeries.Until series with
              | Some u => After start u | None => false end) eqn:Hu.
    { exists []. by rewrite app_nil_r. }
    destruct (_ && _) eqn:Hc at 1.
    { exists []. by rewrite app_nil_r. }
    destruct (Before start windowEnd && After (Add start (duration series)) windowStart)
      eqn:Hw.
    + destruct (IH (weekdayIndex + 1)
                  (out ++ [makeOccurrence series start (Add start (duration series))]))
        as (extra & -> & Hex).
      exists (makeOccurrence series start (Add start (duration series)) :: extra).
      split; [by rewrite <- app_assoc|].
      constructor; [|done].
      exists (dayOf UTCLoc (AddDateDays weekStart (weekdayOffsetFromMonday wd))).
      unfold engineSpec.occurrenceOn. cbv zeta.
      fold (dtstartLocal series).
      change (Date loc _ _ _ _ _) with start.
      apply andb_prop in Hw as [Hw1 Hw2]. unfold Before, After, Add in *.
      apply Z.ltb_lt in Hw1, Hw2.
      repeat split; try done.
      intros u Hsome. rewrite Hsome in Hu. unfold After in Hu.
      apply Z.ltb_ge in Hu. exact Hu.
    + apply IH.
Qed.

Lemma weeksLoop_emitted (fuel : nat) (weekIndex : Z)
  (out out' : list RecurringOccurrence.t) :
  weeksLoop series windowStart windowEnd loc weekdays fuel weekIndex out = Some out' ->
  exists extra, out' = out ++ extra /\ Forall emitted extra.
Proof.
  revert weekIndex out. induction fuel as [|fuel IH]; intros weekIndex out; [done|].
  cbn [weeksLoop].
  destruct (negb _).
  { intros [= <-]. exists []. by rewrite app_nil_r. }
  pose proof (weekdaysLoop_emitted
                (AddDateDays (startWeekMondayUTC series loc)
                   (weekIndex * interval series * 7))
                weekIndex weekdays 0 out) as (extra & Hout & Hex).
  destruct (weekdaysLoop _ _ _ _ _ _ _ _ _ _) as [o1|o1]; cbn in Hout; subst o1.
  - intros H. apply IH in H as (extra' & -> & Hex').
    exists (extra ++ extra'). split; [by rewrite app_assoc|].
    by apply Forall_app.
  - intros [= <-]. by exists extra.
Qed.

End Engine.

Section EngineResult.
Import GoTime domain.

Variable tzdb : string -> option Location.

(** Every occurrence the engine returns is the occurrence of the series on
    some date. *)
Lemma GenerateWeeklyOccurrences_emitted (series : RecurringSeries.t)
  (windowStart windowEnd : Time) (occs : list RecurringOccurrence.t) :
  GenerateWeeklyOccurrences tzdb series windowStart windowEnd = Ok occs ->
  exists loc,
    tzdb (RecurringSeries.Timezone series) = Some loc
    /\ 0 < RecurringSeries.DurationSeconds series
    /\ Forall (engineSpec.emitted series windowStart windowEnd loc) occs.
Proof.
  unfold GenerateWeeklyOccurrences, LoadLocation.
  destruct (negb _); [done|].
  destruct (Z.leb_spec (RecurringSeries.DurationSeconds series) 0); [done|].
  destruct (tzdb _) as [loc|]; [|done].
  destruct (dedupWeekdays _ _) as [wds|]; [|done].
  destruct (_ =? _)%nat; [done|].
  destruct (weeksLoop _ _ _ _ _ _ _ _) as [out|] eqn:Hloop; [|done].
  intros [= <-]. exists loc. split; [done|]. split; [done|].
  apply weeksLoop_emitted in Hloop as (extra & -> & Hex). exact Hex.
Qed.

(** The errors of the engine are plain errors. *)
Lemma GenerateWeeklyOccurrences_error (series : RecurringSeries.t)
  (windowStart windowEnd : Time) (e : error) :
  GenerateWeeklyOccurrences tzdb series windowStart windowEnd = Fail e ->
  exists msg, e = ErrorString msg.
Proof.
  unfold GenerateWeeklyOccurrences, errLoopBound.
  repeat match goal with
         | |- (if ?b then _ else _) = Fail _ -> _ => destruct b
         | |- match ?x with _ => _ end = Fail _ -> _ => destruct x
         end; intros [= <-]; eauto.
Qed.

End EngineResult.

(** ** The conflict check of a new series *)

Section ConflictCheck.
Import GoTime domain postgres conflictSpec.

Variable tzdb : string -> option Location.
Variable db : DB.

Lemma consecutiveOverlap_spec (l : list RecurringOccurrence.t) :
  consecutiveOverlap l = true <-> selfOverlap l.
Proof.
  unfold selfOverlap.
  induction l as [|a [|b rest] IH].
  - cbn. split; [done|]. intros (i & x & y & H & _). by destruct i.
  - cbn. split; [done|]. intros (i & x & y & _ & H & _). by destruct i.
  - cbn [consecutiveOverlap]. unfold After at 1.
    destruct (Z.ltb_spec (RecurringOccurrence.StartTime b) (RecurringOccurrence.EndTime a))
      as [Hlt|Hge].
    + split; [|done]. intros _. by exists 0%nat, a, b.
    + rewrite IH. split.
      * intros (i & x & y & Hx & Hy & Hlt). by exists (Datatypes.S i), x, y.
      * intros (i & x & y & Hx & Hy & Hlt). destruct i as [|i].
        -- cbn in Hx, Hy. injection Hx as <-. injection Hy as <-. lia.
        -- by exists i, x, y.
Qed.

Lemma overlapsSpan_spec (n : RecurringOccurrence.t) (e : timeSpan) :
  overlapsSpan n e = true <-> overlaps n e.
Proof.
  unfold overlapsSpan, overlaps, Before, After, UTC.
  rewrite andb_true_iff, !Z.ltb_lt. reflexivity.
Qed.

Lemma anyConflict_spec (newOccs : list RecurringOccurrence.t)
  (existing : list timeSpan) :
  anyConflict newOccs existing = true
  <-> exists n e, In n newOccs /\ In e existing /\ overlaps n e.
Proof.
  unfold anyConflict. rewrite existsb_exists. split.
  - intros (n & Hn & He). apply existsb_exists in He as (e & He & Ho).
    exists n, e. by rewrite <- overlapsSpan_spec.
  - intros (n & e & Hn & He & Ho). exists n. split; [done|].
    apply existsb_exists. exists e. by rewrite overlapsSpan_spec.
Qed.

Lemma applyRecurringExceptions_nil (exs : list RecurringException.t) (ws we : Time) :
  applyRecurringExceptions [] exs ws we = [].
Proof. unfold applyRecurringExceptions. by destruct (_ =? _)%nat. Qed.

Lemma appendSeriesSpans_ok (ws we : Time) (rows : list RecurringSeries.t)
  (existing : list timeSpan) :
  (forall s, In s rows -> exists occs, GenerateWeeklyOccurrences tzdb s ws we = Ok occs) ->
  appendSeriesSpans tzdb db ws we rows existing
  = Ok (existing ++ List.flat_map (seriesContribution tzdb db ws we) rows).
Proof.
  revert existing. induction rows as [|s rows IH]; intros existing Hrows.
  - cbn. by rewrite app_nil_r.
  - cbn [appendSeriesSpans List.flat_map]. unfold seriesContribution at 1.
    destruct (Hrows s (or_introl eq_refl)) as [occs Hocc]. rewrite Hocc.
    destruct occs as [|o occs].
    + cbn [length Nat.eqb]. rewrite applyRecurringExceptions_nil. cbn [List.map app].
      apply IH. intros s' Hs'. apply Hrows. by right.
    + cbn [length Nat.eqb]. rewrite IH.
      * by rewrite <- app_assoc.
      * intros s' Hs'. apply Hrows. by right.
Qed.

Lemma appendSeriesSpans_error (ws we : Time) (rows : list RecurringSeries.t)
  (existing : list timeSpan) (e : error) :
  appendSeriesSpans tzdb db ws we rows existing = Fail e -> e <> ErrConflict.
Proof.
  revert existing. induction rows as [|s rows IH]; intros existing; [done|].
  cbn [appendSeriesSpans].
  destruct (GenerateWeeklyOccurrences tzdb s ws we) as [occs|e'] eqn:Hg.
  - destruct (_ =? _)%nat; apply IH.
  - intros [= <-]. apply GenerateWeeklyOccurrences_error in Hg as [msg ->]. done.
Qed.

Lemma StronglySorted_last_max {A} (R : relation A) (l : list A) (x : A) :
  StronglySorted R (l ++ [x]) -> forall y, In y l -> R y x.
Proof.
  induction l as [|a l IH]; [done|]. cbn. intros Hs y Hy.
  apply StronglySorted_inv in Hs as [Hs Ha].
  destruct Hy as [<-|Hy]; [|by apply IH].
  apply Forall_app in Ha as [_ Ha]. by apply Forall_inv in Ha.
Qed.

Lemma lastEnd_snoc (l : list RecurringOccurrence.t) (o : RecurringOccurrence.t)
  (d : Time) : lastEnd (l ++ [o]) d = RecurringOccurrence.EndTime o.
Proof. unfold lastEnd. rewrite List.map_app. cbn. by rewrite List.last_last. Qed.

End ConflictCheck.

Section ConflictTheorem.
Import GoTime domain postgres conflictSpec.

Variable tzdb : string -> option Location.
Variable db : DB.
Variable series : RecurringSeries.t.

(** The new occurrences lie within the comparison window. *)
Lemma newOccurrences_within (n : RecurringOccurrence.t) :
  In n (newOccurrences tzdb series) ->
  comparisonStart series <= RecurringOccurrence.StartTime n
  /\ RecurringOccurrence.EndTime n <= comparisonEnd tzdb series.
Proof.
  unfold comparisonEnd, comparisonStart, newOccurrences, conflictWindowStart, UTC.
  destruct (GenerateWeeklyOccurrences tzdb series _ _) as [l|] eqn:Hg; [|done].
  intros Hn.
  apply GenerateWeeklyOccurrences_emitted in Hg as (loc & _ & _ & Hem).
  assert (Hfacts : forall o, In o (merge_sort byStartOccurrence l) ->
            RecurringSeries.DTStart series <= RecurringOccurrence.StartTime o
            /\ RecurringOccurrence.EndTime o
               = RecurringOccurrence.StartTime o + duration series).
  { intros o Ho. apply list_elem_of_In in Ho.
    rewrite merge_sort_Permutation in Ho. apply list_elem_of_In in Ho.
    rewrite List.Forall_forall in Hem. destruct (Hem o Ho) as (day & -> & Hge & _).
    cbn. split; [exact Hge|reflexivity]. }
  pose proof (StronglySorted_merge_sort byStartOccurrence l) as Hs.
  destruct (merge_sort byStartOccurrence l) as [|o0 l0] eqn:Hm; [done|].
  destruct (@exists_last _ (o0 :: l0) ltac:(done)) as (l' & olast & Hl).
  rewrite Hl in *. rewrite lastEnd_snoc.
  destruct (Hfacts n Hn) as [Hn1 Hn2].
  destruct (Hfacts olast ltac:(apply in_or_app; right; by left)) as [_ Ho2].
  split; [exact Hn1|]. rewrite Hn2, Ho2.
  apply in_app_or in Hn as [Hn|[<-|[]]]; [|lia].
  pose proof (StronglySorted_last_max _ _ _ Hs n Hn) as Hle.
  unfold byStartOccurrence in Hle. lia.
Qed.

(** Relative to the spans it records.  When the stored series of the user
    can be expanded, the conflict check of a new series fails with
    [ErrConflict] if and only if two consecutive occurrences of the new
    series within the horizon overlap (the earlier one ends after the later
    one starts) or some new occurrence [n] and some recorded span [e] - an
    appointment of the user, or an exception-adjusted occurrence that the
    engine emits for one of the user's stored series over the comparison
    window - satisfy [n.start < e.end] and [n.end > e.start].  Abutting
    intervals never count as overlapping. *)
Lemma conflict_iff_recorded_spans :
  storedSeriesExpand tzdb db series ->
  (ensureNoRecurringSeriesConflicts tzdb db series = Fail ErrConflict
   <-> selfOverlap (newOccurrences tzdb series)
       \/ exists n e,
            In n (newOccurrences tzdb series)
            /\ In e (existingSpans tzdb db series)
            /\ RecurringOccurrence.StartTime n < End_ e
            /\ Start e < RecurringOccurrence.EndTime n)
  /\ (forall n e,
        RecurringOccurrence.StartTime n = End_ e
        \/ RecurringOccurrence.EndTime n = Start e ->
        overlapsSpan n e = false)
  /\ (forall a b l1 l2,
        newOccurrences tzdb series = l1 ++ a :: b :: l2 ->
        RecurringOccurrence.EndTime a = RecurringOccurrence.StartTime b ->
        After (RecurringOccurrence.EndTime a) (RecurringOccurrence.StartTime b) = false).
Proof.
  intros Hvalid. split; [|split].
  2:{ intros n e Hab. destruct (overlapsSpan n e) eqn:Ho; [|done].
      apply overlapsSpan_spec in Ho as [? ?]. lia. }
  2:{ intros a b l1 l2 _ Heq. unfold After. apply Z.ltb_ge. lia. }
  pose proof newOccurrences_within as Hwithin.
  unfold storedSeriesExpand in Hvalid.
  unfold existingSpans, seriesSpans, appointmentSpans.
  unfold comparisonEnd, comparisonStart in *.
  unfold ensureNoRecurringSeriesConflicts, newOccurrences in *.
  destruct (GenerateWeeklyOccurrences tzdb series _ _) as [l|e] eqn:Hg.
  2:{ apply GenerateWeeklyOccurrences_error in Hg as [msg ->]. split; [done|].
      intros [(i & a & b & H & _)|(n & e & [] & _)]. by destruct i. }
  destruct l as [|o l].
  { cbn. split; [done|].
    intros [(i & a & b & H & _)|(n & e & [] & _)]. by destruct i. }
  change (length (o :: l) =? 0)%nat with false. cbv iota.
  set (new := merge_sort byStartOccurrence (o :: l)) in *.
  set (ws := conflictWindowStart series) in *.
  set (we := lastEnd new (conflictWindowEnd series)) in *.
  destruct (consecutiveOverlap new) eqn:Hself.
  { split; [|done]. intros _. left. by apply consecutiveOverlap_spec. }
  assert (Hnself : ~ selfOverlap new).
  { rewrite <- consecutiveOverlap_spec. by rewrite Hself. }
  rewrite (appendSeriesSpans_ok tzdb db ws we).
  2:{ intros s Hs. apply list_elem_of_In in Hs.
      unfold ListRecurringSeries in Hs. rewrite merge_sort_Permutation in Hs.
      apply list_elem_of_In, List.filter_In in Hs as [Hs Hu].
      apply String.eqb_eq in Hu. by apply Hvalid. }
  set (existing := _ ++ _).
  assert (Hiff : (exists n e, In n new /\ In e existing /\ overlaps n e)
                 <-> exists n e, In n new /\
                       In e (List.map spanOfAppointment
                               (List.filter (fun a => String.eqb (Appointment.UserID a)
                                                        (RecurringSeries.UserID series))
                                  (appointments db))
                             ++ List.flat_map (seriesContribution tzdb db ws we)
                                  (List.filter (fun s => String.eqb (RecurringSeries.UserID s)
                                                           (RecurringSeries.UserID series))
                                     (recurring_series db)))
                       /\ RecurringOccurrence.StartTime n < End_ e
                       /\ Start e < RecurringOccurrence.EndTime n).
  { subst existing. split.
    - intros (n & e & Hn & He & Ho). exists n, e. split; [done|]. split; [|exact Ho].
      apply in_app_or in He as [He|He]; apply in_or_app.
      + left. apply List.in_map_iff in He as (a & <- & Ha).
        apply list_elem_of_In in Ha. unfold ListAppointments in Ha.
        rewrite merge_sort_Permutation in Ha.
        apply list_elem_of_In, List.filter_In in Ha as [Ha Hc].
        apply andb_prop in Hc as [Hc _]. apply andb_prop in Hc as [Hc _].
        apply List.in_map_iff. exists a. split; [done|].
        apply List.filter_In. by split.
      + right. apply List.in_flat_map in He as (s & Hs & He).
        apply List.in_flat_map. exists s. split; [|done].
        apply list_elem_of_In in Hs. unfold ListRecurringSeries in Hs.
        rewrite merge_sort_Permutation in Hs. by apply list_elem_of_In.
    - intros (n & e & Hn & He & Ho1 & Ho2). exists n, e. split; [done|].
      split; [|by split].
      destruct (Hwithin n Hn) as [Hn1 Hn2].
      apply in_app_or in He as [He|He]; apply in_or_app.
      + left. apply List.in_map_iff in He as (a & <- & Ha).
        apply List.filter_In in Ha as [Ha Hu]. cbn in Ho1, Ho2.
        apply List.in_map_iff. exists a. split; [done|].
        apply list_elem_of_In. unfold ListAppointments.
        rewrite merge_sort_Permutation.
        apply list_elem_of_In, List.filter_In. split; [done|].
        rewrite Hu. cbn [andb]. apply andb_true_intro.
        split; apply Z.ltb_lt; fold ws in Hn1; fold we in Hn2; lia.
      + right. apply List.in_flat_map in He as (s & Hs & He).
        apply List.in_flat_map. exists s. split; [|done].
        apply list_elem_of_In. unfold ListRecurringSeries.
        rewrite merge_sort_Permutation. by apply list_elem_of_In. }
  destruct (anyConflict new existing) eqn:Hany.
  - split; [|done]. intros _. right. apply Hiff. by apply anyConflict_spec.
  - split; [done|]. intros [Hs|Hex]; [done|].
    apply Hiff, anyConflict_spec in Hex. congruence.
Qed.

End ConflictTheorem.

Lemma conflict_iff_recorded_spans_S6 :
  postgres.ensureNoRecurringSeriesConflicts tzdata.tzdb conflictSamples.S6_db
    conflictSamples.S6_series = Fail ErrConflict
  /\ (conflictSpec.selfOverlap
        (conflictSpec.newOccurrences tzdata.tzdb conflictSamples.S6_series)
      \/ exists n e,
           In n (conflictSpec.newOccurrences tzdata.tzdb conflictSamples.S6_series)
           /\ In e (conflictSpec.existingSpans tzdata.tzdb conflictSamples.S6_db
                      conflictSamples.S6_series)
           /\ domain.RecurringOccurrence.StartTime n < postgres.End_ e
           /\ postgres.Start e < domain.RecurringOccurrence.EndTime n).
Proof.
  assert (Hvalid : conflictSpec.storedSeriesExpand tzdata.tzdb
                     conflictSamples.S6_db conflictSamples.S6_series).
  { intros s [<-|[]] _. vm_compute. eexists. reflexivity. }
  assert (Hc : postgres.ensureNoRecurringSeriesConflicts tzdata.tzdb
                 conflictSamples.S6_db conflictSamples.S6_series = Fail ErrConflict)
    by (vm_compute; reflexivity).
  split; [exact Hc|].
  exact (proj1 (proj1 (conflict_iff_recorded_spans
                         tzdata.tzdb conflictSamples.S6_db conflictSamples.S6_series
                         Hvalid)) Hc).
Defined.

(** C1.  The conflict check misses an occurrence of a stored series that
    starts in the week before the horizon and ends inside it.  The stored
    series [sundayLate] has the occurrence 2026-01-11 23:30 - 2026-01-12
    00:30 (the engine emits it over a window that starts at the dtstart of
    that series); it overlaps the only occurrence of the new series
    [mondayOnce], 2026-01-12 00:00 - 01:00, and it meets the comparison
    window.  Yet the engine emits nothing for [sundayLate] over the
    comparison window, because the scan starts at the week of the window
    start, and the check returns no error, so the new series is stored.
    With the same span held as a one-off appointment the check fails with
    [ErrConflict]. *)
Theorem conflict_check_misses_occurrence_across_week_boundary :
  let n := domain.makeOccurrence conflictSamples.mondayOnce
             (GoTime.utcDate 2026 1 12 0 0 0) (GoTime.utcDate 2026 1 12 1 0 0) in
  let e0 := domain.makeOccurrence conflictSamples.sundayLate
             (GoTime.utcDate 2026 1 4 23 30 0) (GoTime.utcDate 2026 1 5 0 30 0) in
  let e := domain.makeOccurrence conflictSamples.sundayLate
             (GoTime.utcDate 2026 1 11 23 30 0) (GoTime.utcDate 2026 1 12 0 30 0) in
  let ws := conflictSpec.comparisonStart conflictSamples.mondayOnce in
  let we := conflictSpec.comparisonEnd tzdata.tzdb conflictSamples.mondayOnce in
  conflictSpec.newOccurrences tzdata.tzdb conflictSamples.mondayOnce = [n]
  /\ ws = GoTime.utcDate 2026 1 12 0 0 0
  /\ we = GoTime.utcDate 2026 1 12 1 0 0
  /\ domain.GenerateWeeklyOccurrences tzdata.tzdb conflictSamples.sundayLate
       (domain.RecurringSeries.DTStart conflictSamples.sundayLate) we
     = Ok [e0; e]
  /\ (domain.RecurringOccurrence.StartTime n < domain.RecurringOccurrence.EndTime e
      /\ domain.RecurringOccurrence.StartTime e < domain.RecurringOccurrence.EndTime n)
  /\ (ws < domain.RecurringOccurrence.EndTime e
      /\ domain.RecurringOccurrence.StartTime e < we)
  /\ domain.GenerateWeeklyOccurrences tzdata.tzdb conflictSamples.sundayLate ws we
     = Ok []
  /\ postgres.ensureNoRecurringSeriesConflicts tzdata.tzdb
       conflictSamples.sundayLate_db conflictSamples.mondayOnce = Ok tt
  /\ (exists stored,
        snd (postgres.RepoCreateRecurringSeries tzdata.tzdb createSamples.env1
               conflictSamples.sundayLate_db conflictSamples.mondayOnce)
        = Ok stored)
  /\ postgres.ensureNoRecurringSeriesConflicts tzdata.tzdb
       conflictSamples.lateAppointment_db conflictSamples.mondayOnce
     = Fail ErrConflict.
Proof.
  cbv zeta. split_and!; try (vm_compute; reflexivity).
  eexists. vm_compute. reflexivity.
Qed.

(** ** Zone lookup and [time.Date] *)

Section Zones.
Import GoTime zoneSpec.

Variable M : Z.

Lemma lookupFrom_bounded (tx : list (Z * Z)) (v off0 s0 : Z) :
  spacedFrom M s0 tx = true -> Z.abs off0 <= M ->
  Z.abs (lookupFrom tx v off0 s0).1.1 <= M.
Proof.
  revert off0 s0. induction tx as [|[w o] rest IH]; intros off0 s0 Hsp Hoff; [done|].
  cbn in Hsp |- *. apply andb_prop in Hsp as [Hsp Hrest].
  apply andb_prop in Hsp as [_ Ho]. apply Z.leb_le in Ho.
  destruct (v <? w); [done|]. by apply IH.
Qed.

(** Within a window no longer than [2 * M] the zone has at most one
    transition: the lookup is constant there, or it has one value before
    the transition and one from it on. *)
Lemma lookupFrom_window (tx : list (Z * Z)) (off0 s0 lo hi : Z) :
  spacedFrom M s0 tx = true -> Z.abs off0 <= M ->
  s0 <= lo -> lo <= hi -> hi - lo <= 2 * M -> hi < omega ->
  (exists o s e, Z.abs o <= M /\ s <= lo /\ hi < e
                 /\ forall v, lo <= v <= hi -> lookupFrom tx v off0 s0 = (o, s, e))
  \/ (exists T a b s e,
        Z.abs a <= M /\ Z.abs b <= M /\ lo < T <= hi /\ s <= lo /\ hi < e
        /\ (forall v, lo <= v < T -> lookupFrom tx v off0 s0 = (a, s, T))
        /\ (forall v, T <= v <= hi -> lookupFrom tx v off0 s0 = (b, T, e))).
Proof.
  revert off0 s0. induction tx as [|[w o] rest IH];
    intros off0 s0 Hsp Hoff Hs0 Hlohi Hlen Hom.
  - left. exists off0, s0, omega. by split_and!.
  - cbn [spacedFrom] in Hsp. apply andb_prop in Hsp as [Hsp Hrest].
    apply andb_prop in Hsp as [Hw Ho]. apply Z.ltb_lt in Hw. apply Z.leb_le in Ho.
    destruct (Z.lt_ge_cases hi w) as [Hhi|Hhi].
    { left. exists off0, s0, w. split_and!; try done.
      intros v Hv. cbn. destruct (Z.ltb_spec v w); [done|lia]. }
    destruct (Z.le_gt_cases w lo) as [Hlo|Hlo].
    { destruct (IH o w Hrest Ho Hlo Hlohi Hlen Hom)
        as [(o' & s & e & H1 & H2 & H3 & H4)
           |(T & a & b & s & e & H1 & H2 & H3 & H4 & H5 & H6 & H7)].
      - left. exists o', s, e. split_and!; try done.
        intros v Hv. cbn. destruct (Z.ltb_spec v w); [lia|]. by apply H4.
      - right. exists T, a, b, s, e. split_and!; try done; try lia.
        + intros v Hv. cbn. destruct (Z.ltb_spec v w); [lia|]. by apply H6.
        + intros v Hv. cbn. destruct (Z.ltb_spec v w); [lia|]. by apply H7. }
    right.
    assert (He : exists e, hi < e /\
              forall v, w <= v <= hi -> lookupFrom rest v o w = (o, w, e)).
    { destruct rest as [|[w' o'] rest'].
      - exists omega. split; [done|]. intros v Hv. reflexivity.
      - cbn [spacedFrom] in Hrest. apply andb_prop in Hrest as [Hr _].
        apply andb_prop in Hr as [Hw' _]. apply Z.ltb_lt in Hw'.
        exists w'. split; [lia|]. intros v Hv. cbn.
        destruct (Z.ltb_spec v w'); [done|lia]. }
    destruct He as (e & He1 & He2).
    exists w, off0, o, s0, e. split_and!; try done; try lia.
    + intros v Hv. cbn. destruct (Z.ltb_spec v w); [done|lia].
    + intros v Hv. cbn. destruct (Z.ltb_spec v w); [lia|]. by apply He2.
Qed.

Lemma unixSec_compose (x ns : Z) :
  0 <= ns < Second -> unixSec (x * Second + ns) = x /\ nsecOf (x * Second + ns) = ns.
Proof.
  unfold unixSec, nsecOf, Second. intros H. split.
  - rewrite Z.add_comm, Z.div_add by lia. rewrite Z.div_small; lia.
  - rewrite Z.add_comm, Z.mod_add by lia. apply Z.mod_small. lia.
Qed.

(** In a regular zone, [time.Date] applied to a wall-clock reading that
    occurs in the zone returns an instant with that reading. *)
Lemma Date_reads_back (loc : Location) (day hour min sec nsec : Z) :
  let L := day * secondsPerDay + hour * 3600 + min * 60 + sec in
  regularZone M loc = true ->
  representable M L ->
  0 <= nsec < Second ->
  existsLocal loc L ->
  localSec loc (Date loc day hour min sec nsec) = L
  /\ nsecOf (Date loc day hour min sec nsec) = nsec.
Proof.
  intros L Hreg [Hr1 Hr2] Hns [u Hu].
  unfold regularZone in Hreg. apply andb_prop in Hreg as [Hreg Hsp].
  apply andb_prop in Hreg as [HM Hinit].
  apply Z.leb_le in HM, Hinit.
  unfold localSec, Date. fold L.
  assert (Hub : Z.abs (offsetAt loc u) <= M)
    by (unfold offsetAt, lookup; by apply lookupFrom_bounded).
  destruct (lookupFrom_window (trans loc) (initOffset loc) alpha (L - M) (L + M)
              Hsp Hinit ltac:(lia) ltac:(lia) ltac:(lia) ltac:(lia))
    as [(o & s & e & Ho & Hs & He & Hall)
       |(T & a & b & s & e & Ha & Hb & HT & Hs & He & Hleft & Hright)].
  - assert (HL : lookup loc L = (o, s, e)) by (apply Hall; lia).
    rewrite HL.
    assert (Hoff : forall v, L - M <= v <= L + M -> offsetAt loc v = o).
    { intros v Hv. unfold offsetAt, lookup. by rewrite Hall. }
    destruct (Z.eqb_spec o 0) as [->|Hne].
    + destruct (unixSec_compose L nsec Hns) as [-> ->].
      rewrite Hoff by lia. split; [lia|done].
    + destruct (Z.ltb_spec (L - o) s); [lia|].
      destruct (Z.leb_spec e (L - o)); [lia|]. cbn [orb].
      destruct (unixSec_compose (L - o) nsec Hns) as [-> ->].
      rewrite Hoff by lia. split; [lia|done].
  - assert (Hoffl : forall v, L - M <= v < T -> offsetAt loc v = a).
    { intros v Hv. unfold offsetAt, lookup. by rewrite Hleft. }
    assert (Hoffr : forall v, T <= v <= L + M -> offsetAt loc v = b).
    { intros v Hv. unfold offsetAt, lookup. by rewrite Hright. }
    assert (Hu' : L - M <= u <= L + M) by lia.
    destruct (Z.lt_ge_cases L T) as [HLT|HLT].
    + assert (HL : lookup loc L = (a, s, T)) by (apply Hleft; lia).
      rewrite HL.
      destruct (Z.eqb_spec a 0) as [->|Hne].
      * destruct (unixSec_compose L nsec Hns) as [-> ->].
        rewrite Hoffl by lia. split; [lia|done].
      * destruct (Z.ltb_spec (L - a) s); [lia|]. cbn [orb].
        destruct (Z.leb_spec T (L - a)) as [Hge|Hlt].
        -- rewrite (Hoffr (L - a)) by lia.
           destruct (unixSec_compose (L - b) nsec Hns) as [-> ->].
           destruct (Z.lt_ge_cases u T) as [HuT|HuT].
           ++ rewrite Hoffl in Hu by lia. lia.
           ++ rewrite Hoffr in Hu by lia.
              rewrite Hoffr by lia. split; [lia|done].
        -- destruct (unixSec_compose (L - a) nsec Hns) as [-> ->].
           rewrite Hoffl by lia. split; [lia|done].
    + assert (HL : lookup loc L = (b, T, e)) by (apply Hright; lia).
      rewrite HL.
      destruct (Z.eqb_spec b 0) as [->|Hne].
      * destruct (unixSec_compose L nsec Hns) as [-> ->].
        rewrite Hoffr by lia. split; [lia|done].
      * destruct (Z.leb_spec e (L - b)); [lia|].
        destruct (Z.ltb_spec (L - b) T) as [Hlt|Hge]; cbn [orb].
        -- rewrite (Hoffl (L - b)) by lia.
           destruct (unixSec_compose (L - a) nsec Hns) as [-> ->].
           destruct (Z.lt_ge_cases u T) as [HuT|HuT].
           ++ rewrite Hoffl in Hu by lia.
              rewrite Hoffl by lia. split; [lia|done].
           ++ rewrite Hoffr in Hu by lia. lia.
        -- destruct (unixSec_compose (L - b) nsec Hns) as [-> ->].
           rewrite Hoffr by lia. split; [lia|done].
Qed.

End Zones.

(** ** Wall-clock stability *)

Section WallClock.
Import GoTime domain zoneSpec.

Lemma wallClock_fields (x : Z) :
  (x mod secondsPerDay) / 3600 * 3600 + (x mod 3600) / 60 * 60 + x mod 60
  = x mod secondsPerDay.
Proof. unfold secondsPerDay. Z.div_mod_to_equations. lia. Qed.

Lemma timeOfDay_of_localSec (loc : Location) (t dt : Time) (day : Z) :
  localSec loc t = day * secondsPerDay + localSec loc dt mod secondsPerDay ->
  nsecOf t = nsecOf dt ->
  scenarios.timeOfDay loc t = scenarios.timeOfDay loc dt /\ dayOf loc t = day.
Proof.
  unfold scenarios.timeOfDay, Hour, Minute_of, Second_of, Nanosecond_of, dayOf.
  intros -> ->. unfold secondsPerDay.
  set (x := localSec loc dt).
  assert ((day * 86400 + x mod 86400) mod 86400 = x mod 86400) as ->
    by (Z.div_mod_to_equations; lia).
  assert ((day * 86400 + x mod 86400) mod 3600 = x mod 3600) as ->
    by (Z.div_mod_to_equations; lia).
  assert ((day * 86400 + x mod 86400) mod 60 = x mod 60) as ->
    by (Z.div_mod_to_equations; lia).
  split; [reflexivity|Z.div_mod_to_equations; lia].
Qed.

(** C3, amended.  Every occurrence the engine emits is the occurrence of
    the series on some date: its start is [time.Date] applied to that date
    and to the hour, minute, second and nanosecond of [dtstart] in the zone
    of the series.  In a zone whose transitions are more than twice its
    largest offset apart, whenever that wall-clock time occurs on that date
    (no transition skips it), the start of the occurrence read in the zone
    falls on that date and has the hour, minute, second and nanosecond of
    [dtstart]. *)
Theorem occurrences_keep_wall_clock_where_it_exists
  (tzdb : string -> option Location) (series : RecurringSeries.t)
  (windowStart windowEnd : Time) (occs : list RecurringOccurrence.t) :
  GenerateWeeklyOccurrences tzdb series windowStart windowEnd = Ok occs ->
  exists loc,
    tzdb (RecurringSeries.Timezone series) = Some loc
    /\ (forall o, In o occs ->
          exists day, engineSpec.occurrenceOn series windowStart windowEnd loc day o)
    /\ (forall M o day,
          engineSpec.occurrenceOn series windowStart windowEnd loc day o ->
          regularZone M loc = true ->
          representable M (day * secondsPerDay + engineSpec.wallClock loc series) ->
          existsLocal loc (day * secondsPerDay + engineSpec.wallClock loc series) ->
          scenarios.timeOfDay loc (RecurringOccurrence.StartTime o)
            = scenarios.timeOfDay loc (RecurringSeries.DTStart series)
          /\ dayOf loc (RecurringOccurrence.StartTime o) = day).
Proof.
  intros Hg. apply GenerateWeeklyOccurrences_emitted in Hg as (loc & Hloc & _ & Hem).
  exists loc. split; [done|]. split.
  - intros o Ho. rewrite List.Forall_forall in Hem. by apply Hem.
  - intros M o day (-> & _) Hreg Hrep Hex. cbn [RecurringOccurrence.StartTime makeOccurrence].
    unfold engineSpec.wallClock in Hrep, Hex.
    set (dt := RecurringSeries.DTStart series) in *.
    pose proof (wallClock_fields (localSec loc dt)) as Hf.
    fold (Hour loc dt) (Minute_of loc dt) (Second_of loc dt) in Hf.
    assert (HL : day * secondsPerDay + Hour loc dt * 3600 + Minute_of loc dt * 60
                 + Second_of loc dt
                 = day * secondsPerDay + localSec loc dt mod secondsPerDay) by lia.
    destruct (Date_reads_back M loc day (Hour loc dt) (Minute_of loc dt)
                (Second_of loc dt) (Nanosecond_of dt)) as [H1 H2].
    + exact Hreg.
    + by rewrite HL.
    + unfold Nanosecond_of, nsecOf, Second. apply Z.mod_pos_bound. lia.
    + by rewrite HL.
    + apply timeOfDay_of_localSec; [by rewrite H1, HL|exact H2].
Qed.

End WallClock.

(** C3, as stated, fails: the series anchored at 02:30 New York time has an
    occurrence on 2026-03-08, when 02:30 does not exist; [time.Date] places
    it at 06:30 UTC, which reads 01:30 in New York. *)
Lemma wall_clock_shifts_in_DST_gap :
  exists occs o,
    domain.GenerateWeeklyOccurrences tzdata.tzdb scenarios.S5_gap
      scenarios.S5_windowStart scenarios.S5_windowEnd = Ok occs
    /\ In o occs
    /\ scenarios.timeOfDay tzdata.NewYork
         (domain.RecurringSeries.DTStart scenarios.S5_gap) = (2, 30, 0, 0)
    /\ domain.RecurringOccurrence.StartTime o = GoTime.utcDate 2026 3 8 6 30 0
    /\ scenarios.timeOfDay tzdata.NewYork (domain.RecurringOccurrence.StartTime o)
       = (1, 30, 0, 0)
    /\ scenarios.timeOfDay tzdata.NewYork (domain.RecurringOccurrence.StartTime o)
       <> scenarios.timeOfDay tzdata.NewYork
            (domain.RecurringSeries.DTStart scenarios.S5_gap).
Proof.
  eexists. eexists. split; [vm_compute; reflexivity|].
  split; [right; left; reflexivity|].
  repeat split; vm_compute; congruence.
Qed.

Lemma occurrences_keep_wall_clock_where_it_exists_witness :
  exists occs o,
    domain.GenerateWeeklyOccurrences tzdata.tzdb scenarios.S5
      scenarios.S5_windowStart scenarios.S5_windowEnd = Ok occs
    /\ In o occs
    /\ domain.RecurringOccurrence.StartTime o = GoTime.utcDate 2026 3 8 13 0 0
    /\ scenarios.timeOfDay tzdata.NewYork (domain.RecurringOccurrence.StartTime o)
       = scenarios.timeOfDay tzdata.NewYork (domain.RecurringSeries.DTStart scenarios.S5)
    /\ GoTime.dayOf tzdata.NewYork (domain.RecurringOccurrence.StartTime o)
       = GoTime.daysFromCivil 2026 3 8.
Proof.
  destruct (domain.GenerateWeeklyOccurrences tzdata.tzdb scenarios.S5
              scenarios.S5_windowStart scenarios.S5_windowEnd) as [occs|e] eqn:Hg;
    [|vm_compute in Hg; discriminate Hg].
  destruct (occurrences_keep_wall_clock_where_it_exists _ _ _ _ _ Hg)
    as (loc & Hloc & _ & Hkeep).
  vm_compute in Hloc. injection Hloc as <-.
  vm_compute in Hg. injection Hg as <-.
  eexists. eexists. split; [reflexivity|].
  split; [right; left; reflexivity|].
  split; [vm_compute; reflexivity|].
  change (GoTime.mkLocation _ _) with tzdata.NewYork in Hkeep.
  apply (Hkeep 18000 _ (GoTime.daysFromCivil 2026 3 8)).
  - unfold engineSpec.occurrenceOn. cbv zeta.
    split; [vm_compute; reflexivity|].
    split; [vm_compute; discriminate|].
    split; [vm_compute; reflexivity|].
    split; [vm_compute; reflexivity|].
    intros u Hu. discriminate Hu.
  - vm_compute. reflexivity.
  - split; vm_compute; [discriminate|reflexivity].
  - exists (GoTime.unixSec (GoTime.utcDate 2026 3 8 13 0 0)). vm_compute. reflexivity.
Defined.

(** ** The engine as a run over one list of candidates *)

Section Flatten.
Import GoTime domain engineFlat.

Variable series : RecurringSeries.t.
Variables windowStart windowEnd : Time.
Variable loc : Location.
Variable weekdays : list Z.

Lemma weekdaysLoop_run (weekStart : Time) (weekIndex : Z) (wds : list Z)
  (weekdayIndex : Z) (out : list RecurringOccurrence.t) :
  weekdaysLoop series windowStart windowEnd loc weekdays weekStart weekIndex
    wds weekdayIndex out
  = run series windowStart windowEnd
      (weekCands series loc weekdays weekStart weekIndex wds weekdayIndex) out.
Proof.
  revert weekdayIndex out. induction wds as [|wd wds IH]; intros i out; [done|].
  cbn [weekdaysLoop weekCands run].
  destruct (Before _ _); [apply IH|].
  destruct (RecurringSeries.Until series) as [u|];
    [destruct (After _ _); [done|]|];
    (destruct (_ && _); [done|]); apply IH.
Qed.

Lemma run_app (l1 l2 : list (Time * Z)) (out : list RecurringOccurrence.t) :
  run series windowStart windowEnd (l1 ++ l2) out
  = match run series windowStart windowEnd l1 out with
    | Return o => Return o
    | Continue o => run series windowStart windowEnd l2 o
    end.
Proof.
  revert out. induction l1 as [|[st g] l1 IH]; intros out; [done|].
  cbn [app run].
  destruct (Before _ _); [apply IH|].
  destruct (RecurringSeries.Until series) as [u|];
    [destruct (After _ _); [done|]|];
    (destruct (_ && _); [done|]); apply IH.
Qed.

Lemma weeksLoop_run (fuel : nat) (weekIndex : Z)
  (out r : list RecurringOccurrence.t) :
  weeksLoop series windowStart windowEnd loc weekdays fuel weekIndex out = Some r ->
  r = outOf (run series windowStart windowEnd
               (allCands series windowEnd loc weekdays fuel weekIndex) out).
Proof.
  revert weekIndex out. induction fuel as [|fuel IH]; intros w out; [done|].
  cbn [weeksLoop allCands].
  destruct (negb _); [by intros [= <-]|].
  rewrite weekdaysLoop_run, run_app.
  destruct (run _ _ _ _ _) as [o|o]; [apply IH|by intros [= <-]].
Qed.

Lemma interval_pos : 1 <= interval series.
Proof. unfold interval. destruct (Z.ltb_spec (RecurringSeries.Interval series) 1); lia. Qed.

(** The outer loop ends: with fuel beyond the number of weeks up to the
    boundary it returns. *)
Lemma weeksLoop_total (fuel : nat) (weekIndex : Z)
  (out : list RecurringOccurrence.t) :
  0 <= weekIndex ->
  (1 <= fuel)%nat ->
  (windowEndWeekBoundaryUTC windowEnd loc - startWeekMondayUTC series loc)
    / (7 * secondsPerDay * Second) + 1 - weekIndex < Z.of_nat fuel ->
  is_Some (weeksLoop series windowStart windowEnd loc weekdays fuel weekIndex out).
Proof.
  revert weekIndex out. induction fuel as [|fuel IH]; intros w out Hw Hf Hk; [lia|].
  cbn [weeksLoop]. unfold Before, AddDateDays.
  set (B := windowEndWeekBoundaryUTC windowEnd loc) in *.
  set (M0 := startWeekMondayUTC series loc) in *.
  destruct (Z.ltb_spec (M0 + w * interval series * 7 * secondsPerDay * Second) B)
    as [Hlt|Hge]; cbn [negb]; [|done].
  destruct (weekdaysLoop _ _ _ _ _ _ _ _ _ _); [|done].
  pose proof interval_pos as Hi.
  assert (w <= w * interval series) by nia.
  unfold secondsPerDay, Second in *.
  assert (w < (B - M0) / (7 * 86400 * 1000000000) + 1)
    by (Z.div_mod_to_equations; lia).
  apply IH; lia.
Qed.

End Flatten.

Section Total.
Import GoTime domain.


End Total.

(** ** The count cap *)

Section CountCap.
Import GoTime domain engineFlat.

Variable s : RecurringSeries.t.
Variable N : Z.
Variables windowStart windowEnd : Time.

Local Abbreviation dt := (RecurringSeries.DTStart s).
Local Abbreviation runWith c := (run (setCount s c) windowStart windowEnd).

Lemma run_setCount_cons (c : option Z) (st g : Z) (rest : list (Time * Z))
  (out : list RecurringOccurrence.t) :
  runWith c ((st, g) :: rest) out
  = if st <? dt then runWith c rest out
    else if match RecurringSeries.Until s with
            | Some u => u <? st
            | None => false
            end then Return out
    else if match c with
            | Some n => (0 <=? n) && (n <=? g)
            | None => false
            end then Return out
    else runWith c rest
           (if (st <? windowEnd) && (windowStart <? st + duration s)
            then out ++ [makeOccurrence s st (st + duration s)] else out).
Proof. destruct c; reflexivity. Qed.

Lemma run_prefix (c : option Z) (l : list (Time * Z))
  (out : list RecurringOccurrence.t) :
  exists extra, outOf (runWith c l out) = out ++ extra.
Proof.
  revert out. induction l as [|[st g] l IH]; intros out.
  - exists []. cbn. by rewrite app_nil_r.
  - rewrite run_setCount_cons.
    destruct (st <? dt); [apply IH|].
    destruct (match RecurringSeries.Until s with Some u => u <? st | None => false end).
    { exists []. cbn. by rewrite app_nil_r. }
    destruct (match c with Some n => (0 <=? n) && (n <=? g) | None => false end).
    { exists []. cbn. by rewrite app_nil_r. }
    destruct (_ && _); [|apply IH].
    destruct (IH (out ++ [makeOccurrence s st (st + duration s)])) as [extra ->].
    eexists. by rewrite <- app_assoc.
Qed.

(** Candidates that start at or after the end of the window add nothing. *)
Lemma run_beyond_window (c : option Z) (l : list (Time * Z))
  (out : list RecurringOccurrence.t) :
  Forall (fun cand => windowEnd <= cand.1) l ->
  outOf (runWith c l out) = out.
Proof.
  induction 1 as [|[st g] l Hst _ IH]; [done|].
  rewrite run_setCount_cons. cbn in Hst.
  destruct (st <? dt); [exact IH|].
  destruct (match RecurringSeries.Until s with Some u => u <? st | None => false end);
    [done|].
  destruct (match c with Some n => (0 <=? n) && (n <=? g) | None => false end);
    [done|].
  destruct (Z.ltb_spec st windowEnd); [lia|]. exact IH.
Qed.

(** The run with count [N] returns the first [N] occurrences of the run
    without count, when that one returns at least [N]. *)
Lemma run_count_prefix (l : list (Time * Z)) (out : list RecurringOccurrence.t)
  (r : Z) :
  windowStart <= dt ->
  0 < duration s ->
  ascending l ->
  ranked dt r l ->
  Z.of_nat (length out) <= r ->
  (Z.of_nat (length out) = r \/ Forall (fun cand => windowEnd <= cand.1) l) ->
  Z.of_nat (length out) <= N ->
  N <= Z.of_nat (length (outOf (runWith None l out))) ->
  outOf (runWith (Some N) l out)
  = take (Z.to_nat N) (outOf (runWith None l out)).
Proof.
  intros Hws Hdur Hasc. revert out r.
  induction Hasc as [|[st g] l Hasc IH Hlt]; intros out r Hrank Hr Hinv HN Hfinal.
  - cbn in *. rewrite take_ge; [done|lia].
  - rewrite !run_setCount_cons in *. cbn [ranked] in Hrank.
    destruct (Z.ltb_spec st dt) as [Hpre|Hnonpre].
    { apply (IH out r); try done.
      destruct Hinv as [?|Hf]; [by left|right]. by apply Forall_inv_tail in Hf. }
    destruct Hrank as [-> Hrank].
    destruct (match RecurringSeries.Until s with Some u => u <? st | None => false end).
    { cbn in *. rewrite take_ge; [done|lia]. }
    assert (H0N : (0 <=? N) = true) by (apply Z.leb_le; lia).
    rewrite H0N. cbn [andb].
    destruct (Z.leb_spec N r) as [Hstop|Hgo].
    + cbn [outOf].
      assert (Hlen : Z.of_nat (length out) = N).
      { destruct (Z.eq_dec (Z.of_nat (length out)) N) as [|Hne]; [done|exfalso].
        destruct Hinv as [?|Hf]; [lia|].
        pose proof (Forall_inv Hf) as Hst. cbn in Hst.
        apply Forall_inv_tail in Hf.
        destruct (Z.ltb_spec st windowEnd); [lia|]. cbn [andb] in Hfinal.
        rewrite run_beyond_window in Hfinal by done. lia. }
      destruct (run_prefix None l
                  (if (st <? windowEnd) && (windowStart <? st + duration s)
                   then out ++ [makeOccurrence s st (st + duration s)] else out))
        as [extra ->].
      destruct (_ && _).
      * rewrite <- !app_assoc. rewrite take_app_length'; [done|lia].
      * rewrite take_app_length'; [done|lia].
    + destruct ((st <? windowEnd) && (windowStart <? st + duration s)) eqn:Hwin.
      * apply andb_prop in Hwin as [Hw1 _]. apply Z.ltb_lt in Hw1.
        apply (IH _ (r + 1)); try done.
        -- rewrite length_app. cbn. lia.
        -- left. rewrite length_app. cbn.
           destruct Hinv as [?|Hf]; [lia|].
           apply Forall_inv in Hf. cbn in Hf. lia.
        -- rewrite length_app. cbn. lia.
      * apply andb_false_iff in Hwin as [Hw|Hw].
        2:{ apply Z.ltb_ge in Hw. lia. }
        apply Z.ltb_ge in Hw.
        apply (IH out (r + 1)); try done; [lia|].
        right. eapply Forall_impl; [exact Hlt|].
        intros [st' g'] Hst'. cbn in *. lia.
Qed.

End CountCap.

(** ** Dates and starts of the candidates *)

Section CandidateDates.
Import GoTime domain engineFlat.

Variables lo hi : Z.

Lemma onDate_lt (tod ns D D' : Z) (st st' : Time) :
  hi - lo < secondsPerDay ->
  onDate lo hi tod ns D st -> onDate lo hi tod ns D' st' -> D < D' -> st < st'.
Proof.
  unfold onDate, secondsPerDay, Second.
  intros Hsp (o & Ho & ->) (o' & Ho' & ->) HD. lia.
Qed.

Lemma lookupFrom_within (tx : list (Z * Z)) (v off0 s0 : Z) :
  forallb (fun o => (lo <=? o) && (o <=? hi)) (off0 :: List.map snd tx) = true ->
  lo <= (lookupFrom tx v off0 s0).1.1 <= hi.
Proof.
  revert off0 s0. induction tx as [|[w o] rest IH]; intros off0 s0 H.
  - cbn in *. lia.
  - cbn [lookupFrom]. destruct (v <? w).
    + cbn in *. lia.
    + apply IH. cbn in *. lia.
Qed.

Lemma offsetAt_within (loc : Location) (v : Z) :
  offsetsWithin lo hi loc = true -> lo <= offsetAt loc v <= hi.
Proof. intros H. unfold offsetAt, lookup. by apply lookupFrom_within. Qed.

(** [time.Date] converts the wall-clock time with an offset of the zone. *)
Lemma Date_onDate (loc : Location) (D hour min sec nsec : Z) :
  offsetsWithin lo hi loc = true ->
  onDate lo hi (hour * 3600 + min * 60 + sec) nsec D (Date loc D hour min sec nsec).
Proof.
  intros Hw. unfold onDate, Date.
  pose proof (offsetAt_within loc (D * secondsPerDay + hour * 3600 + min * 60 + sec) Hw)
    as H1.
  unfold offsetAt in H1.
  destruct (lookup loc _) as [[offset start] end_]. cbn in H1.
  destruct (Z.eqb_spec offset 0) as [->|_].
  - exists 0. split; [done|]. unfold secondsPerDay, Second. lia.
  - destruct (_ || _).
    + exists (offsetAt loc
                (D * secondsPerDay + hour * 3600 + min * 60 + sec - offset)).
      split; [by apply offsetAt_within|]. unfold secondsPerDay, Second. lia.
    + exists offset. split; [done|]. unfold secondsPerDay, Second. lia.
Qed.

Lemma dtstart_onDate (loc : Location) (dtstart : Time) :
  offsetsWithin lo hi loc = true ->
  onDate lo hi
    (Hour loc dtstart * 3600 + Minute_of loc dtstart * 60 + Second_of loc dtstart)
    (Nanosecond_of dtstart) (dayOf loc dtstart) dtstart.
Proof.
  intros Hw. exists (offsetAt loc (unixSec dtstart)).
  split; [by apply offsetAt_within|].
  unfold Hour, Minute_of, Second_of, Nanosecond_of, dayOf.
  rewrite wallClock_fields. unfold localSec, nsecOf, unixSec, secondsPerDay, Second.
  Z.div_mod_to_equations. lia.
Qed.

End CandidateDates.

Section WeekStructure.
Import GoTime domain engineFlat.

Variable series : RecurringSeries.t.
Variable loc : Location.
Variables lo hi : Z.
Variable weekdays : list Z.

Local Abbreviation dt := (RecurringSeries.DTStart series).
Local Abbreviation tod :=
  (Hour loc dt * 3600 + Minute_of loc dt * 60 + Second_of loc dt).
Local Abbreviation nsd := (Nanosecond_of dt).
Local Abbreviation Dm := (mondayOf (dayOf loc dt)).
Local Abbreviation weekStartOf w :=
  (AddDateDays (startWeekMondayUTC series loc) (w * interval series * 7)).

Lemma Date_UTC_midnight (D : Z) :
  Date UTCLoc D 0 0 0 0 = D * secondsPerDay * Second.
Proof. unfold Date, lookup, UTCLoc. cbn. lia. Qed.

Lemma dayOf_UTC_midnight (D : Z) : dayOf UTCLoc (D * secondsPerDay * Second) = D.
Proof.
  unfold dayOf, localSec, offsetAt, lookup, UTCLoc, unixSec, secondsPerDay, Second.
  cbn. Z.div_mod_to_equations. lia.
Qed.

Lemma mondayDateUTC_mondayOf (t : Time) :
  mondayDateUTC loc t = mondayOf (dayOf loc t) * secondsPerDay * Second.
Proof.
  unfold mondayDateUTC, AddDateDays. rewrite Date_UTC_midnight.
  unfold mondayOf, Weekday, Sunday.
  destruct (Z.eqb_spec ((dayOf loc t + 4) mod 7) 0);
    unfold secondsPerDay, Second; Z.div_mod_to_equations; lia.
Qed.

Lemma mondayOf_bounds (D : Z) : mondayOf D <= D <= mondayOf D + 6.
Proof. unfold mondayOf. Z.div_mod_to_equations. lia. Qed.

Lemma mondayOf_mono (D D' : Z) : D <= D' -> mondayOf D <= mondayOf D'.
Proof. unfold mondayOf. Z.div_mod_to_equations. lia. Qed.

Lemma weekStartOf_day (w : Z) :
  weekStartOf w = (Dm + w * interval series * 7) * secondsPerDay * Second.
Proof.
  unfold startWeekMondayUTC, dtstartLocal, AddDateDays.
  rewrite mondayDateUTC_mondayOf. lia.
Qed.

(** The candidate of weekday [wd] in week [w] falls on the date of that
    weekday in that week. *)
Lemma candidateOfWeek_onDate (w wd : Z) :
  offsetsWithin lo hi loc = true ->
  1 <= wd <= 7 ->
  onDate lo hi tod nsd (Dm + w * interval series * 7 + wd - 1)
    (candidateOfWeek series loc (weekStartOf w) wd).
Proof.
  intros Hw Hwd. unfold candidateOfWeek, candidateStart, UTC, dtstartLocal.
  rewrite weekStartOf_day. unfold AddDateDays.
  replace (_ + weekdayOffsetFromMonday wd * secondsPerDay * Second)
    with ((Dm + w * interval series * 7 + wd - 1) * secondsPerDay * Second).
  2:{ unfold weekdayOffsetFromMonday. destruct (Z.eqb_spec wd 7); lia. }
  rewrite dayOf_UTC_midnight. by apply Date_onDate.
Qed.

Lemma above_weaken (b b' : Z) (l : list (Time * Z)) :
  b' <= b -> above lo hi tod nsd b l -> above lo hi tod nsd b' l.
Proof.
  intros Hb [Ha Hf]. split; [done|].
  eapply Forall_impl; [exact Hf|]. intros c (D & HD & Hc). exists D. split; [lia|done].
Qed.

Lemma above_cons (b D : Z) (st g : Z) (l : list (Time * Z)) :
  hi - lo < secondsPerDay ->
  onDate lo hi tod nsd D st -> b < D ->
  above lo hi tod nsd D l -> above lo hi tod nsd b ((st, g) :: l).
Proof.
  intros Hsp Hst HbD [Ha Hf]. split.
  - constructor; [done|].
    eapply Forall_impl; [exact Hf|]. intros c (D' & HD' & Hc). cbn.
    by eapply onDate_lt.
  - constructor; [by exists D|].
    eapply Forall_impl; [exact Hf|]. intros c (D' & HD' & Hc).
    exists D'. split; [lia|done].
Qed.

Lemma weekCands_above (w b : Z) (wds : list Z) (i : Z) (rest : list (Time * Z)) :
  offsetsWithin lo hi loc = true ->
  hi - lo < secondsPerDay ->
  StronglySorted Z.lt wds ->
  Forall (fun wd => 1 <= wd <= 7) wds ->
  Forall (fun wd => b < Dm + w * interval series * 7 + wd - 1) wds ->
  b <= Dm + w * interval series * 7 + 6 ->
  above lo hi tod nsd (Dm + w * interval series * 7 + 6) rest ->
  above lo hi tod nsd b
    (weekCands series loc weekdays (weekStartOf w) w wds i ++ rest).
Proof.
  intros Hw Hsp Hsorted. revert b i.
  induction Hsorted as [|wd wds Hs IH Hlt]; intros b i Hrange Hb Hb6 Hrest.
  - cbn. by eapply above_weaken.
  - cbn [weekCands app].
    apply Forall_cons in Hrange as [Hwd Hrange].
    apply Forall_cons in Hb as [Hbwd Hb].
    eapply above_cons; [done|by apply candidateOfWeek_onDate|done|].
    apply IH; try done.
    + eapply Forall_impl; [exact Hlt|]. intros wd' Hwd'. cbn in Hwd'. lia.
    + lia.
Qed.

Lemma weekCands_indexed (weekStart : Time) (w : Z) (wds : list Z) (i : Z) :
  indexedFrom (w * occPerWeek weekdays + i - skippedInFirstWeek series loc weekdays)
    (weekCands series loc weekdays weekStart w wds i).
Proof.
  revert i. induction wds as [|wd wds IH]; intros i; [done|].
  cbn [weekCands indexedFrom]. split; [done|].
  replace (w * occPerWeek weekdays + i - skippedInFirstWeek series loc weekdays + 1)
    with (w * occPerWeek weekdays + (i + 1) - skippedInFirstWeek series loc weekdays)
    by lia.
  apply IH.
Qed.

Lemma weekCands_length (weekStart : Time) (w : Z) (wds : list Z) (i : Z) :
  length (weekCands series loc weekdays weekStart w wds i) = length wds.
Proof. revert i. induction wds as [|wd wds IH]; intros i; cbn; [done|]. by rewrite IH. Qed.

Lemma indexedFrom_app (g0 : Z) (l1 l2 : list (Time * Z)) :
  indexedFrom g0 l1 -> indexedFrom (g0 + Z.of_nat (length l1)) l2 ->
  indexedFrom g0 (l1 ++ l2).
Proof.
  revert g0. induction l1 as [|[st g] l1 IH]; intros g0 H1 H2.
  - cbn in *. by rewrite Z.add_0_r in H2.
  - cbn [app indexedFrom] in *. destruct H1 as [-> H1]. split; [done|].
    apply IH; [done|]. replace (g0 + 1 + Z.of_nat (length l1))
      with (g0 + Z.of_nat (length ((st, g0) :: l1))) by (cbn [length]; lia). done.
Qed.

Lemma allCands_indexed (windowEnd : Time) (fuel : nat) (w : Z) :
  indexedFrom (w * occPerWeek weekdays - skippedInFirstWeek series loc weekdays)
    (allCands series windowEnd loc weekdays fuel w).
Proof.
  revert w. induction fuel as [|fuel IH]; intros w; [done|].
  cbn [allCands]. destruct (negb _); [done|].
  apply indexedFrom_app.
  - replace (w * occPerWeek weekdays - skippedInFirstWeek series loc weekdays)
      with (w * occPerWeek weekdays + 0 - skippedInFirstWeek series loc weekdays) by lia.
    apply weekCands_indexed.
  - rewrite weekCands_length.
    replace (_ + Z.of_nat (length weekdays))
      with ((w + 1) * occPerWeek weekdays - skippedInFirstWeek series loc weekdays)
      by (unfold occPerWeek; lia).
    apply IH.
Qed.

Section AllCands.

Variable windowEnd : Time.
Hypothesis Hwithin : offsetsWithin lo hi loc = true.
Hypothesis Hspread : hi - lo < secondsPerDay.
Hypothesis Hsorted : StronglySorted Z.lt weekdays.
Hypothesis Hrange : Forall (fun wd => 1 <= wd <= 7) weekdays.

Lemma allCands_above (fuel : nat) (w : Z) :
  above lo hi tod nsd (Dm + w * interval series * 7 - 1)
    (allCands series windowEnd loc weekdays fuel w).
Proof using Hwithin Hspread Hsorted Hrange.
  revert w. induction fuel as [|fuel IH]; intros w.
  - split; constructor.
  - cbn [allCands]. destruct (negb _); [split; constructor|].
    pose proof (interval_pos series) as Hi.
    apply weekCands_above; try done.
    + eapply Forall_impl; [exact Hrange|]. intros wd Hwd. cbn in Hwd. lia.
    + lia.
    + eapply above_weaken; [|apply (IH (w + 1))]. nia.
Qed.

End AllCands.

End WeekStructure.

Section Ranking.
Import GoTime domain engineFlat.

Lemma preCount_app (dtstart : Time) (l1 l2 : list (Time * Z)) :
  preCount dtstart (l1 ++ l2) = preCount dtstart l1 + preCount dtstart l2.
Proof. unfold preCount. rewrite List.filter_app, length_app. apply Nat2Z.inj_add. Qed.

Lemma preCount_none (dtstart : Time) (l : list (Time * Z)) :
  Forall (fun c => dtstart <= c.1) l -> preCount dtstart l = 0.
Proof.
  unfold preCount. induction 1 as [|c l Hc _ IH]; [done|]. cbn.
  destruct (Z.ltb_spec c.1 dtstart); [lia|]. exact IH.
Qed.

Lemma preCount_nonneg (dtstart : Time) (l : list (Time * Z)) : 0 <= preCount dtstart l.
Proof. unfold preCount. lia. Qed.

(** In a list in the order of the starts whose global indices are
    consecutive, the candidates that do not start before [dtstart] are
    counted from the first index plus the number of those that do. *)
Lemma ranked_of_indexed (dtstart : Time) (g0 : Z) (l : list (Time * Z)) :
  ascending l -> indexedFrom g0 l ->
  ranked dtstart (g0 + preCount dtstart l) l.
Proof.
  intros Hasc. revert g0. induction Hasc as [|[st g] l Hasc IH Hlt]; intros g0 Hidx.
  - done.
  - cbn [indexedFrom] in Hidx. destruct Hidx as [-> Hidx]. cbn [ranked].
    unfold preCount. cbn [List.filter fst].
    destruct (Z.ltb_spec st dtstart) as [Hpre|Hnon].
    + cbn [length]. specialize (IH (g0 + 1) Hidx). unfold preCount in IH.
      replace (g0 + Z.of_nat (Datatypes.S (length (List.filter (fun c => c.1 <? dtstart) l))))
        with (g0 + 1 + Z.of_nat (length (List.filter (fun c => c.1 <? dtstart) l)))
        by lia.
      exact IH.
    + assert (H0 : preCount dtstart l = 0).
      { apply preCount_none. eapply Forall_impl; [exact Hlt|].
        intros c Hc. cbn in Hc. lia. }
      unfold preCount in H0. rewrite H0.
      split; [lia|]. specialize (IH (g0 + 1) Hidx).
      unfold preCount in IH. rewrite H0 in IH.
      by replace (g0 + 0 + 1) with (g0 + 1 + 0) by lia.
Qed.

Variable series : RecurringSeries.t.
Variable loc : Location.
Variables lo hi : Z.
Variable weekdays : list Z.
Variable windowEnd : Time.

Local Abbreviation dt := (RecurringSeries.DTStart series).

Lemma above_not_before (b : Z) (l : list (Time * Z)) :
  offsetsWithin lo hi loc = true ->
  hi - lo < secondsPerDay ->
  dayOf loc dt <= b ->
  above lo hi
    (Hour loc dt * 3600 + Minute_of loc dt * 60 + Second_of loc dt)
    (Nanosecond_of dt) b l ->
  Forall (fun c => dt <= c.1) l.
Proof.
  intros Hw Hsp Hb [_ Hf]. eapply Forall_impl; [exact Hf|].
  intros c (D & HD & Hc). cbn beta.
  pose proof (dtstart_onDate lo hi loc dt Hw) as Hdt.
  assert (dt < c.1); [|lia].
  eapply onDate_lt; [exact Hsp|exact Hdt|exact Hc|lia].
Qed.

Lemma preCount_weekCands (wds : list Z) (i : Z) :
  preCount dt (weekCands series loc weekdays (startWeekMondayUTC series loc) 0 wds i)
  = Z.of_nat (length (filter
      (fun wd => Is_true (Before (candidateOfWeek series loc
                                    (startWeekMondayUTC series loc) wd)
                            (dtstartUTC series))) wds)).
Proof.
  revert i. unfold preCount. induction wds as [|wd wds IH]; intros i; [done|].
  cbn [weekCands List.filter fst]. rewrite filter_cons.
  destruct (decide (Is_true (Before (candidateOfWeek series loc
                                       (startWeekMondayUTC series loc) wd)
                               (dtstartUTC series)))) as [Hb|Hb].
  - apply Is_true_true_1 in Hb. unfold Before, dtstartUTC, UTC in Hb.
    rewrite Hb. cbn [length]. rewrite !Nat2Z.inj_succ. f_equal. apply IH.
  - apply Is_true_false_1 in Hb. unfold Before, dtstartUTC, UTC in Hb.
    rewrite Hb. apply IH.
Qed.

(** The global index of a candidate that does not start before [dtstart]
    is its rank among these candidates. *)
Lemma allCands_ranked (fuel : nat) :
  offsetsWithin lo hi loc = true ->
  hi - lo < secondsPerDay ->
  StronglySorted Z.lt weekdays ->
  Forall (fun wd => 1 <= wd <= 7) weekdays ->
  ranked dt 0 (allCands series windowEnd loc weekdays fuel 0)
  /\ ascending (allCands series windowEnd loc weekdays fuel 0).
Proof.
  intros Hw Hsp Hsorted Hrange.
  pose proof (allCands_above series loc lo hi weekdays windowEnd Hw Hsp Hsorted Hrange
                fuel 0) as Habove.
  split; [|exact (proj1 Habove)].
  pose proof (allCands_indexed series loc weekdays windowEnd fuel 0) as Hidx.
  pose proof (ranked_of_indexed dt _ _ (proj1 Habove) Hidx) as Hr.
  destruct fuel as [|fuel]; [done|].
  cbn [allCands] in *. destruct (negb _); [done|].
  replace (0 * occPerWeek weekdays - skippedInFirstWeek series loc weekdays
           + preCount dt _) with 0 in Hr; [exact Hr|].
  rewrite preCount_app.
  replace (AddDateDays (startWeekMondayUTC series loc) (0 * interval series * 7))
    with (startWeekMondayUTC series loc) by (unfold AddDateDays; lia).
  rewrite preCount_weekCands. fold (skippedInFirstWeek series loc weekdays).
  rewrite preCount_none; [lia|].
  eapply (above_not_before (mondayOf (dayOf loc dt) + 6)); try done.
  - pose proof (mondayOf_bounds (dayOf loc dt)). lia.
  - eapply above_weaken;
      [|apply (allCands_above series loc lo hi weekdays windowEnd Hw Hsp Hsorted Hrange
                 fuel (0 + 1))].
    pose proof (interval_pos series). lia.
Qed.

(** The same from any later week on: the indices go on from the number
    of candidates of the earlier weeks that do not start before [dtstart]. *)
Lemma allCands_ranked_from (fuel : nat) (w0 : Z) :
  offsetsWithin lo hi loc = true ->
  hi - lo < secondsPerDay ->
  StronglySorted Z.lt weekdays ->
  Forall (fun wd => 1 <= wd <= 7) weekdays ->
  1 <= w0 ->
  ranked dt (w0 * occPerWeek weekdays - skippedInFirstWeek series loc weekdays)
    (allCands series windowEnd loc weekdays fuel w0).
Proof.
  intros Hw Hsp Hsorted Hrange Hw0.
  pose proof (allCands_above series loc lo hi weekdays windowEnd Hw Hsp Hsorted Hrange
                fuel w0) as Habove.
  pose proof (allCands_indexed series loc weekdays windowEnd fuel w0) as Hidx.
  pose proof (ranked_of_indexed dt _ _ (proj1 Habove) Hidx) as Hr.
  rewrite preCount_none in Hr; [by rewrite Z.add_0_r in Hr|].
  apply (above_not_before (mondayOf (dayOf loc dt) + w0 * interval series * 7 - 1));
    try done.
  pose proof (mondayOf_bounds (dayOf loc dt)). pose proof (interval_pos series).
  assert (1 <= w0 * interval series) by nia. lia.
Qed.

End Ranking.

(** ** The normalized weekdays *)

Section Weekdays.
Import domain.

Lemma dedupWeekdays_inv (l acc r : list Z) :
  dedupWeekdays l acc = Some r ->
  NoDup acc -> Forall (fun wd => 1 <= wd <= 7) acc ->
  NoDup r /\ Forall (fun wd => 1 <= wd <= 7) r.
Proof.
  revert acc. induction l as [|wd l IH]; intros acc; cbn [dedupWeekdays].
  - by intros [= <-].
  - destruct (Z.ltb_spec wd 1); [done|]. destruct (Z.ltb_spec 7 wd); [done|].
    cbn [orb]. destruct (bool_decide (wd ∈ acc)) eqn:Hin; [apply IH|].
    apply bool_decide_eq_false_1 in Hin.
    intros Hr Hnd Hf. apply (IH _ Hr).
    + apply NoDup_app. split; [done|]. split; [|apply NoDup_singleton].
      intros x Hx ->%list_elem_of_singleton. done.
    + apply Forall_app. split; [done|]. constructor; [lia|constructor].
Qed.

Lemma insertWeekday_In (key x : Z) (l : list Z) :
  In x (insertWeekday key l) <-> x = key \/ In x l.
Proof.
  induction l as [|y l IH]; cbn [insertWeekday].
  - cbn. intuition.
  - destruct (key <? y); cbn; [intuition|]. rewrite IH. intuition.
Qed.

Lemma insertWeekday_sorted (key : Z) (l : list Z) :
  StronglySorted Z.lt l -> ~ In key l -> StronglySorted Z.lt (insertWeekday key l).
Proof.
  induction 1 as [|y l Hs IH Hlt]; intros Hnot; cbn [insertWeekday].
  - repeat constructor.
  - destruct (Z.ltb_spec key y) as [Hky|Hky].
    + constructor; [by constructor|].
      constructor; [done|]. eapply Forall_impl; [exact Hlt|]. intros z Hz. lia.
    + assert (y < key) by (cbn in Hnot; lia).
      constructor; [apply IH; cbn in Hnot; tauto|].
      apply List.Forall_forall. intros z Hz. apply insertWeekday_In in Hz as [->|Hz];
        [done|]. rewrite List.Forall_forall in Hlt. by apply Hlt.
Qed.

Lemma foldl_insertWeekday (l acc : list Z) :
  StronglySorted Z.lt acc -> NoDup l -> (forall x, In x l -> ~ In x acc) ->
  StronglySorted Z.lt (foldl (fun a key => insertWeekday key a) acc l)
  /\ forall x, In x (foldl (fun a key => insertWeekday key a) acc l)
               <-> In x acc \/ In x l.
Proof.
  revert acc. induction l as [|k l IH]; intros acc Hs Hnd Hdis.
  - cbn. split; [done|]. intuition.
  - cbn [foldl]. apply NoDup_cons in Hnd as [Hk Hnd].
    destruct (IH (insertWeekday k acc)) as [H1 H2].
    + apply insertWeekday_sorted; [done|]. apply Hdis. by left.
    + done.
    + intros x Hx Hin. apply insertWeekday_In in Hin as [->|Hin].
      * apply Hk. by apply list_elem_of_In.
      * apply (Hdis x); [by right|done].
    + split; [done|]. intros x. rewrite H2, insertWeekday_In. cbn. intuition.
Qed.

(** The weekdays the engine iterates over are strictly ascending and lie
    between 1 and 7. *)
Lemma normalized_weekdays (l wds : list Z) :
  dedupWeekdays l [] = Some wds ->
  StronglySorted Z.lt (sortWeekdays wds)
  /\ Forall (fun wd => 1 <= wd <= 7) (sortWeekdays wds).
Proof.
  intros Hd. apply dedupWeekdays_inv in Hd as [Hnd Hr]; [|constructor|constructor].
  destruct (foldl_insertWeekday wds []) as [H1 H2]; [constructor|done|by intros x _ []|].
  split; [exact H1|]. apply List.Forall_forall. intros x Hx.
  apply H2 in Hx as [[]|Hx]. rewrite List.Forall_forall in Hr. by apply Hr.
Qed.

End Weekdays.

(** ** Count honored *)

Section CountHonored.
Import GoTime domain engineFlat.

Variable tzdb : string -> option Location.

Lemma GenerateWeeklyOccurrences_Ok_iff (series : RecurringSeries.t)
  (windowStart windowEnd : Time) (occs : list RecurringOccurrence.t) :
  GenerateWeeklyOccurrences tzdb series windowStart windowEnd = Ok occs
  <-> exists loc wds,
        String.eqb (RecurringSeries.Frequency series) RecurrenceFrequencyWeekly = true
        /\ 0 < RecurringSeries.DurationSeconds series
        /\ tzdb (RecurringSeries.Timezone series) = Some loc
        /\ dedupWeekdays (RecurringSeries.ByWeekday series) [] = Some wds
        /\ wds <> []
        /\ weeksLoop series windowStart windowEnd loc (sortWeekdays wds)
             (weeksFuel series windowStart windowEnd loc)
             (startWeekIndex series windowStart loc) [] = Some occs.
Proof.
  unfold GenerateWeeklyOccurrences, LoadLocation.
  destruct (String.eqb _ _); cbn [negb].
  2:{ split; [done|]. by intros (? & ? & ? & _). }
  destruct (Z.leb_spec (RecurringSeries.DurationSeconds series) 0).
  { split; [done|]. intros (? & ? & _ & ? & _). lia. }
  destruct (tzdb _) as [loc|].
  2:{ split; [done|]. by intros (? & ? & _ & _ & ? & _). }
  destruct (dedupWeekdays _ _) as [wds|].
  2:{ split; [done|]. by intros (? & ? & _ & _ & _ & ? & _). }
  destruct wds as [|wd wds].
  { cbn. split; [done|]. by intros (? & ? & _ & _ & _ & [= <-] & ? & _). }
  cbn [length Nat.eqb]. split.
  - destruct (weeksLoop _ _ _ _ _ _ _ _) as [out|] eqn:Hl; [|done].
    intros [= <-]. exists loc, (wd :: wds). by split_and!.
  - intros (loc' & wds' & _ & _ & [= <-] & [= <-] & _ & ->). done.
Qed.

Lemma startWeekIndex_covered (series : RecurringSeries.t) (windowStart : Time)
  (loc : Location) :
  windowCoversStart loc series windowStart ->
  startWeekIndex series windowStart loc = 0.
Proof.
  intros [_ Hday]. unfold startWeekIndex, windowStartWeekMondayUTC,
    startWeekMondayUTC, dtstartLocal, After.
  rewrite !mondayDateUTC_mondayOf.
  pose proof (mondayOf_mono _ _ Hday) as Hm.
  destruct (Z.ltb_spec
              (mondayOf (dayOf loc (RecurringSeries.DTStart series))
               * secondsPerDay * Second)
              (mondayOf (dayOf loc windowStart) * secondsPerDay * Second));
    [|done].
  unfold secondsPerDay, Second in *. lia.
Qed.

(** C4.  The engine never emits an occurrence that starts before
    [dtstart].  For an interval below 2^32 (what a request or the column
    can carry; Go's [int] then holds every product of a week index, the
    interval and 7 that the scan forms), in a zone whose offsets span less
    than a day, when the window starts no later than [dtstart] and the
    expansion of the series without count over the window has at least [N]
    occurrences, the expansion with [count = N] consists of the first [N]
    of them, so it has exactly [N].  The count index of a candidate that
    does not start before [dtstart] is its rank among such candidates,
    for every interval and every week the scan starts at whose products
    fit Go's [int]: from week 0 the indices count from 0, from a later week
    [w0] they go on from the number of such candidates of the weeks before,
    [w0] times the weekdays per week minus the candidates of the first week
    that precede [dtstart]. *)
Theorem count_is_honored (s : RecurringSeries.t) (windowStart windowEnd : Time) :
  (forall occs,
     GenerateWeeklyOccurrences tzdb s windowStart windowEnd = Ok occs ->
     Forall (fun o => RecurringSeries.DTStart s <= RecurringOccurrence.StartTime o) occs)
  /\ (forall loc lo hi N all,
        RecurringSeries.Interval s < 2 ^ 32 ->
        tzdb (RecurringSeries.Timezone s) = Some loc ->
        offsetsWithin lo hi loc = true ->
        hi - lo < secondsPerDay ->
        windowCoversStart loc s windowStart ->
        RecurringSeries.DurationSeconds s * Second <= maxInt64 ->
        GenerateWeeklyOccurrences tzdb (setCount s None) windowStart windowEnd = Ok all ->
        0 <= N <= Z.of_nat (length all) ->
        GenerateWeeklyOccurrences tzdb (setCount s (Some N)) windowStart windowEnd
          = Ok (take (Z.to_nat N) all)
        /\ Z.of_nat (length (take (Z.to_nat N) all)) = N)
  /\ (forall loc lo hi wds fuel w0 out r,
        (w0 + Z.of_nat fuel) * interval s * 7 <= maxInt64 ->
        offsetsWithin lo hi loc = true ->
        hi - lo < secondsPerDay ->
        dedupWeekdays (RecurringSeries.ByWeekday s) [] = Some wds ->
        0 <= w0 ->
        weeksLoop s windowStart windowEnd loc (sortWeekdays wds) fuel w0 out = Some r ->
        r = outOf (run s windowStart windowEnd
                     (allCands s windowEnd loc (sortWeekdays wds) fuel w0) out)
        /\ ranked (RecurringSeries.DTStart s)
             (if w0 =? 0 then 0
              else w0 * occPerWeek (sortWeekdays wds)
                   - skippedInFirstWeek s loc (sortWeekdays wds))
             (allCands s windowEnd loc (sortWeekdays wds) fuel w0)).
Proof.
  split; [|split].
  - intros occs Hg.
    apply GenerateWeeklyOccurrences_emitted in Hg as (loc & _ & _ & Hem).
    eapply Forall_impl; [exact Hem|].
    intros o (day & -> & Hge & _). exact Hge.
  - intros loc lo hi N all _ Hloc Hw Hsp Hcover Hdur HU HN.
    split; [|rewrite length_take; lia].
    apply GenerateWeeklyOccurrences_Ok_iff in HU
      as (loc' & wds & Hf & Hd & Hloc' & Hdd & Hne & Hloop).
    cbn [setCount RecurringSeries.Frequency RecurringSeries.DurationSeconds
         RecurringSeries.Timezone RecurringSeries.ByWeekday] in Hf, Hd, Hloc', Hdd.
    rewrite Hloc in Hloc'. injection Hloc' as <-.
    apply GenerateWeeklyOccurrences_Ok_iff. exists loc, wds.
    do 5 (split; [done|]).
    destruct (normalized_weekdays _ _ Hdd) as [Hsorted Hrange].
    set (W := sortWeekdays wds) in *.
    change (weeksFuel (setCount s None) windowStart windowEnd loc)
      with (weeksFuel s windowStart windowEnd loc) in Hloop.
    change (weeksFuel (setCount s (Some N)) windowStart windowEnd loc)
      with (weeksFuel s windowStart windowEnd loc).
    change (startWeekIndex (setCount s None) windowStart loc)
      with (startWeekIndex s windowStart loc) in Hloop.
    change (startWeekIndex (setCount s (Some N)) windowStart loc)
      with (startWeekIndex s windowStart loc).
    rewrite (startWeekIndex_covered s windowStart loc Hcover) in *.
    set (fuel := weeksFuel s windowStart windowEnd loc) in *.
    destruct (weeksLoop_total (setCount s (Some N)) windowStart windowEnd loc W
                fuel 0 []) as [r Hr]; [done|unfold fuel, weeksFuel; lia| |].
    { change (startWeekMondayUTC (setCount s (Some N)) loc)
        with (startWeekMondayUTC s loc).
      pose proof (startWeekIndex_covered s windowStart loc Hcover) as H0.
      unfold fuel, weeksFuel. rewrite H0. lia. }
    rewrite Hr. f_equal.
    apply weeksLoop_run in Hr, Hloop.
    change (allCands (setCount s (Some N)) windowEnd loc W fuel 0)
      with (allCands s windowEnd loc W fuel 0) in Hr.
    change (allCands (setCount s None) windowEnd loc W fuel 0)
      with (allCands s windowEnd loc W fuel 0) in Hloop.
    rewrite Hr, Hloop.
    destruct (allCands_ranked s loc lo hi W windowEnd fuel Hw Hsp Hsorted Hrange)
      as [Hrank Hasc].
    apply (run_count_prefix s N windowStart windowEnd _ [] 0); try done.
    + apply Hcover.
    + unfold duration. rewrite wrap64_inRange; [unfold Second; lia|].
      unfold spec.inRange, minInt64, Second in *. lia.
    + by left.
    + cbn. lia.
    + rewrite <- Hloop. lia.
  - intros loc lo hi wds fuel w0 out r _ Hw Hsp Hdd Hw0 Hloop.
    split; [by apply weeksLoop_run|].
    destruct (normalized_weekdays _ _ Hdd) as [Hsorted Hrange].
    destruct (Z.eqb_spec w0 0) as [->|Hne].
    + by apply (allCands_ranked s loc lo hi).
    + apply (allCands_ranked_from s loc lo hi); try done. lia.
Qed.

End CountHonored.

Lemma count_is_honored_witness :
  exists all,
    domain.GenerateWeeklyOccurrences tzdata.tzdb
      (engineFlat.setCount countSamples.biweekly None)
      countSamples.windowStart countSamples.windowEnd = Ok all
    /\ 5 < Z.of_nat (length all)
    /\ domain.GenerateWeeklyOccurrences tzdata.tzdb
         (engineFlat.setCount countSamples.biweekly (Some 5))
         countSamples.windowStart countSamples.windowEnd = Ok (take 5 all)
    /\ Z.of_nat (length (take 5 all)) = 5.
Proof.
  destruct (domain.GenerateWeeklyOccurrences tzdata.tzdb
              (engineFlat.setCount countSamples.biweekly None)
              countSamples.windowStart countSamples.windowEnd) as [all|e] eqn:HU;
    [|vm_compute in HU; discriminate HU].
  assert (Hlen : 5 < Z.of_nat (length all)).
  { pose proof HU as HU'. vm_compute in HU'. injection HU' as <-.
    vm_compute. reflexivity. }
  exists all. split; [reflexivity|]. split; [exact Hlen|].
  apply (proj1 (proj2 (count_is_honored tzdata.tzdb countSamples.biweekly
                         countSamples.windowStart countSamples.windowEnd))
           tzdata.NewYork (-18000) (-14400) 5 all).
  - vm_compute. reflexivity.
  - reflexivity.
  - vm_compute. reflexivity.
  - vm_compute. reflexivity.
  - split; vm_compute; discriminate.
  - vm_compute. discriminate.
  - exact HU.
  - lia.
Defined.

(** * Further properties of the store, the engine and the service *)

(** ** The [appointments] relation *)

Section Appointments.
Import GoTime domain postgres storeSpec createSpec.

Lemma clash_sym a b : clash a b -> clash b a.
Proof. unfold clash. intuition. Qed.

Lemma existsb_clash (rows : list Appointment.t) (m : Appointment.t) :
  existsb (fun r =>
     String.eqb (Appointment.UserID r) (Appointment.UserID m) &&
     rangesOverlap (Appointment.StartTime r) (Appointment.EndTime r)
       (Appointment.StartTime m) (Appointment.EndTime m)) rows = true
  <-> exists r, In r rows /\ clash r m.
Proof.
  rewrite existsb_exists. unfold clash, rangesOverlap.
  split; intros (r & Hr & H); exists r; (split; [done|]).
  - apply andb_prop in H as [Hu H]. apply andb_prop in H as [H1 H2].
    apply String.eqb_eq in Hu. split; [done|]. lia.
  - destruct H as (Hu & H1 & H2). apply andb_true_intro. split.
    + by apply String.eqb_eq.
    + apply andb_true_intro. split; lia.
Qed.

Lemma existsb_id (rows : list Appointment.t) (id : uuid.UUID) :
  existsb (fun r => bool_decide (Appointment.ID r = id)) rows = true
  <-> In id (List.map Appointment.ID rows).
Proof.
  rewrite existsb_exists, List.in_map_iff.
  split; intros (r & H1 & H2); exists r.
  - apply bool_decide_eq_true_1 in H2. done.
  - split; [done|]. by apply bool_decide_eq_true_2.
Qed.

(** The insert of a model with a non-empty range. *)
Lemma insertAppointment_cases (db : DB) (m : Appointment.t) :
  Appointment.StartTime m < Appointment.EndTime m ->
  (In (Appointment.ID m) (List.map Appointment.ID (appointments db))
   /\ insertAppointment db m = inr ("23505", "appointments_pkey")%string)
  \/ (~ In (Appointment.ID m) (List.map Appointment.ID (appointments db))
      /\ (exists r, In r (appointments db) /\ clash r m)
      /\ insertAppointment db m = inr ("23P01", "appointments_no_overlap")%string)
  \/ (~ In (Appointment.ID m) (List.map Appointment.ID (appointments db))
      /\ (forall r, In r (appointments db) -> ~ clash r m)
      /\ insertAppointment db m
         = inl (mkDB (appointments db ++ [m]) (recurring_series db)
                  (recurring_exceptions db))).
Proof.
  intros Hr. unfold insertAppointment.
  destruct (Z.ltb_spec (Appointment.StartTime m) (Appointment.EndTime m)); [|lia].
  cbn [negb].
  destruct (existsb (fun r => bool_decide (Appointment.ID r = Appointment.ID m)) _) eqn:Hid.
  { left. split; [|done]. by apply existsb_id. }
  assert (~ In (Appointment.ID m) (List.map Appointment.ID (appointments db))).
  { rewrite <- existsb_id. by rewrite Hid. }
  destruct (existsb (fun r => String.eqb _ _ && _) _) eqn:Hc.
  - right. left. split; [done|]. split; [|done]. by apply existsb_clash.
  - right. right. split; [done|]. split; [|done].
    intros r Hin Hcl. assert (Hex : exists r, In r (appointments db) /\ clash r m) by eauto.
    apply existsb_clash in Hex. congruence.
Qed.


Lemma hook_payload env appt :
  let m := Appointment_BeforeAppendModel env appt in
  Appointment.UserID m = Appointment.UserID appt
  /\ Appointment.Title m = Appointment.Title appt
  /\ Appointment.Notes m = Appointment.Notes appt
  /\ Appointment.StartTime m = Appointment.StartTime appt
  /\ Appointment.EndTime m = Appointment.EndTime appt.
Proof. done. Qed.




Lemma ForallOrdPairs_snoc {A} (R : A -> A -> Prop) (l : list A) (x : A) :
  ForallOrdPairs R l -> (forall y, In y l -> R y x) -> ForallOrdPairs R (l ++ [x]).
Proof.
  induction 1 as [|a l Ha Hl IH]; intros Hx; cbn.
  - repeat constructor.
  - constructor.
    + apply List.Forall_app. split; [done|]. constructor; [|done]. apply Hx. by left.
    + apply IH. intros y Hy. apply Hx. by right.
Qed.

Lemma ForallOrdPairs_filter {A} (R : A -> A -> Prop) (f : A -> bool) (l : list A) :
  ForallOrdPairs R l -> ForallOrdPairs R (List.filter f l).
Proof.
  induction 1 as [|a l Ha Hl IH]; cbn; [constructor|].
  destruct (f a); [|done]. constructor; [|done].
  apply List.Forall_forall. intros y Hy. apply List.filter_In in Hy as [Hy _].
  rewrite List.Forall_forall in Ha. by apply Ha.
Qed.

Lemma NoDup_map_filter {A B} (g : A -> B) (f : A -> bool) (l : list A) :
  NoDup (List.map g l) -> NoDup (List.map g (List.filter f l)).
Proof.
  induction l as [|a l IH]; cbn; [done|].
  intros [Ha Hl]%NoDup_cons. destruct (f a); [|by apply IH].
  cbn. apply NoDup_cons. split; [|by apply IH].
  intros Hin. apply Ha. apply list_elem_of_In in Hin. apply list_elem_of_In.
  apply List.in_map_iff in Hin as (y & <- & Hy). apply List.filter_In in Hy as [Hy _].
  by apply List.in_map.
Qed.

Lemma CreateAppointment_cases env db appt db' r :
  CreateAppointment env db appt = (db', r) ->
  db' = db
  \/ (db' = mkDB (appointments db ++ [Appointment_BeforeAppendModel env appt])
              (recurring_series db) (recurring_exceptions db)
      /\ insertAppointment db (Appointment_BeforeAppendModel env appt) = inl db').
Proof.
  unfold CreateAppointment. rewrite hook_copy.
  destruct (insertAppointment db _) as [db1|[code cn]] eqn:Hi.
  - intros [= <- <-]. right. split; [|done].
    apply insertAppointment_inl in Hi as (H1 & H2 & H3 & _).
    destruct db1. cbn in *. by subst.
  - destruct (_ && _); [intros [= <- _]; by left|].
    destruct (String.eqb code _); intros [= <- _]; by left.
Qed.

(** X2.  The operations on the [appointments] relation keep its invariants:
    after [CreateAppointment] or [DeleteAppointment], whatever the result,
    every stored range is non-empty, the ids are distinct and no two
    appointments of one user overlap. *)
Theorem appointments_stay_overlap_free (env : HookEnv) (db : DB) :
  wellFormed db ->
  (forall appt db' r,
     CreateAppointment env db appt = (db', r) -> wellFormed db')
  /\ (forall userID id db' r,
        DeleteAppointment db userID id = (db', r) -> wellFormed db').
Proof.
  intros (Hv & Hid & Hov). split.
  - intros appt db' r Hc.
    apply CreateAppointment_cases in Hc as [->|[-> Hi]]; [done|].
    set (m := Appointment_BeforeAppendModel env appt) in *.
    pose proof (insertAppointment_inl _ _ _ Hi) as (_ & _ & _ & _ & Hr).
    destruct (insertAppointment_cases db m Hr) as [[_ Hi']|[(_ & _ & Hi')|(Hn & Hc & _)]];
      [congruence|congruence|].
    unfold wellFormed. cbn [appointments]. split_and!.
    + apply List.Forall_app. split; [done|]. by constructor.
    + rewrite List.map_app. cbn. apply NoDup_app. split; [done|].
      split; [|apply NoDup_singleton].
      intros x Hx ->%list_elem_of_singleton. apply Hn. by apply list_elem_of_In.
    + apply ForallOrdPairs_snoc; [done|]. exact Hc.
  - intros userID id db' r. unfold DeleteAppointment.
    destruct (_ =? _)%nat; intros [= <- _]; [done|].
    unfold wellFormed. cbn [appointments]. split_and!.
    + apply List.Forall_forall. intros a Ha. apply List.filter_In in Ha as [Ha _].
      rewrite List.Forall_forall in Hv. by apply Hv.
    + by apply NoDup_map_filter.
    + by apply ForallOrdPairs_filter.
Qed.





Lemma DeleteAppointment_spec (db : DB) (userID : string) (id : uuid.UUID) :
  let hit := exists a, In a (appointments db)
                       /\ Appointment.UserID a = userID /\ Appointment.ID a = id in
  (~ hit /\ DeleteAppointment db userID id = (db, Fail ErrNotFound))
  \/ (hit /\ DeleteAppointment db userID id
             = (mkDB (List.filter (fun r => negb (appointmentHit userID id r))
                        (appointments db))
                  (recurring_series db) (recurring_exceptions db), Ok tt)).
Proof.
  intros hit. unfold DeleteAppointment.
  destruct (List.filter (appointmentHit userID id) (appointments db)) as [|a l] eqn:Hf.
  - left. split; [|done]. intros (a & Ha & Hu & Hi).
    assert (In a (List.filter (appointmentHit userID id) (appointments db))).
    { apply List.filter_In. split; [done|]. unfold appointmentHit.
      apply andb_true_intro. split; [by apply String.eqb_eq|by apply bool_decide_eq_true_2]. }
    rewrite Hf in H. done.
  - right. split; [|done]. exists a.
    assert (Ha : In a (List.filter (appointmentHit userID id) (appointments db)))
      by (rewrite Hf; by left).
    apply List.filter_In in Ha as [Ha Hh]. unfold appointmentHit in Hh.
    apply andb_prop in Hh as [Hu Hi]. apply String.eqb_eq in Hu.
    apply bool_decide_eq_true_1 in Hi. done.
Qed.

Lemma appointmentHit_iff userID id r :
  appointmentHit userID id r = true
  <-> Appointment.UserID r = userID /\ Appointment.ID r = id.
Proof.
  unfold appointmentHit. rewrite andb_true_iff, String.eqb_eq, bool_decide_eq_true. done.
Qed.

(** X4.  [DeleteAppointment] returns [ErrNotFound], and changes nothing,
    exactly when the user has no appointment with the id - so also when the
    id belongs to another user.  Otherwise it succeeds and removes the
    appointments with that user and id and nothing else: every other
    appointment, every series and every exception stays. *)
Theorem DeleteAppointment_removes_only_the_named_row
  (db : DB) (userID : string) (id : uuid.UUID) :
  let hit := exists a, In a (appointments db)
                       /\ Appointment.UserID a = userID /\ Appointment.ID a = id in
  (forall db', DeleteAppointment db userID id = (db', Fail ErrNotFound)
               <-> db' = db /\ ~ hit)
  /\ (hit ->
      exists db',
        DeleteAppointment db userID id = (db', Ok tt)
        /\ (forall a, In a (appointments db')
                      <-> In a (appointments db)
                          /\ ~ (Appointment.UserID a = userID /\ Appointment.ID a = id))
        /\ recurring_series db' = recurring_series db
        /\ recurring_exceptions db' = recurring_exceptions db).
Proof.
  intros hit. destruct (DeleteAppointment_spec db userID id) as [[Hn ->]|[Hh ->]].
  - split; [|done]. intros db'. split; [by intros [= <-]|by intros [-> _]].
  - split; [intros db'; split; [done|tauto]|]. intros _. eexists. split; [done|].
    cbn [appointments recurring_series recurring_exceptions]. split; [|done].
    intros a. rewrite List.filter_In, negb_true_iff, <- not_true_iff_false,
      appointmentHit_iff. done.
Qed.

Lemma filter_all {A} (f : A -> bool) (l : list A) :
  (forall x, In x l -> f x = true) -> List.filter f l = l.
Proof.
  induction l as [|a l IH]; intros H; cbn; [done|].
  rewrite (H a) by (by left). f_equal. apply IH. intros x Hx. apply H. by right.
Qed.

(** X5.  Deleting an appointment that [CreateAppointment] has just inserted
    under an id that was not stored before gives back the database as it
    was before the insert. *)
Theorem delete_undoes_create
  (env : HookEnv) (db db' : DB) (appt a : Appointment.t) :
  ~ In (Appointment.ID (Appointment_BeforeAppendModel env appt))
       (List.map Appointment.ID (appointments db)) ->
  CreateAppointment env db appt = (db', Ok a) ->
  DeleteAppointment db' (Appointment.UserID a) (Appointment.ID a) = (db, Ok tt).
Proof.
  intros Hn Hc. set (m := Appointment_BeforeAppendModel env appt) in *.
  pose proof Hc as Hc'. apply CreateAppointment_cases in Hc' as [->|[-> Hi]].
  - exfalso. unfold CreateAppointment in Hc. rewrite hook_copy in Hc. fold m in Hc.
    destruct (insertAppointment db m) as [db1|[code cn]] eqn:Hi.
    + injection Hc as Hdb _. apply insertAppointment_inl in Hi as (Hi & _).
      rewrite <- Hdb in Hi. apply (f_equal (@length _)) in Hi.
      rewrite length_app in Hi. cbn in Hi. lia.
    + destruct (_ && _); [done|]. destruct (String.eqb code _); [|done].
      destruct (selectAppointmentByID db (Appointment.ID m)) as [row|] eqn:Hs; [|done].
      apply Hn. unfold selectAppointmentByID in Hs.
      apply List.find_some in Hs as [Hrow Hid]. apply bool_decide_eq_true_1 in Hid.
      rewrite <- Hid. by apply List.in_map.
  - rewrite (CreateAppointment_fresh env db appt _ Hi) in Hc.
    injection Hc as Ha.
    assert (Hu : Appointment.UserID a = Appointment.UserID appt) by (by rewrite <- Ha).
    assert (Hida : Appointment.ID a = Appointment.ID m) by (by rewrite <- Ha).
    rewrite Hu, Hida. clear Ha Hu Hida.
    remember (Appointment.ID m) as idm eqn:Hidm.
    fold m. remember m as m' eqn:Hm'. fold m in Hi. rewrite <- Hm' in Hi.
    unfold DeleteAppointment. cbn [appointments recurring_series recurring_exceptions].
    rewrite !List.filter_app. cbn [List.filter].
    assert (Hm : appointmentHit (Appointment.UserID appt) idm m' = true).
    { apply appointmentHit_iff. by subst. }
    rewrite Hm. cbn [negb]. rewrite length_app. cbn [length].
    destruct (_ =? 0)%nat eqn:E; [apply Nat.eqb_eq in E; lia|].
    rewrite app_nil_r, filter_all; [by destruct db|].
    intros x Hx. apply negb_true_iff, not_true_iff_false. intros [_ Hid]%appointmentHit_iff.
    apply Hn. rewrite <- Hid. by apply List.in_map.
Qed.

Lemma ForallOrdPairs_pair {A} (R : A -> A -> Prop) (l : list A) (x y : A) :
  ForallOrdPairs R l -> In x l -> In y l -> x = y \/ R x y \/ R y x.
Proof. intros H Hx Hy. by apply (ForallOrdPairs_In H). Qed.

Lemma CreateAppointment_free env db appt :
  Appointment.StartTime appt < Appointment.EndTime appt ->
  ~ In (Appointment.ID (Appointment_BeforeAppendModel env appt))
       (List.map Appointment.ID (appointments db)) ->
  (forall r, In r (appointments db) -> ~ clash r appt) ->
  CreateAppointment env db appt
  = (mkDB (appointments db ++ [Appointment_BeforeAppendModel env appt])
       (recurring_series db) (recurring_exceptions db),
     Ok (setAppointmentID appt
           (Appointment.ID (Appointment_BeforeAppendModel env appt)))).
Proof.
  intros Hr Hn Hfree. set (m := Appointment_BeforeAppendModel env appt) in *.
  destruct (insertAppointment_cases db m Hr) as [[Hin Hi]|[(_ & Hc & Hi)|(_ & Hc & Hi)]].
  - done.
  - destruct Hc as (r & Hr1 & Hcl). by destruct (Hfree r Hr1).
  - unfold CreateAppointment. rewrite hook_copy. fold m. by rewrite Hi.
Qed.

(** X6.  Deleting an appointment frees its slot: in a database that satisfies
    the invariants of the relation, once an appointment is deleted an
    appointment of the same user within the range of the deleted one, with
    a start and an end that are whole microseconds and under an id that is
    not stored, is accepted, and a row with its id, user, title, notes,
    start and end is stored. *)
Theorem delete_frees_the_slot
  (env : HookEnv) (db db' : DB) (a appt : Appointment.t) :
  wellFormed db ->
  In a (appointments db) ->
  DeleteAppointment db (Appointment.UserID a) (Appointment.ID a) = (db', Ok tt) ->
  Appointment.UserID appt = Appointment.UserID a ->
  wholeMicros (Appointment.StartTime appt) ->
  wholeMicros (Appointment.EndTime appt) ->
  Appointment.StartTime a <= Appointment.StartTime appt ->
  Appointment.StartTime appt < Appointment.EndTime appt ->
  Appointment.EndTime appt <= Appointment.EndTime a ->
  ~ In (Appointment.ID (Appointment_BeforeAppendModel env appt))
       (List.map Appointment.ID (appointments db')) ->
  exists db'' row,
    CreateAppointment env db' appt
    = (db'', Ok (setAppointmentID appt
                   (Appointment.ID (Appointment_BeforeAppendModel env appt))))
    /\ In row (appointments db'')
    /\ Appointment.ID row = Appointment.ID (Appointment_BeforeAppendModel env appt)
    /\ samePayload row appt.
Proof.
  intros (Hv & Hid & Hov) Ha Hd Hu _ _ H1 H2 H3 Hn.
  destruct (DeleteAppointment_spec db (Appointment.UserID a) (Appointment.ID a))
    as [[_ Hd']|[_ Hd']]; rewrite Hd' in Hd; [done|].
  injection Hd as <-. eexists. exists (Appointment_BeforeAppendModel env appt). split.
  - apply CreateAppointment_free; [done|done|].
    cbn [appointments]. intros r Hr (Hru & Hc1 & Hc2).
    apply List.filter_In in Hr as [Hr Hh].
    apply negb_true_iff, not_true_iff_false in Hh. rewrite appointmentHit_iff in Hh.
    assert (Hra : r <> a) by (intros ->; by apply Hh).
    destruct (ForallOrdPairs_pair _ _ r a Hov Hr Ha) as [?|[Hc|Hc]]; [done| |];
      apply Hc; unfold clash; (split; [congruence|lia]).
  - split; [|done]. cbn [appointments]. apply in_or_app. right. by left.
Qed.

End Appointments.

(** ** Recurring series and their exceptions *)

Section Exceptions.
Import GoTime domain postgres seriesSpec.

Lemma sameOccurrence_iff m r :
  sameOccurrence m r = true <-> occurrenceKey r = occurrenceKey m.
Proof.
  unfold sameOccurrence, occurrenceKey.
  rewrite andb_true_iff, bool_decide_eq_true, Z.eqb_eq. split.
  - by intros [-> ->].
  - by intros [= -> ->].
Qed.

Lemma exception_hook_fields env e :
  let m := RecurringException_BeforeAppendModel env e in
  RecurringException.SeriesID m = RecurringException.SeriesID e
  /\ RecurringException.OccurrenceStart m = RecurringException.OccurrenceStart e
  /\ RecurringException.Kind m = RecurringException.Kind e
  /\ RecurringException.OverrideStart m = RecurringException.OverrideStart e
  /\ RecurringException.OverrideEnd m = RecurringException.OverrideEnd e
  /\ RecurringException.OverrideTitle m = RecurringException.OverrideTitle e
  /\ RecurringException.OverrideNotes m = RecurringException.OverrideNotes e
  /\ occurrenceKey m = occurrenceKey e.
Proof. done. Qed.

Lemma exception_hook_copy env ex :
  RecurringException_BeforeAppendModel env
    (RecurringException.mk (RecurringException.ID ex)
       (RecurringException.SeriesID ex) (RecurringException.OccurrenceStart ex)
       (RecurringException.Kind ex) (RecurringException.OverrideStart ex)
       (RecurringException.OverrideEnd ex) (RecurringException.OverrideTitle ex)
       (RecurringException.OverrideNotes ex) (RecurringException.CreatedAt ex)
       (RecurringException.UpdatedAt ex))
  = RecurringException_BeforeAppendModel env ex.
Proof. by destruct ex. Qed.

(** The three ways [UpsertRecurringException] ends. *)
Lemma UpsertRecurringException_cases env db ex :
  let m := RecurringException_BeforeAppendModel env ex in
  let keyed := exists r, In r (recurring_exceptions db)
                         /\ occurrenceKey r = occurrenceKey ex in
  (keyed
   /\ UpsertRecurringException env db ex
      = (mkDB (appointments db) (recurring_series db)
           (List.map (fun r => if sameOccurrence m r then updateException r m else r)
              (recurring_exceptions db)), Ok m))
  \/ (~ keyed
      /\ In (RecurringException.ID m)
            (List.map RecurringException.ID (recurring_exceptions db))
      /\ UpsertRecurringException env db ex
         = (db, Fail (PgError "23505" "recurring_exceptions_pkey")))
  \/ (~ keyed
      /\ ~ In (RecurringException.ID m)
              (List.map RecurringException.ID (recurring_exceptions db))
      /\ ~ In (RecurringException.SeriesID ex)
              (List.map RecurringSeries.ID (recurring_series db))
      /\ UpsertRecurringException env db ex
         = (db, Fail (PgError "23503" "recurring_exceptions_series_id_fkey")))
  \/ (~ keyed
      /\ ~ In (RecurringException.ID m)
              (List.map RecurringException.ID (recurring_exceptions db))
      /\ In (RecurringException.SeriesID ex)
            (List.map RecurringSeries.ID (recurring_series db))
      /\ UpsertRecurringException env db ex
         = (mkDB (appointments db) (recurring_series db)
              (recurring_exceptions db ++ [m]), Ok m)).
Proof.
  intros m keyed. unfold UpsertRecurringException. rewrite exception_hook_copy. fold m.
  assert (Hk : existsb (sameOccurrence m) (recurring_exceptions db) = true <-> keyed).
  { rewrite existsb_exists. unfold keyed.
    split; intros (r & Hr & H); exists r; (split; [done|]).
    - by apply sameOccurrence_iff in H.
    - by apply sameOccurrence_iff. }
  destruct (existsb (sameOccurrence m) _).
  { left. split; [by apply Hk|done]. }
  assert (~ keyed) by (rewrite <- Hk; done). right.
  assert (Hi : existsb (fun r => bool_decide (RecurringException.ID r = RecurringException.ID m))
                 (recurring_exceptions db) = true
               <-> In (RecurringException.ID m)
                     (List.map RecurringException.ID (recurring_exceptions db))).
  { rewrite existsb_exists, List.in_map_iff.
    split; intros (r & H1 & H2); exists r.
    - apply bool_decide_eq_true_1 in H2. done.
    - split; [done|]. by apply bool_decide_eq_true_2. }
  destruct (existsb (fun r => bool_decide (RecurringException.ID r = _)) _).
  { left. split; [done|]. split; [by apply Hi|done]. }
  assert (~ In (RecurringException.ID m)
               (List.map RecurringException.ID (recurring_exceptions db)))
    by (rewrite <- Hi; done).
  right.
  assert (Hs : existsb (fun s => bool_decide (RecurringSeries.ID s
                                              = RecurringException.SeriesID m))
                 (recurring_series db) = true
               <-> In (RecurringException.SeriesID ex)
                     (List.map RecurringSeries.ID (recurring_series db))).
  { rewrite existsb_exists, List.in_map_iff.
    split; intros (r & H1 & H2); exists r.
    - apply bool_decide_eq_true_1 in H2. done.
    - split; [done|]. by apply bool_decide_eq_true_2. }
  destruct (existsb (fun s => bool_decide (RecurringSeries.ID s = _)) _); cbn [negb].
  - right. split_and!; [done|done|by apply Hs|done].
  - left. split_and!; [done|done|rewrite <- Hs; done|done].
Qed.

Lemma NoDup_map_eq {A B} (f : A -> B) (l : list A) (a b : A) :
  NoDup (List.map f l) -> In a l -> In b l -> f a = f b -> a = b.
Proof.
  induction l as [|x l IH]; cbn; [done|].
  intros [Hx Hl]%NoDup_cons [<-|Ha] [<-|Hb] Hf.
  - done.
  - exfalso. apply Hx. rewrite Hf. apply list_elem_of_In. by apply List.in_map.
  - exfalso. apply Hx. rewrite <- Hf. apply list_elem_of_In. by apply List.in_map.
  - by apply IH.
Qed.

Lemma map_update_key {B} (f : RecurringException.t -> B) m l :
  (forall r, f (updateException r m) = f r) ->
  List.map f (List.map (fun r => if sameOccurrence m r then updateException r m else r) l)
  = List.map f l.
Proof.
  intros Hf. rewrite List.map_map. apply List.map_ext. intros r.
  destruct (sameOccurrence m r); [apply Hf|done].
Qed.

Lemma ListRecurringExceptions_In db sid ws we e :
  In e (ListRecurringExceptions db sid ws we)
  <-> In e (recurring_exceptions db)
      /\ RecurringException.SeriesID e = sid
      /\ ws <= RecurringException.OccurrenceStart e < we.
Proof.
  unfold ListRecurringExceptions.
  rewrite List.filter_In, !andb_true_iff, bool_decide_eq_true, Z.leb_le, Z.ltb_lt.
  tauto.
Qed.

Lemma upsert_lookup
  (env : HookEnv) (db db' : DB) (ex r : RecurringException.t) (ws we : Time) :
  NoDup (List.map occurrenceKey (recurring_exceptions db)) ->
  UpsertRecurringException env db ex = (db', Ok r) ->
  ws <= RecurringException.OccurrenceStart ex < we ->
  (exists row,
     In row (ListRecurringExceptions db' (RecurringException.SeriesID ex) ws we)
     /\ RecurringException.OccurrenceStart row = RecurringException.OccurrenceStart ex
     /\ RecurringException.Kind row = RecurringException.Kind ex
     /\ RecurringException.OverrideStart row = RecurringException.OverrideStart ex
     /\ RecurringException.OverrideEnd row = RecurringException.OverrideEnd ex
     /\ RecurringException.OverrideTitle row = RecurringException.OverrideTitle ex
     /\ RecurringException.OverrideNotes row = RecurringException.OverrideNotes ex
     /\ forall row',
          In row' (ListRecurringExceptions db' (RecurringException.SeriesID ex) ws we) ->
          RecurringException.OccurrenceStart row'
            = RecurringException.OccurrenceStart ex ->
          row' = row)
  /\ (forall sid ws' we' e,
        occurrenceKey e <> occurrenceKey ex ->
        In e (ListRecurringExceptions db' sid ws' we')
        <-> In e (ListRecurringExceptions db sid ws' we')).
Proof.
  intros Hnd Hup Hw. set (m := RecurringException_BeforeAppendModel env ex).
  destruct (UpsertRecurringException_cases env db ex)
    as [[Hk Hu]|[(_ & _ & Hu)|[(_ & _ & _ & Hu)|(Hk & _ & _ & Hu)]]];
    rewrite Hu in Hup; try done; injection Hup as <- <-; fold m.
  - (* updated in place *)
    destruct Hk as (old & Hold & Hkey).
    assert (Hkeys : List.map occurrenceKey
                      (List.map (fun r => if sameOccurrence m r
                                          then updateException r m else r)
                         (recurring_exceptions db))
                    = List.map occurrenceKey (recurring_exceptions db))
      by (by apply map_update_key).
    assert (Hin : In (updateException old m)
                    (List.map (fun r => if sameOccurrence m r
                                        then updateException r m else r)
                       (recurring_exceptions db))).
    { apply List.in_map_iff. exists old. split; [|done].
      assert (sameOccurrence m old = true) as -> by (by apply sameOccurrence_iff).
      done. }
    injection Hkey as Hk1 Hk2.
    split.
    + exists (updateException old m). split_and!; try done.
      * apply ListRecurringExceptions_In. cbn [recurring_exceptions].
        split; [done|]. cbn. split; [done|lia].
      * intros row' Hrow' Hos. apply ListRecurringExceptions_In in Hrow' as (Hr & Hsid & _).
        cbn [recurring_exceptions] in Hr.
        eapply (NoDup_map_eq occurrenceKey); [rewrite Hkeys; exact Hnd|done|done|].
        unfold occurrenceKey. cbn. congruence.
    + intros sid ws' we' e Hne. rewrite !ListRecurringExceptions_In.
      cbn [recurring_exceptions]. rewrite List.in_map_iff.
      split.
      * intros ((r0 & Hr0 & Hin0) & H2). split; [|done].
        destruct (sameOccurrence m r0) eqn:E; [|by subst].
        exfalso. apply Hne. subst e. apply sameOccurrence_iff in E.
        unfold occurrenceKey in *. cbn. done.
      * intros [He H2]. split; [|done]. exists e. split; [|done].
        destruct (sameOccurrence m e) eqn:E; [|done].
        exfalso. apply Hne. by apply sameOccurrence_iff in E.
  - (* inserted *)
    split.
    + exists m. split_and!; try done.
      * apply ListRecurringExceptions_In. cbn [recurring_exceptions].
        split; [apply in_or_app; right; by left|]. done.
      * intros row' Hrow' Hos. apply ListRecurringExceptions_In in Hrow' as (Hr & Hsid & _).
        cbn [recurring_exceptions] in Hr. apply in_app_or in Hr as [Hr|[<-|[]]]; [|done].
        exfalso. apply Hk. exists row'. split; [done|]. unfold occurrenceKey. congruence.
    + intros sid ws' we' e Hne. rewrite !ListRecurringExceptions_In.
      cbn [recurring_exceptions]. rewrite List.in_app_iff. cbn [In].
      split; [|tauto]. intros [[He|[<-|[]]] H2]; [done|]. by destruct Hne.
Qed.




End Exceptions.

Section SeriesStore.
Import GoTime domain postgres seriesSpec.

Lemma seriesHit_iff userID id r :
  seriesHit userID id r = true
  <-> RecurringSeries.UserID r = userID /\ RecurringSeries.ID r = id.
Proof.
  unfold seriesHit. rewrite andb_true_iff, String.eqb_eq, bool_decide_eq_true. done.
Qed.

Lemma DeleteRecurringSeries_spec (db : DB) (userID : string) (id : uuid.UUID) :
  let hit := exists s, In s (recurring_series db)
                       /\ RecurringSeries.UserID s = userID
                       /\ RecurringSeries.ID s = id in
  (~ hit /\ DeleteRecurringSeries db userID id = (db, Fail ErrNotFound))
  \/ (hit /\ DeleteRecurringSeries db userID id
             = (mkDB (appointments db)
                  (List.filter (fun r => negb (seriesHit userID id r))
                     (recurring_series db))
                  (List.filter (fun e => negb (bool_decide
                                  (RecurringException.SeriesID e = id)))
                     (recurring_exceptions db)), Ok tt)).
Proof.
  intros hit. unfold DeleteRecurringSeries.
  destruct (List.filter (seriesHit userID id) (recurring_series db)) as [|a l] eqn:Hf.
  - left. split; [|done]. intros (a & Ha & Hu & Hi).
    assert (In a (List.filter (seriesHit userID id) (recurring_series db))).
    { apply List.filter_In. split; [done|]. by apply seriesHit_iff. }
    rewrite Hf in H. done.
  - right. split; [|done]. exists a.
    assert (Ha : In a (List.filter (seriesHit userID id) (recurring_series db)))
      by (rewrite Hf; by left).
    apply List.filter_In in Ha as [Ha Hh]. apply seriesHit_iff in Hh. tauto.
Qed.



Lemma NoDup_map_snoc {A B} (g : A -> B) (l : list A) (x : A) :
  NoDup (List.map g l) -> ~ In (g x) (List.map g l) -> NoDup (List.map g (l ++ [x])).
Proof.
  intros Hl Hx. rewrite List.map_app. cbn. apply NoDup_app. split; [done|].
  split; [|apply NoDup_singleton].
  intros y Hy ->%list_elem_of_singleton. apply Hx. by apply list_elem_of_In.
Qed.

Lemma CreateRecurringSeries_cases env db series :
  let m := RecurringSeries_BeforeAppendModel env series in
  CreateRecurringSeries env db series = (db, Fail (PgError "22003" EmptyString))
  \/ (In (RecurringSeries.ID m) (List.map RecurringSeries.ID (recurring_series db))
      /\ CreateRecurringSeries env db series
         = (db, Fail (PgError "23505" "recurring_series_pkey")))
  \/ (~ In (RecurringSeries.ID m) (List.map RecurringSeries.ID (recurring_series db))
      /\ exists s,
           CreateRecurringSeries env db series
           = (mkDB (appointments db) (recurring_series db ++ [m])
                (recurring_exceptions db), Ok s)
           /\ RecurringSeries.ID s = RecurringSeries.ID m).
Proof.
  intros m. unfold CreateRecurringSeries. fold m.
  destruct (negb _); [by left|]. right.
  assert (Hi : existsb (fun r => bool_decide (RecurringSeries.ID r = RecurringSeries.ID m))
                 (recurring_series db) = true
               <-> In (RecurringSeries.ID m)
                     (List.map RecurringSeries.ID (recurring_series db))).
  { rewrite existsb_exists, List.in_map_iff.
    split; intros (r & H1 & H2); exists r.
    - apply bool_decide_eq_true_1 in H2. done.
    - split; [done|]. by apply bool_decide_eq_true_2. }
  destruct (existsb _ _).
  - left. split; [by apply Hi|done].
  - right. split; [rewrite <- Hi; done|]. eexists. split; [done|done].
Qed.

(** X10.  The operations on recurring series and their exceptions keep the
    invariants of the two relations: after the insert of a series, an
    upsert of an exception or the deletion of a series, whatever the result,
    the series ids are distinct, the exception ids are distinct, there is at
    most one exception per series and occurrence start, and every exception
    refers to a stored series. *)
Theorem series_relations_stay_well_formed (env : HookEnv) (db : DB) :
  wellFormed db ->
  (forall series db' r,
     CreateRecurringSeries env db series = (db', r) -> wellFormed db')
  /\ (forall ex db' r,
        UpsertRecurringException env db ex = (db', r) -> wellFormed db')
  /\ (forall userID id db' r,
        DeleteRecurringSeries db userID id = (db', r) -> wellFormed db').
Proof.
  intros (Hs & Hi & Hk & Hfk). split_and!.
  - intros series db' r Hc.
    destruct (CreateRecurringSeries_cases env db series)
      as [Hu|[[_ Hu]|(Hn & s & Hu & _)]];
      rewrite Hu in Hc; injection Hc as <- _; [done|done|].
    unfold wellFormed. cbn [recurring_series recurring_exceptions].
    split_and!; [by apply NoDup_map_snoc|done|done|].
    eapply Forall_impl; [exact Hfk|]. intros e He. cbn beta in *.
    rewrite List.map_app. apply in_or_app. by left.
  - intros ex db' r Hc. set (m := RecurringException_BeforeAppendModel env ex).
    destruct (UpsertRecurringException_cases env db ex)
      as [[Hkd Hu]|[(_ & _ & Hu)|[(_ & _ & _ & Hu)|(Hkd & Ht & Hkn & Hu)]]];
      rewrite Hu in Hc; injection Hc as <- _; try done.
    + unfold wellFormed. cbn [recurring_series recurring_exceptions]. fold m.
      split_and!; [done| | |].
      * by rewrite map_update_key.
      * by rewrite map_update_key.
      * apply List.Forall_forall. intros e He.
        apply List.in_map_iff in He as (r0 & <- & Hr0).
        rewrite List.Forall_forall in Hfk.
        destruct (sameOccurrence m r0); [cbn|]; by apply Hfk.
    + unfold wellFormed. cbn [recurring_series recurring_exceptions]. fold m.
      split_and!; [done|by apply NoDup_map_snoc| |].
      * apply NoDup_map_snoc; [done|]. intros Hin. apply Hkd.
        apply List.in_map_iff in Hin as (r0 & H0 & Hr0). by exists r0.
      * apply List.Forall_app. split; [done|]. by constructor.
  - intros userID id db' r Hc.
    destruct (DeleteRecurringSeries_spec db userID id) as [[_ Hu]|[_ Hu]];
      rewrite Hu in Hc; injection Hc as <- _; [done|].
    unfold wellFormed. cbn [recurring_series recurring_exceptions].
    split_and!; [by apply NoDup_map_filter|by apply NoDup_map_filter
                |by apply NoDup_map_filter|].
    apply List.Forall_forall. intros e He. apply List.filter_In in He as [He Hne].
    apply negb_true_iff, bool_decide_eq_false_1 in Hne.
    rewrite List.Forall_forall in Hfk. specialize (Hfk e He). cbn beta in Hfk.
    apply List.in_map_iff in Hfk as (s & Hse & Hs1).
    apply List.in_map_iff. exists s. split; [done|]. apply List.filter_In.
    split; [done|]. apply negb_true_iff, not_true_iff_false.
    intros [_ Hid]%seriesHit_iff. congruence.
Qed.

(** X11.  [DeleteRecurringSeries] returns [ErrNotFound], and changes nothing,
    exactly when the user has no series with the id.  Otherwise it removes
    the series of that user with that id together with every exception of
    the series, and nothing else: the appointments, the other series and the
    exceptions of the other series stay. *)
Theorem DeleteRecurringSeries_cascades
  (db : DB) (userID : string) (id : uuid.UUID) :
  let hit := exists s, In s (recurring_series db)
                       /\ RecurringSeries.UserID s = userID
                       /\ RecurringSeries.ID s = id in
  (forall db', DeleteRecurringSeries db userID id = (db', Fail ErrNotFound)
               <-> db' = db /\ ~ hit)
  /\ (hit ->
      exists db',
        DeleteRecurringSeries db userID id = (db', Ok tt)
        /\ appointments db' = appointments db
        /\ (forall s, In s (recurring_series db')
                      <-> In s (recurring_series db)
                          /\ ~ (RecurringSeries.UserID s = userID
                                /\ RecurringSeries.ID s = id))
        /\ (forall e, In e (recurring_exceptions db')
                      <-> In e (recurring_exceptions db)
                          /\ RecurringException.SeriesID e <> id)).
Proof.
  intros hit. destruct (DeleteRecurringSeries_spec db userID id) as [[Hn ->]|[Hh ->]].
  - split; [|done]. intros db'. split; [by intros [= <-]|by intros [-> _]].
  - split; [intros db'; split; [done|tauto]|]. intros _. eexists. split; [done|].
    cbn [appointments recurring_series recurring_exceptions]. split_and!; [done| |].
    + intros s. rewrite List.filter_In, negb_true_iff, <- not_true_iff_false,
        seriesHit_iff. done.
    + intros e. rewrite List.filter_In, negb_true_iff, bool_decide_eq_false. done.
Qed.

End SeriesStore.

Section ListedRows.
Import GoTime domain postgres seriesSpec.

Lemma listedRows_In db userID we s :
  In s (listedRows db userID we)
  <-> In s (recurring_series db) /\ RecurringSeries.UserID s = userID
      /\ RecurringSeries.DTStart s < we.
Proof.
  unfold listedRows. rewrite List.filter_In, andb_true_iff, String.eqb_eq, Z.ltb_lt. tauto.
Qed.

End ListedRows.

Section Listing.
Import GoTime domain postgres seriesSpec.

Variable tzdb : string -> option Location.

Lemma collectOccurrences_ok db ws we rows out res :
  collectOccurrences tzdb db ws we rows out = Ok res ->
  res = out ++ List.flat_map (listed tzdb db ws we) rows
  /\ Forall (fun s => exists occs, GenerateWeeklyOccurrences tzdb s ws we = Ok occs) rows.
Proof.
  revert out. induction rows as [|s rows IH]; intros out; cbn [collectOccurrences].
  - intros [= <-]. by rewrite app_nil_r.
  - cbn [List.flat_map]. unfold listed at 1.
    destruct (GenerateWeeklyOccurrences tzdb s ws we) as [occs|e] eqn:Hg; [|done].
    destruct occs as [|o occs].
    + cbn [length Nat.eqb]. intros H. apply IH in H as [-> Hf].
      rewrite applyRecurringExceptions_nil. split; [done|]. constructor; [by eexists|done].
    + change (length (o :: occs) =? 0)%nat with false. cbv iota.
      intros H. apply IH in H as [-> Hf]. rewrite <- app_assoc.
      split; [done|]. constructor; [by eexists|done].
Qed.

Lemma collectOccurrences_total db ws we rows out :
  Forall (fun s => exists occs, GenerateWeeklyOccurrences tzdb s ws we = Ok occs) rows ->
  collectOccurrences tzdb db ws we rows out
  = Ok (out ++ List.flat_map (listed tzdb db ws we) rows).
Proof.
  intros Hf. revert out. induction Hf as [|s rows [occs Hg] _ IH]; intros out;
    cbn [collectOccurrences List.flat_map].
  - by rewrite app_nil_r.
  - assert (Hl : listed tzdb db ws we s
                 = applyRecurringExceptions occs
                     (ListRecurringExceptions db (RecurringSeries.ID s)
                        (Add ws (-14 * 24 * Hour_d)) (Add we (14 * 24 * Hour_d))) ws we)
      by (unfold listed; by rewrite Hg).
    rewrite Hl, Hg. destruct occs as [|o occs].
    + cbn [length Nat.eqb]. rewrite IH, applyRecurringExceptions_nil. done.
    + change (length (o :: occs) =? 0)%nat with false. cbv iota.
      rewrite IH, <- app_assoc. done.
Qed.

Lemma collectOccurrences_fail db ws we rows out e :
  collectOccurrences tzdb db ws we rows out = Fail e ->
  exists s, In s rows /\ GenerateWeeklyOccurrences tzdb s ws we = Fail e.
Proof.
  revert out. induction rows as [|s rows IH]; intros out; cbn [collectOccurrences]; [done|].
  destruct (GenerateWeeklyOccurrences tzdb s ws we) as [occs|e'] eqn:Hg.
  - destruct (_ =? _)%nat; intros H; apply IH in H as (s' & Hs' & H');
      exists s'; (split; [by right|done]).
  - intros [= <-]. exists s. split; [by left|done].
Qed.

Lemma ListOccurrences_In db userID ws we res o :
  ListOccurrences tzdb db userID ws we = Ok res ->
  In o res <-> exists s, In s (listedRows db userID we) /\ In o (listed tzdb db ws we s).
Proof.
  unfold ListOccurrences. fold (listedRows db userID we).
  destruct (collectOccurrences _ _ _ _ _ _) as [out|] eqn:Hc; [|done].
  intros [= <-]. apply collectOccurrences_ok in Hc as [-> _]. cbn [app].
  rewrite <- (list_elem_of_In _ o), merge_sort_Permutation, list_elem_of_In.
  rewrite List.in_flat_map. done.
Qed.

Lemma applyException_cases m ws we o o' :
  In o' (applyException m ws we [] o) ->
  RecurringOccurrence.ID o' = RecurringOccurrence.ID o
  /\ RecurringOccurrence.SeriesID o' = RecurringOccurrence.SeriesID o
  /\ RecurringOccurrence.UserID o' = RecurringOccurrence.UserID o
  /\ ((o' = o /\ m !! UnixNano (UTC (RecurringOccurrence.StartTime o)) = None)
      \/ (exists ex,
            m !! UnixNano (UTC (RecurringOccurrence.StartTime o)) = Some ex
            /\ RecurringException.Kind ex = RecurringExceptionKindOverride
            /\ RecurringOccurrence.StartTime o' < we
            /\ ws < RecurringOccurrence.EndTime o')).
Proof.
  unfold applyException.
  destruct (m !! _) as [ex|] eqn:Hm.
  - destruct (RecurringException.Kind ex) eqn:Hk; [done|].
    destruct (Before _ _ && After _ _) eqn:Hw; [|done].
    cbn. intros [<-|[]]. cbn. split_and!; try done. right. exists ex.
    apply andb_prop in Hw as [H1 H2]. unfold Before, After in *.
    split_and!; [done|done|lia|lia].
  - cbn. intros [<-|[]]. split_and!; try done. by left.
Qed.

Lemma applyRecurringExceptions_In occs exs ws we o' :
  In o' (applyRecurringExceptions occs exs ws we) ->
  exists o, In o occs
    /\ RecurringOccurrence.ID o' = RecurringOccurrence.ID o
    /\ RecurringOccurrence.SeriesID o' = RecurringOccurrence.SeriesID o
    /\ RecurringOccurrence.UserID o' = RecurringOccurrence.UserID o
    /\ (o' = o
        \/ (RecurringOccurrence.StartTime o' < we
            /\ ws < RecurringOccurrence.EndTime o')).
Proof.
  unfold applyRecurringExceptions. destruct (_ =? _)%nat.
  - intros H. exists o'. split_and!; try done. by left.
  - rewrite foldl_applyException. cbn [app]. intros H.
    apply List.in_flat_map in H as (o & Ho & H). exists o. split; [done|].
    apply applyException_cases in H as (H1 & H2 & H3 & [[-> _]|(ex & _ & _ & H4 & H5)]).
    + split_and!; try done. by left.
    + split_and!; try done. by right.
Qed.

Lemma listed_In db ws we s o :
  In o (listed tzdb db ws we s) ->
  RecurringOccurrence.SeriesID o = RecurringSeries.ID s
  /\ RecurringOccurrence.UserID o = RecurringSeries.UserID s
  /\ RecurringOccurrence.StartTime o < we
  /\ ws < RecurringOccurrence.EndTime o
  /\ exists start,
       RecurringSeries.DTStart s <= start /\ start < we
       /\ RecurringOccurrence.ID o = GoStrings.FormatInt (UnixNano start).
Proof.
  unfold listed.
  destruct (GenerateWeeklyOccurrences tzdb s ws we) as [occs|] eqn:Hg; [|done].
  intros H. apply applyRecurringExceptions_In in H as (o0 & Ho0 & H1 & H2 & H3 & H4).
  apply GenerateWeeklyOccurrences_emitted in Hg as (loc & _ & _ & Hem).
  rewrite List.Forall_forall in Hem. destruct (Hem o0 Ho0) as (day & Heq & Hge & Hlt & Hgt & _).
  set (start := Date loc day _ _ _ _) in *.
  rewrite H1, H2, H3, Heq. cbn. split_and!; try done.
  - destruct H4 as [->|[? ?]]; [by rewrite Heq|done].
  - destruct H4 as [->|[? ?]]; [by rewrite Heq|done].
  - exists start. done.
Qed.

Lemma ListOccurrences_ok_iff db userID ws we :
  (exists res, ListOccurrences tzdb db userID ws we = Ok res)
  <-> forall s, In s (recurring_series db) ->
        RecurringSeries.UserID s = userID ->
        RecurringSeries.DTStart s < we ->
        exists occs, GenerateWeeklyOccurrences tzdb s ws we = Ok occs.
Proof.
  unfold ListOccurrences. fold (listedRows db userID we). split.
  - intros [res Hl] s Hs Hu Hd.
    destruct (collectOccurrences _ _ _ _ _ _) as [out|] eqn:Hc; [|done].
    apply collectOccurrences_ok in Hc as [_ Hf]. rewrite List.Forall_forall in Hf.
    apply Hf. by apply listedRows_In.
  - intros Hall. rewrite collectOccurrences_total; [by eexists|].
    apply List.Forall_forall. intros s (Hs & Hu & Hd)%listedRows_In. by apply Hall.
Qed.

Lemma ListOccurrences_fail db userID ws we e :
  ListOccurrences tzdb db userID ws we = Fail e ->
  exists s, In s (recurring_series db)
            /\ RecurringSeries.UserID s = userID
            /\ RecurringSeries.DTStart s < we
            /\ GenerateWeeklyOccurrences tzdb s ws we = Fail e.
Proof.
  unfold ListOccurrences. fold (listedRows db userID we).
  destruct (collectOccurrences _ _ _ _ _ _) as [out|e'] eqn:Hc; [done|].
  intros [= <-]. apply collectOccurrences_fail in Hc as (s & Hs & Hg).
  apply listedRows_In in Hs as (Hs & Hu & Hd). by exists s.
Qed.


End Listing.

Section ListingComposition.
Import GoTime domain postgres seriesSpec.

Variable tzdb : string -> option Location.

(** The engine does not read the timestamps of the row. *)
Lemma GenerateWeeklyOccurrences_stamps (s : RecurringSeries.t) (ca ua : Time)
  (ws we : Time) :
  GenerateWeeklyOccurrences tzdb
    (RecurringSeries.mk (RecurringSeries.ID s) (RecurringSeries.UserID s)
       (RecurringSeries.Title s) (RecurringSeries.Notes s) (RecurringSeries.Timezone s)
       (RecurringSeries.DTStart s) (RecurringSeries.DurationSeconds s)
       (RecurringSeries.Frequency s) (RecurringSeries.Interval s)
       (RecurringSeries.ByWeekday s) (RecurringSeries.Until s)
       (RecurringSeries.Count s) ca ua) ws we
  = GenerateWeeklyOccurrences tzdb s ws we.
Proof. destruct s. reflexivity. Qed.

Lemma filter_filter_absorb {A} (f g : A -> bool) (l : list A) :
  (forall x, f x = true -> g x = true) ->
  List.filter f (List.filter g l) = List.filter f l.
Proof.
  intros H. induction l as [|a l IH]; cbn; [done|].
  destruct (g a) eqn:Hg; cbn.
  - by rewrite IH.
  - destruct (f a) eqn:Hf; [|done]. apply H in Hf. congruence.
Qed.

Lemma filter_none {A} (f : A -> bool) (l : list A) :
  (forall x, In x l -> f x = false) -> List.filter f l = [].
Proof.
  induction l as [|a l IH]; intros H; cbn; [done|].
  rewrite (H a) by (by left). apply IH. intros x Hx. apply H. by right.
Qed.

(** X13.  A series that [CreateRecurringSeries] has stored shows up in the
    listing: in a database that satisfies the invariants of the relations,
    for a series whose [dtstart] and [until] and a window whose bounds are
    whole microseconds, every occurrence the engine emits for the new
    series over the window is among the occurrences [ListOccurrences] then
    returns for the user and that window. *)
Theorem created_series_is_listed
  (env : HookEnv) (db db' : DB) (series s : RecurringSeries.t)
  (ws we : Time) (occs res : list RecurringOccurrence.t) :
  storeSpec.wholeMicros (RecurringSeries.DTStart series) ->
  storeSpec.wholeMicrosOption (RecurringSeries.Until series) ->
  storeSpec.wholeMicros ws ->
  storeSpec.wholeMicros we ->
  wellFormed db ->
  RepoCreateRecurringSeries tzdb env db series = (db', Ok s) ->
  GenerateWeeklyOccurrences tzdb s ws we = Ok occs ->
  ListOccurrences tzdb db' (RecurringSeries.UserID s) ws we = Ok res ->
  forall o, In o occs -> In o res.
Proof.
  intros _ _ _ _ (_ & _ & _ & Hfk) Hc Hg Hl o Ho.
  unfold RepoCreateRecurringSeries in Hc.
  destruct (ensureNoRecurringSeriesConflicts tzdb db series); [|done].
  set (m := RecurringSeries_BeforeAppendModel env series) in *.
  destruct (CreateRecurringSeries_cases env db series)
    as [Hu|[[_ Hu]|(Hn & s' & Hu & _)]];
    rewrite Hu in Hc; [done|done|].
  fold m in Hn.
  assert (Hs : s = RecurringSeries.mk (RecurringSeries.ID m)
                 (RecurringSeries.UserID series) (RecurringSeries.Title series)
                 (RecurringSeries.Notes series) (RecurringSeries.Timezone series)
                 (RecurringSeries.DTStart series) (RecurringSeries.DurationSeconds series)
                 (RecurringSeries.Frequency series) (RecurringSeries.Interval series)
                 (RecurringSeries.ByWeekday series) (RecurringSeries.Until series)
                 (RecurringSeries.Count series) (RecurringSeries.CreatedAt series)
                 (RecurringSeries.UpdatedAt series)).
  { unfold CreateRecurringSeries in Hu. fold m in Hu.
    destruct (negb _); [done|].
    destruct (existsb _ _); [done|]. injection Hu as <-. by injection Hc as _ <-. }
  injection Hc as <- _.
  assert (Hgm : GenerateWeeklyOccurrences tzdb m ws we = Ok occs).
  { rewrite <- Hg, Hs. destruct series. reflexivity. }
  apply (ListOccurrences_In _ _ _ _ _ _ _ Hl). exists m. split.
  - apply listedRows_In. cbn [recurring_series]. split_and!.
    + apply in_or_app. right. by left.
    + by rewrite Hs.
    + apply GenerateWeeklyOccurrences_emitted in Hgm as (loc & _ & _ & Hem).
      rewrite List.Forall_forall in Hem.
      destruct (Hem o Ho) as (day & _ & Hge & Hlt & _). lia.
  - unfold listed. rewrite Hgm. fold m.
    assert (Hex : ListRecurringExceptions
                    (mkDB (appointments db) (recurring_series db ++ [m])
                       (recurring_exceptions db))
                    (RecurringSeries.ID m)
                    (Add ws (-14 * 24 * Hour_d)) (Add we (14 * 24 * Hour_d)) = []).
    { unfold ListRecurringExceptions. cbn [recurring_exceptions].
      apply filter_none. intros e He. rewrite List.Forall_forall in Hfk.
      specialize (Hfk e He). cbn beta in Hfk.
      rewrite bool_decide_eq_false_2; [done|]. intros Heq. apply Hn. by rewrite <- Heq. }
    rewrite Hex. done.
Qed.

Lemma listed_ext db db' ws we s :
  (forall wl wh,
     ListRecurringExceptions db' (RecurringSeries.ID s) wl wh
     = ListRecurringExceptions db (RecurringSeries.ID s) wl wh) ->
  listed tzdb db' ws we s = listed tzdb db ws we s.
Proof. intros H. unfold listed. by rewrite H. Qed.

(** X14.  A deleted series disappears from the listing and nothing else
    does: after a successful [DeleteRecurringSeries], [ListOccurrences]
    returns no occurrence of that series for the user, and when the listing
    succeeded before the deletion it succeeds after it and contains exactly
    the earlier occurrences of the other series. *)
Theorem deleted_series_is_not_listed
  (db db' : DB) (userID : string) (id : uuid.UUID) (ws we : Time) :
  DeleteRecurringSeries db userID id = (db', Ok tt) ->
  (forall res' o,
     ListOccurrences tzdb db' userID ws we = Ok res' ->
     In o res' -> RecurringOccurrence.SeriesID o <> id)
  /\ (forall res,
        ListOccurrences tzdb db userID ws we = Ok res ->
        exists res',
          ListOccurrences tzdb db' userID ws we = Ok res'
          /\ forall o, In o res'
                       <-> In o res /\ RecurringOccurrence.SeriesID o <> id).
Proof.
  intros Hd.
  destruct (DeleteRecurringSeries_spec db userID id) as [[_ Hu]|[_ Hu]];
    rewrite Hu in Hd; [done|]. injection Hd as <-.
  set (db' := mkDB _ _ _).
  assert (Hrows : forall s, In s (listedRows db' userID we)
                            <-> In s (listedRows db userID we)
                                /\ RecurringSeries.ID s <> id).
  { intros s. rewrite !listedRows_In. unfold db'. cbn [recurring_series].
    rewrite List.filter_In, negb_true_iff, <- not_true_iff_false, seriesHit_iff.
    split.
    - intros ((Hs & Hn) & Hu' & Hdt). split; [done|]. intros Hid. by apply Hn.
    - intros ((Hs & Hu' & Hdt) & Hne). split_and!; try done. by intros [_ ?]. }
  assert (Hlisted : forall s, RecurringSeries.ID s <> id ->
                              listed tzdb db' ws we s = listed tzdb db ws we s).
  { intros s Hne. apply listed_ext. intros wl wh.
    unfold ListRecurringExceptions, db'. cbn [recurring_exceptions].
    apply filter_filter_absorb. intros e He.
    apply andb_prop in He as [He _]. apply andb_prop in He as [He _].
    apply bool_decide_eq_true_1 in He. apply negb_true_iff, bool_decide_eq_false_2.
    congruence. }
  split.
  - intros res' o Hl Ho.
    apply (ListOccurrences_In _ _ _ _ _ _ _ Hl) in Ho as (s & Hs & Ho).
    apply Hrows in Hs as [_ Hne]. apply listed_In in Ho as (H1 & _). congruence.
  - intros res Hl.
    destruct (ListOccurrences tzdb db' userID ws we) as [res'|e] eqn:Hl'.
    + exists res'. split; [done|]. intros o.
      rewrite (ListOccurrences_In _ _ _ _ _ _ o Hl'), (ListOccurrences_In _ _ _ _ _ _ o Hl).
      split.
      * intros (s & Hs & Ho). apply Hrows in Hs as [Hs Hne].
        rewrite (Hlisted s Hne) in Ho. split; [by exists s|].
        apply listed_In in Ho as (H1 & _). congruence.
      * intros [(s & Hs & Ho) Hne]. exists s.
        pose proof (listed_In _ _ _ _ _ _ Ho) as (H1 & _).
        assert (RecurringSeries.ID s <> id) by congruence.
        split; [by apply Hrows|]. by rewrite Hlisted.
    + exfalso.
      destruct (ListOccurrences_fail _ _ _ _ _ _ Hl') as (s & Hs & Hu' & Hdt & Hg).
      destruct (proj1 (ListOccurrences_ok_iff _ db userID ws we) (ex_intro _ res Hl) s)
        as [occs Hoccs]; [|done|done|congruence].
      unfold db' in Hs. cbn [recurring_series] in Hs. by apply List.filter_In in Hs as [Hs _].
Qed.

(** X15.  A skipped occurrence disappears from the listing: once a skip
    exception for an occurrence start of a series is stored, no occurrence
    that [ListOccurrences] returns for that series carries the id of that
    occurrence start, whenever the start lies within 14 days of the window
    (where the exceptions are looked up). *)
Theorem skipped_occurrence_is_not_listed
  (env : HookEnv) (db db' : DB) (ex r : RecurringException.t)
  (userID : string) (ws we : Time) (res : list RecurringOccurrence.t) :
  NoDup (List.map occurrenceKey (recurring_exceptions db)) ->
  RecurringException.Kind ex = RecurringExceptionKindSkip ->
  UpsertRecurringException env db ex = (db', Ok r) ->
  ws - 14 * 24 * Hour_d <= RecurringException.OccurrenceStart ex
    < we + 14 * 24 * Hour_d ->
  we - ws < 2 ^ 63 ->
  ListOccurrences tzdb db' userID ws we = Ok res ->
  forall o,
    In o res ->
    RecurringOccurrence.SeriesID o = RecurringException.SeriesID ex ->
    RecurringOccurrence.ID o
      <> GoStrings.FormatInt (UnixNano (RecurringException.OccurrenceStart ex)).
Proof.
  intros Hnd Hskip Hup Hwin Hlen Hl o Ho Hsid Hid.
  apply (ListOccurrences_In _ _ _ _ _ _ _ Hl) in Ho as (s & Hs & Ho).
  pose proof (listed_In _ _ _ _ _ _ Ho) as (Hso & _).
  assert (Hids : RecurringSeries.ID s = RecurringException.SeriesID ex) by congruence.
  destruct (upsert_lookup env db db' ex r
              (Add ws (-14 * 24 * Hour_d)) (Add we (14 * 24 * Hour_d)) Hnd Hup)
    as [(row & Hrow & Hos & Hkind & _ & _ & _ & _ & Huniq) _];
    [unfold Add; lia|].
  unfold listed in Ho. rewrite Hids in Ho.
  destruct (GenerateWeeklyOccurrences tzdb s ws we) as [occs|] eqn:Hg; [|done].
  set (exs := ListRecurringExceptions db' _ _ _) in *.
  unfold applyRecurringExceptions in Ho.
  destruct (length exs =? 0)%nat eqn:El.
  { apply Nat.eqb_eq in El. destruct exs; done. }
  rewrite foldl_applyException in Ho. cbn [app] in Ho.
  apply List.in_flat_map in Ho as (o0 & Ho0 & Ho).
  apply GenerateWeeklyOccurrences_emitted in Hg as (loc & _ & _ & Hem).
  rewrite List.Forall_forall in Hem. destruct (Hem o0 Ho0) as (day & Heq & _).
  pose proof (applyException_cases _ _ _ _ _ Ho) as (Hid0 & _).
  rewrite Hid, Heq in Hid0. cbn in Hid0. apply FormatInt_inj in Hid0.
  assert (Hlook : exists e',
            indexExceptions exs !! UnixNano (UTC (RecurringOccurrence.StartTime o0))
            = Some e' /\ In e' exs
            /\ UnixNano (RecurringException.OccurrenceStart e')
               = UnixNano (RecurringException.OccurrenceStart ex)).
  { rewrite indexExceptions_lookup.
    destruct (List.find _ (List.rev exs)) as [e'|] eqn:Hf.
    - apply List.find_some in Hf as [He' Hk]. exists e'.
      split; [done|]. split; [by apply List.in_rev|].
      apply Z.eqb_eq in Hk. unfold UTC in *. rewrite Hk, Heq. cbn. done.
    - exfalso. eapply List.find_none in Hf; [|apply List.in_rev; rewrite List.rev_involutive; exact Hrow].
      apply Z.eqb_neq in Hf. apply Hf. unfold UTC. rewrite Hos, Heq. cbn. done. }
  destruct Hlook as (e' & Hlk & He' & Hwrap).
  assert (He'row : e' = row).
  { apply Huniq; [done|].
    destruct (Z.eq_dec (RecurringException.OccurrenceStart e')
                (RecurringException.OccurrenceStart ex)) as [|Hne]; [done|].
    exfalso. revert Hwrap. apply wrap64_near_miss; [done|].
    apply ListRecurringExceptions_In in He' as (_ & _ & Hb).
    unfold Add, Hour_d, Minute, Second in *. lia. }
  subst e'. unfold applyException in Ho. rewrite Hlk, Hkind, Hskip in Ho. done.
Qed.

End ListingComposition.

Section Isolation.
Import GoTime domain postgres seriesSpec.

Variable tzdb : string -> option Location.

Lemma appendSeriesSpans_exceptions db db' ws we rows existing :
  recurring_exceptions db' = recurring_exceptions db ->
  appendSeriesSpans tzdb db' ws we rows existing
  = appendSeriesSpans tzdb db ws we rows existing.
Proof.
  intros He. revert existing. induction rows as [|s rows IH]; intros existing;
    cbn [appendSeriesSpans]; [done|].
  destruct (GenerateWeeklyOccurrences tzdb s ws we); [|done].
  destruct (_ =? _)%nat; [apply IH|].
  unfold ListRecurringExceptions. rewrite He. apply IH.
Qed.

Lemma collectOccurrences_exceptions db db' ws we rows out :
  recurring_exceptions db' = recurring_exceptions db ->
  collectOccurrences tzdb db' ws we rows out
  = collectOccurrences tzdb db ws we rows out.
Proof.
  intros He. revert out. induction rows as [|s rows IH]; intros out;
    cbn [collectOccurrences]; [done|].
  destruct (GenerateWeeklyOccurrences tzdb s ws we); [|done].
  destruct (_ =? _)%nat; [apply IH|].
  unfold ListRecurringExceptions. rewrite He. apply IH.
Qed.

(** X16.  The conflict check and the listing of a user only read the
    calendar of that user: they give the same result on the database
    without the appointments and series of every other user. *)
Theorem other_users_do_not_matter (db : DB) (series : RecurringSeries.t)
  (userID : string) (windowStart windowEnd : Time) :
  ensureNoRecurringSeriesConflicts tzdb
    (calendarOf (RecurringSeries.UserID series) db) series
  = ensureNoRecurringSeriesConflicts tzdb db series
  /\ ListOccurrences tzdb (calendarOf userID db) userID windowStart windowEnd
     = ListOccurrences tzdb db userID windowStart windowEnd
  /\ ListAppointments (calendarOf userID db) userID windowStart windowEnd
     = ListAppointments db userID windowStart windowEnd.
Proof.
  assert (HA : forall u ws we,
            ListAppointments (calendarOf u db) u ws we = ListAppointments db u ws we).
  { intros u ws we. unfold ListAppointments, calendarOf. cbn [appointments].
    f_equal. apply filter_filter_absorb. intros a Ha.
    apply andb_prop in Ha as [Ha _]. by apply andb_prop in Ha as [Ha _]. }
  split_and!.
  - unfold ensureNoRecurringSeriesConflicts.
    destruct (GenerateWeeklyOccurrences tzdb series _ _) as [newOccs|]; [|done].
    destruct (_ =? _)%nat; [done|]. destruct (consecutiveOverlap _); [done|].
    rewrite HA.
    assert (ListRecurringSeries (calendarOf (RecurringSeries.UserID series) db)
              (RecurringSeries.UserID series)
            = ListRecurringSeries db (RecurringSeries.UserID series)) as ->.
    { unfold ListRecurringSeries, calendarOf. cbn [recurring_series].
      f_equal. by apply filter_filter_absorb. }
    by rewrite (appendSeriesSpans_exceptions db).
  - unfold ListOccurrences.
    assert (List.filter (fun r => String.eqb (RecurringSeries.UserID r) userID &&
                                  (RecurringSeries.DTStart r <? windowEnd))
              (recurring_series (calendarOf userID db))
            = List.filter (fun r => String.eqb (RecurringSeries.UserID r) userID &&
                                    (RecurringSeries.DTStart r <? windowEnd))
                (recurring_series db)) as ->.
    { unfold calendarOf. cbn [recurring_series]. apply filter_filter_absorb.
      intros s Hs. by apply andb_prop in Hs as [Hs _]. }
    by rewrite (collectOccurrences_exceptions db).
  - apply HA.
Qed.

End Isolation.

(** ** The rule of a series *)

Section Rule.
Import GoTime domain engineFlat ruleSpec.

Variable tzdb : string -> option Location.

Lemma dedupWeekdays_None (l acc : list Z) :
  dedupWeekdays l acc = None <-> invalidWeekday l.
Proof.
  unfold invalidWeekday. revert acc. induction l as [|wd l IH]; intros acc;
    cbn [dedupWeekdays].
  - split; [done|]. by intros (? & [] & _).
  - destruct (Z.ltb_spec wd 1); cbn [orb].
    { split; [|done]. intros _. exists wd. split; [by left|lia]. }
    destruct (Z.ltb_spec 7 wd); cbn [orb].
    { split; [|done]. intros _. exists wd. split; [by left|lia]. }
    assert (Hiff : (exists wd0, In wd0 l /\ (wd0 < 1 \/ 7 < wd0))
                   <-> exists wd0, In wd0 (wd :: l) /\ (wd0 < 1 \/ 7 < wd0)).
    { split.
      - intros (x & Hx & H'). exists x. split; [by right|done].
      - intros (x & [<-|Hx] & H'); [lia|]. by exists x. }
    rewrite <- Hiff. destruct (bool_decide _); apply IH.
Qed.

Lemma dedupWeekdays_elements (l acc r : list Z) :
  dedupWeekdays l acc = Some r ->
  forall x, In x r <-> In x acc \/ In x l.
Proof.
  revert acc. induction l as [|wd l IH]; intros acc; cbn [dedupWeekdays].
  - intros [= <-] x. cbn. tauto.
  - destruct (_ || _); [done|].
    destruct (bool_decide (wd ∈ acc)) eqn:Hin.
    + apply bool_decide_eq_true_1, list_elem_of_In in Hin.
      intros H x. rewrite (IH _ H x). cbn. split; [tauto|].
      intros [?|[<-|?]]; tauto.
    + intros H x. rewrite (IH _ H x), List.in_app_iff. cbn. tauto.
Qed.

Lemma sortWeekdays_elements (wds : list Z) :
  NoDup wds ->
  StronglySorted Z.lt (sortWeekdays wds)
  /\ forall x, In x (sortWeekdays wds) <-> In x wds.
Proof.
  intros Hnd.
  destruct (foldl_insertWeekday wds []) as [H1 H2]; [constructor|done|by intros x _ []|].
  split; [exact H1|]. intros x. rewrite (H2 x). cbn. tauto.
Qed.

Lemma sorted_unique (l1 l2 : list Z) :
  StronglySorted Z.lt l1 -> StronglySorted Z.lt l2 ->
  (forall x, In x l1 <-> In x l2) -> l1 = l2.
Proof.
  intros H1. revert l2. induction H1 as [|a l1 Hs1 IH Ha]; intros l2 H2 Heq.
  - destruct l2 as [|b l2]; [done|]. destruct (proj2 (Heq b)). by left.
  - destruct H2 as [|b l2 Hs2 Hb].
    { destruct (proj1 (Heq a)). by left. }
    rewrite List.Forall_forall in Ha, Hb.
    assert (a = b) as <-.
    { destruct (proj1 (Heq a) ltac:(by left)) as [->|Hin]; [done|].
      destruct (proj2 (Heq b) ltac:(by left)) as [->|Hin']; [done|].
      specialize (Ha _ Hin'). specialize (Hb _ Hin). lia. }
    f_equal. apply IH; [done|]. intros x. split; intros Hx.
    + destruct (proj1 (Heq x) ltac:(by right)) as [<-|?]; [|done].
      specialize (Ha _ Hx). lia.
    + destruct (proj2 (Heq x) ltac:(by right)) as [<-|?]; [|done].
      specialize (Hb _ Hx). lia.
Qed.

(** The weekdays the engine iterates over only depend on the set of the
    weekdays of the rule. *)
Lemma normalized_same (l1 l2 w1 w2 : list Z) :
  (forall x, In x l1 <-> In x l2) ->
  dedupWeekdays l1 [] = Some w1 -> dedupWeekdays l2 [] = Some w2 ->
  sortWeekdays w1 = sortWeekdays w2 /\ (w1 = [] <-> w2 = []).
Proof.
  intros Heq H1 H2.
  pose proof (dedupWeekdays_elements _ _ _ H1) as E1.
  pose proof (dedupWeekdays_elements _ _ _ H2) as E2.
  apply dedupWeekdays_inv in H1 as [N1 _]; [|constructor|constructor].
  apply dedupWeekdays_inv in H2 as [N2 _]; [|constructor|constructor].
  destruct (sortWeekdays_elements w1 N1) as [S1 I1].
  destruct (sortWeekdays_elements w2 N2) as [S2 I2].
  assert (Hw : forall x, In x w1 <-> In x w2).
  { intros x. rewrite E1, E2. cbn. rewrite Heq. tauto. }
  split.
  - apply sorted_unique; [done|done|]. intros x. rewrite I1, I2. apply Hw.
  - split; intros ->.
    + destruct w2 as [|a w2]; [done|]. destruct (proj2 (Hw a)). by left.
    + destruct w1 as [|a w1]; [done|]. destruct (proj1 (Hw a)). by left.
Qed.

(** X17.  The expansion only depends on the set of the weekdays of the rule:
    two rules that differ in the order of [ByWeekday] or in repeated entries
    give the same result, the same error included. *)
Theorem ByWeekday_order_and_repeats_do_not_matter
  (s : RecurringSeries.t) (wds : list Z) (windowStart windowEnd : Time) :
  (forall wd, In wd wds <-> In wd (RecurringSeries.ByWeekday s)) ->
  GenerateWeeklyOccurrences tzdb (setByWeekday s wds) windowStart windowEnd
  = GenerateWeeklyOccurrences tzdb s windowStart windowEnd.
Proof.
  intros Heq. unfold GenerateWeeklyOccurrences.
  change (RecurringSeries.Frequency (setByWeekday s wds))
    with (RecurringSeries.Frequency s).
  change (RecurringSeries.DurationSeconds (setByWeekday s wds))
    with (RecurringSeries.DurationSeconds s).
  change (RecurringSeries.Timezone (setByWeekday s wds))
    with (RecurringSeries.Timezone s).
  change (RecurringSeries.ByWeekday (setByWeekday s wds)) with wds.
  destruct (negb _); [done|]. destruct (_ <=? _); [done|].
  destruct (LoadLocation _ _) as [loc|]; [|done].
  destruct (dedupWeekdays wds []) as [w1|] eqn:H1;
    destruct (dedupWeekdays (RecurringSeries.ByWeekday s) []) as [w2|] eqn:H2.
  - destruct (normalized_same _ _ _ _ Heq H1 H2) as [Hs Hn].
    rewrite Hs.
    assert ((length w1 =? 0)%nat = (length w2 =? 0)%nat) as ->.
    { destruct w1, w2; try done; [by destruct (proj1 Hn)|by destruct (proj2 Hn)]. }
    destruct (_ =? _)%nat; [done|]. destruct s. reflexivity.
  - exfalso. apply dedupWeekdays_None in H2 as (x & Hx & Hbad).
    assert (Hn : dedupWeekdays wds [] = None).
    { apply dedupWeekdays_None. exists x. split; [by apply Heq|done]. }
    congruence.
  - exfalso. apply dedupWeekdays_None in H1 as (x & Hx & Hbad).
    assert (Hn : dedupWeekdays (RecurringSeries.ByWeekday s) [] = None).
    { apply dedupWeekdays_None. exists x. split; [by apply Heq|done]. }
    congruence.
  - done.
Qed.


(** X19.  Values of the rule outside their range are normalized: an interval
    below 1 expands like the interval 1, and a negative count like no
    count. *)
Theorem interval_and_count_are_normalized
  (s : RecurringSeries.t) (windowStart windowEnd : Time) :
  (forall i, i < 1 ->
     GenerateWeeklyOccurrences tzdb (setInterval s i) windowStart windowEnd
     = GenerateWeeklyOccurrences tzdb (setInterval s 1) windowStart windowEnd)
  /\ (forall c, c < 0 ->
        GenerateWeeklyOccurrences tzdb (setCount s (Some c)) windowStart windowEnd
        = GenerateWeeklyOccurrences tzdb (setCount s None) windowStart windowEnd).
Proof.
  split.
  - intros i Hi. destruct s.
    unfold setInterval, GenerateWeeklyOccurrences, weeksLoop, weeksFuel, startWeekIndex,
      interval.
    cbn [RecurringSeries.Interval RecurringSeries.ID RecurringSeries.UserID
         RecurringSeries.Title RecurringSeries.Notes RecurringSeries.Timezone
         RecurringSeries.DTStart RecurringSeries.DurationSeconds
         RecurringSeries.Frequency RecurringSeries.ByWeekday RecurringSeries.Until
         RecurringSeries.Count RecurringSeries.CreatedAt RecurringSeries.UpdatedAt].
    assert ((i <? 1) = true) as -> by lia. reflexivity.
  - intros c Hc. destruct s.
    unfold setCount, GenerateWeeklyOccurrences, weeksLoop, weekdaysLoop, maxCount.
    cbn [RecurringSeries.Interval RecurringSeries.ID RecurringSeries.UserID
         RecurringSeries.Title RecurringSeries.Notes RecurringSeries.Timezone
         RecurringSeries.DTStart RecurringSeries.DurationSeconds
         RecurringSeries.Frequency RecurringSeries.ByWeekday RecurringSeries.Until
         RecurringSeries.Count RecurringSeries.CreatedAt RecurringSeries.UpdatedAt].
    assert ((0 <=? c) = false) as -> by lia. reflexivity.
Qed.

End Rule.

Section Order.
Import GoTime domain engineFlat ruleSpec zoneSpec.

Variable tzdb : string -> option Location.

(** The occurrences a run appends are those of a sub-list of the candidates,
    in their order. *)
Lemma run_sublist (series : RecurringSeries.t) (ws we : Time)
  (cands : list (Time * Z)) (out : list RecurringOccurrence.t) :
  exists sub,
    sublist sub (List.map fst cands)
    /\ outOf (run series ws we cands out)
       = out ++ List.map (fun st => makeOccurrence series st (Add st (duration series)))
                  sub.
Proof.
  revert out. induction cands as [|[st g] cands IH]; intros out; cbn [run List.map fst].
  - exists []. split; [constructor|]. by rewrite app_nil_r.
  - destruct (Before st _).
    { destruct (IH out) as (sub & Hs & ->). exists sub. split; [by constructor|done]. }
    destruct (match RecurringSeries.Until series with Some _ => _ | None => _ end).
    { exists []. split; [apply sublist_nil_l|]. cbn. by rewrite app_nil_r. }
    destruct (_ && _).
    { exists []. split; [apply sublist_nil_l|]. cbn. by rewrite app_nil_r. }
    destruct (Before st we && After _ ws).
    + destruct (IH (out ++ [makeOccurrence series st (Add st (duration series))]))
        as (sub & Hs & ->).
      exists (st :: sub). split; [by constructor|]. by rewrite <- app_assoc.
    + destruct (IH out) as (sub & Hs & ->). exists sub. split; [by constructor|done].
Qed.

Lemma StronglySorted_sublist {A} (R : A -> A -> Prop) (l1 l2 : list A) :
  sublist l1 l2 -> StronglySorted R l2 -> StronglySorted R l1.
Proof.
  induction 1 as [|x l1 l2 Hs IH|x l1 l2 Hs IH]; intros Hl2.
  - constructor.
  - apply StronglySorted_inv in Hl2 as [H2 Hx]. constructor; [by apply IH|].
    apply List.Forall_forall. intros y Hy. rewrite List.Forall_forall in Hx.
    apply Hx. apply list_elem_of_In. apply list_elem_of_In in Hy.
    by eapply elem_of_sublist.
  - apply StronglySorted_inv in Hl2 as [H2 _]. by apply IH.
Qed.

Lemma StronglySorted_map {A B} (f : A -> B) (R : B -> B -> Prop) (l : list A) :
  StronglySorted (fun a b => R (f a) (f b)) l -> StronglySorted R (List.map f l).
Proof.
  induction 1 as [|a l Hs IH Ha]; cbn; constructor; [done|].
  apply List.Forall_forall. intros y Hy. apply List.in_map_iff in Hy as (x & <- & Hx).
  rewrite List.Forall_forall in Ha. by apply Ha.
Qed.

Lemma StronglySorted_unmap {A B} (f : A -> B) (R : B -> B -> Prop) (l : list A) :
  StronglySorted R (List.map f l) -> StronglySorted (fun a b => R (f a) (f b)) l.
Proof.
  induction l as [|a l IH]; cbn; intros H; [constructor|].
  apply StronglySorted_inv in H as [H Ha]. constructor; [by apply IH|].
  apply List.Forall_forall. intros y Hy. rewrite List.Forall_forall in Ha.
  apply Ha. by apply List.in_map.
Qed.

(** The result of the engine as a run over the candidates. *)
Lemma GenerateWeeklyOccurrences_run (s : RecurringSeries.t) (ws we : Time)
  (occs : list RecurringOccurrence.t) :
  GenerateWeeklyOccurrences tzdb s ws we = Ok occs ->
  exists loc wds sub,
    tzdb (RecurringSeries.Timezone s) = Some loc
    /\ dedupWeekdays (RecurringSeries.ByWeekday s) [] = Some wds
    /\ 0 <= startWeekIndex s ws loc
    /\ sublist sub (List.map fst
                      (allCands s we loc (sortWeekdays wds) (weeksFuel s ws we loc)
                         (startWeekIndex s ws loc)))
    /\ occs = List.map (fun st => makeOccurrence s st (Add st (duration s))) sub.
Proof.
  intros Hg. apply GenerateWeeklyOccurrences_Ok_iff in Hg
    as (loc & wds & _ & _ & Hloc & Hdd & _ & Hloop).
  apply weeksLoop_run in Hloop.
  destruct (run_sublist s ws we
              (allCands s we loc (sortWeekdays wds) (weeksFuel s ws we loc)
                 (startWeekIndex s ws loc)) []) as (sub & Hsub & Hrun).
  exists loc, wds, sub. split_and!; try done.
  - unfold startWeekIndex. destruct (After _ _); [|done].
    destruct (Z.ltb_spec (Z.quot (Z.quot
        (Sub (windowStartWeekMondayUTC ws loc) (startWeekMondayUTC s loc))
        (24 * Hour_d)) (7 * interval s)) 0); lia.
  - by rewrite Hloop, Hrun.
Qed.

(** X20.  For an interval below 2^32 (what a request or the column can
    carry), in a zone whose offsets span less than a day, the engine emits
    the occurrences in the strict order of their starts: no two occurrences
    of a series start at the same instant. *)
Theorem occurrences_are_strictly_ascending
  (s : RecurringSeries.t) (windowStart windowEnd : Time)
  (occs : list RecurringOccurrence.t) (loc : Location) (lo hi : Z) :
  RecurringSeries.Interval s < 2 ^ 32 ->
  GenerateWeeklyOccurrences tzdb s windowStart windowEnd = Ok occs ->
  tzdb (RecurringSeries.Timezone s) = Some loc ->
  offsetsWithin lo hi loc = true ->
  hi - lo < secondsPerDay ->
  StronglySorted
    (fun a b => RecurringOccurrence.StartTime a < RecurringOccurrence.StartTime b)
    occs.
Proof.
  intros _ Hg Hloc Hw Hsp.
  apply GenerateWeeklyOccurrences_run in Hg as (loc' & wds & sub & Hloc' & Hdd & _ & Hsub & ->).
  rewrite Hloc in Hloc'. injection Hloc' as <-.
  destruct (normalized_weekdays _ _ Hdd) as [Hsorted Hrange].
  pose proof (allCands_above s loc lo hi (sortWeekdays wds) windowEnd Hw Hsp Hsorted Hrange
                (weeksFuel s windowStart windowEnd loc)
                (startWeekIndex s windowStart loc)) as [Hasc _].
  apply StronglySorted_unmap.
  rewrite List.map_map. cbn [RecurringOccurrence.StartTime makeOccurrence].
  rewrite List.map_id. eapply StronglySorted_sublist; [exact Hsub|].
  apply StronglySorted_map. exact Hasc.
Qed.

Lemma weekCands_starts (series : RecurringSeries.t) (loc : Location)
  (weekdays : list Z) (weekStart : Time) (w : Z) (wds : list Z) (i : Z) :
  List.map fst (weekCands series loc weekdays weekStart w wds i)
  = List.map (candidateOfWeek series loc weekStart) wds.
Proof.
  revert i. induction wds as [|wd wds IH]; intros i; cbn [weekCands List.map fst];
    [done|]. by rewrite IH.
Qed.

Lemma allCands_starts (series : RecurringSeries.t) (we : Time) (loc : Location)
  (weekdays : list Z) (fuel : nat) (w0 : Z) (st : Time) :
  In st (List.map fst (allCands series we loc weekdays fuel w0)) ->
  exists w wd,
    w0 <= w /\ In wd weekdays
    /\ st = candidateOfWeek series loc
              (AddDateDays (startWeekMondayUTC series loc) (w * interval series * 7)) wd.
Proof.
  revert w0. induction fuel as [|fuel IH]; intros w0; cbn [allCands]; [done|].
  destruct (negb _); [done|]. rewrite List.map_app, weekCands_starts, List.in_app_iff.
  intros [H|H].
  - apply List.in_map_iff in H as (wd & <- & Hwd). exists w0, wd. split_and!; [lia|done|done].
  - apply IH in H as (w & wd & Hw & Hwd & ->). exists w, wd. split_and!; [lia|done|done].
Qed.

Lemma candidateOfWeek_date (series : RecurringSeries.t) (loc : Location) (w wd : Z) :
  1 <= wd <= 7 ->
  candidateOfWeek series loc
    (AddDateDays (startWeekMondayUTC series loc) (w * interval series * 7)) wd
  = Date loc
      (mondayOf (dayOf loc (RecurringSeries.DTStart series))
       + w * interval series * 7 + (wd - 1))
      (Hour loc (RecurringSeries.DTStart series))
      (Minute_of loc (RecurringSeries.DTStart series))
      (Second_of loc (RecurringSeries.DTStart series))
      (Nanosecond_of (RecurringSeries.DTStart series)).
Proof.
  intros Hwd. unfold candidateOfWeek, candidateStart, UTC, dtstartLocal.
  rewrite weekStartOf_day. unfold AddDateDays.
  replace (_ + weekdayOffsetFromMonday wd * secondsPerDay * Second)
    with ((mondayOf (dayOf loc (RecurringSeries.DTStart series))
           + w * interval series * 7 + (wd - 1)) * secondsPerDay * Second).
  2:{ unfold weekdayOffsetFromMonday. destruct (Z.eqb_spec wd 7); lia. }
  by rewrite dayOf_UTC_midnight.
Qed.

(** X21.  For an interval below 2^32 (what a request or the column can
    carry), every occurrence the engine emits is anchored on a weekday of
    the rule in a week that is a multiple of the interval after the week of
    [dtstart]: its start is [time.Date] applied to the date of weekday [wd]
    (1 = Monday .. 7 = Sunday, an entry of [ByWeekday]) in the Monday-based
    week [k * interval] weeks after the week of [dtstart] in the zone, and
    to the wall clock of [dtstart].  Where that wall-clock time exists, the
    start read in the zone falls on that date and on that weekday. *)
Theorem occurrences_fall_on_the_weekdays_of_the_rule
  (s : RecurringSeries.t) (windowStart windowEnd : Time)
  (occs : list RecurringOccurrence.t) (o : RecurringOccurrence.t) :
  RecurringSeries.Interval s < 2 ^ 32 ->
  GenerateWeeklyOccurrences tzdb s windowStart windowEnd = Ok occs ->
  In o occs ->
  exists loc k wd,
    tzdb (RecurringSeries.Timezone s) = Some loc
    /\ 0 <= k
    /\ In wd (RecurringSeries.ByWeekday s)
    /\ 1 <= wd <= 7
    /\ let dt := RecurringSeries.DTStart s in
       let day := mondayOf (dayOf loc dt) + k * interval s * 7 + (wd - 1) in
       RecurringOccurrence.StartTime o
         = Date loc day (Hour loc dt) (Minute_of loc dt) (Second_of loc dt)
             (Nanosecond_of dt)
       /\ (day + 4) mod 7 = wd mod 7
       /\ forall M,
            regularZone M loc = true ->
            representable M (day * secondsPerDay + engineSpec.wallClock loc s) ->
            existsLocal loc (day * secondsPerDay + engineSpec.wallClock loc s) ->
            dayOf loc (RecurringOccurrence.StartTime o) = day
            /\ Weekday loc (RecurringOccurrence.StartTime o) = wd mod 7.
Proof.
  intros _ Hg Ho.
  apply GenerateWeeklyOccurrences_run in Hg as (loc & wds & sub & Hloc & Hdd & Hw0 & Hsub & ->).
  apply List.in_map_iff in Ho as (st & <- & Hst).
  apply list_elem_of_In in Hst. eapply elem_of_sublist in Hst; [|exact Hsub].
  apply list_elem_of_In, allCands_starts in Hst as (k & wd & Hk & Hwd & ->).
  destruct (normalized_weekdays _ _ Hdd) as [_ Hrange].
  rewrite List.Forall_forall in Hrange. pose proof (Hrange wd Hwd) as Hr.
  exists loc, k, wd. split; [done|]. split; [lia|]. split; [|split; [lia|]].
  - pose proof (dedupWeekdays_elements _ _ _ Hdd wd) as He.
    pose proof Hdd as Hdd'. apply dedupWeekdays_inv in Hdd' as [Hnd _];
      [|constructor|constructor].
    destruct (sortWeekdays_elements wds Hnd) as [_ Hs].
    apply Hs, He in Hwd as [[]|?]. done.
  - cbv zeta. cbn [RecurringOccurrence.StartTime makeOccurrence].
    rewrite candidateOfWeek_date by done.
    set (dt := RecurringSeries.DTStart s).
    set (day := mondayOf (dayOf loc dt) + k * interval s * 7 + (wd - 1)).
    assert (Hday : (day + 4) mod 7 = wd mod 7).
    { subst day. unfold mondayOf. set (ki := k * interval s).
      Z.div_mod_to_equations. lia. }
    split_and!; [done|done|].
    intros M Hreg Hrep Hex. unfold engineSpec.wallClock in Hrep, Hex. fold dt in Hrep, Hex.
    pose proof (wallClock_fields (localSec loc dt)) as Hf.
    fold (Hour loc dt) (Minute_of loc dt) (Second_of loc dt) in Hf.
    assert (HL : day * secondsPerDay + Hour loc dt * 3600 + Minute_of loc dt * 60
                 + Second_of loc dt
                 = day * secondsPerDay + localSec loc dt mod secondsPerDay) by lia.
    destruct (Date_reads_back M loc day (Hour loc dt) (Minute_of loc dt)
                (Second_of loc dt) (Nanosecond_of dt)) as [H1 H2].
    + exact Hreg.
    + by rewrite HL.
    + unfold Nanosecond_of, nsecOf, Second. apply Z.mod_pos_bound. lia.
    + by rewrite HL.
    + destruct (timeOfDay_of_localSec loc
                  (Date loc day (Hour loc dt) (Minute_of loc dt) (Second_of loc dt)
                     (Nanosecond_of dt)) dt day) as [_ Hd];
        [by rewrite H1, HL|exact H2|].
      split; [exact Hd|]. unfold Weekday. by rewrite Hd.
Qed.

(** X22.  [mondayDateUTC] returns midnight UTC of the Monday of the week of
    [t] read in the zone: a Monday, at most 6 days before the local date of
    [t]; and adding [weekdayOffsetFromMonday wd] days to it gives the date
    of weekday [wd] of that week (1 = Monday .. 7 = Sunday). *)
Theorem mondayDateUTC_is_the_Monday_of_the_local_week (loc : Location) (t : Time) :
  let m := mondayDateUTC loc t in
  m = dayOf UTCLoc m * secondsPerDay * Second
  /\ Weekday UTCLoc m = 1
  /\ dayOf UTCLoc m <= dayOf loc t <= dayOf UTCLoc m + 6
  /\ forall wd, 1 <= wd <= 7 ->
       let d := AddDateDays m (weekdayOffsetFromMonday wd) in
       dayOf UTCLoc d = dayOf UTCLoc m + (wd - 1)
       /\ Weekday UTCLoc d = wd mod 7.
Proof.
  intros m. subst m. rewrite mondayDateUTC_mondayOf.
  set (D := dayOf loc t). rewrite dayOf_UTC_midnight.
  assert (Hm : (mondayOf D + 4) mod 7 = 1).
  { unfold mondayOf. Z.div_mod_to_equations. lia. }
  split; [done|]. split; [|split].
  - unfold Weekday. by rewrite dayOf_UTC_midnight.
  - apply mondayOf_bounds.
  - intros wd Hwd. cbv zeta. unfold AddDateDays.
    replace (_ + weekdayOffsetFromMonday wd * secondsPerDay * Second)
      with ((mondayOf D + (wd - 1)) * secondsPerDay * Second).
    2:{ unfold weekdayOffsetFromMonday. destruct (Z.eqb_spec wd 7); lia. }
    unfold Weekday. rewrite dayOf_UTC_midnight. split; [done|].
    unfold mondayOf. Z.div_mod_to_equations. lia.
Qed.

End Order.

(** ** The service over the PostgreSQL repository *)

Section ServiceCreate.
Import GoTime domain postgres storeSpec createSpec.

Variable sha1sum : list Z -> list Z.
Variable tzdb : string -> option Location.

Lemma Sub_le (t u d : Z) : d < maxInt64 -> (d <? Sub t u) = false -> t - u <= d.
Proof.
  unfold Sub, minInt64, maxInt64. intros Hd H.
  destruct (Z.ltb_spec (t - u) (- 2 ^ 63)); [lia|].
  destruct (Z.ltb_spec (2 ^ 63 - 1) (t - u)); lia.
Qed.






End ServiceCreate.

Section ServiceSeries.
Import GoTime domain.

Variable tzdb : string -> option Location.

(** What the field checks of [Service.CreateRecurringSeries] establish. *)
Lemma checkSeriesFields_valid (in_ : appointments.CreateRecurringSeriesInput)
  (c : appointments.checkedSeries) :
  appointments.checkSeriesFields tzdb in_ = Ok c ->
  let s := appointments.cs_series c in
  let rule := appointments.Rule in_ in
  let start := appointments.rs_StartTime in_ in
  let end_ := appointments.rs_EndTime in_ in
  RecurringSeries.ID s = uuid.Nil
  /\ RecurringSeries.UserID s = appointments.rs_UserID in_
  /\ RecurringSeries.UserID s <> EmptyString
  /\ RecurringSeries.Title s = GoStrings.TrimSpace (appointments.rs_Title in_)
  /\ RecurringSeries.Title s <> EmptyString
  /\ RecurringSeries.Notes s = appointments.rs_Notes in_
  /\ RecurringSeries.Timezone s = GoStrings.TrimSpace (appointments.TimeZone rule)
  /\ RecurringSeries.DTStart s = start
  /\ start < end_ /\ end_ - start <= 24 * Hour_d
  /\ RecurringSeries.DurationSeconds s = (end_ - start) / Second
  /\ RecurringSeries.Frequency s = RecurrenceFrequencyWeekly
  /\ RecurringSeries.Interval s
     = (if appointments.Interval rule =? 0 then 1 else appointments.Interval rule)
  /\ 1 <= RecurringSeries.Interval s
  /\ StronglySorted Z.lt (RecurringSeries.ByWeekday s)
  /\ Forall (fun wd => 1 <= wd <= 7) (RecurringSeries.ByWeekday s)
  /\ RecurringSeries.ByWeekday s <> []
  /\ (exists loc,
        tzdb (RecurringSeries.Timezone s) = Some loc
        /\ forall wd,
             In wd (RecurringSeries.ByWeekday s)
             <-> In wd (match appointments.ByWeekday rule with
                        | [] => [if Weekday loc start =? Sunday then 7
                                 else Weekday loc start]
                        | l => l
                        end))
  /\ RecurringSeries.Until s = appointments.Until rule
  /\ (forall u, appointments.Until rule = Some u -> start <= u)
  /\ RecurringSeries.Count s = appointments.Count rule
  /\ (forall n, appointments.Count rule = Some n -> 1 <= n)
  /\ RecurringSeries.CreatedAt s = zeroTime
  /\ RecurringSeries.UpdatedAt s = zeroTime
  /\ appointments.cs_start c = start
  /\ appointments.cs_durationSeconds c = RecurringSeries.DurationSeconds s
  /\ appointments.cs_untilUTC c = appointments.Until rule
  /\ appointments.cs_count c = appointments.Count rule.
Proof.
  unfold appointments.checkSeriesFields, appointments.validationError, LoadLocation,
    UTC, Equal, Before.
  destruct (String.eqb_spec (GoStrings.TrimSpace (appointments.rs_Title in_)) EmptyString);
    [done|].
  destruct (String.eqb_spec (appointments.rs_UserID in_) EmptyString); [done|].
  set (frequency := if String.eqb _ EmptyString then _ else _).
  destruct (String.eqb_spec frequency RecurrenceFrequencyWeekly) as [Hf|]; [|done].
  cbn [negb].
  destruct (String.eqb_spec (GoStrings.TrimSpace
              (appointments.TimeZone (appointments.Rule in_))) EmptyString); [done|].
  destruct (tzdb _) as [loc|] eqn:Hloc; [|done].
  destruct (Z.eqb_spec (appointments.rs_EndTime in_) (appointments.rs_StartTime in_));
    [done|].
  destruct (Z.ltb_spec (appointments.rs_EndTime in_) (appointments.rs_StartTime in_));
    [done|]. cbn [orb].
  destruct (24 * Hour_d <? Sub _ _) eqn:Hd; [done|].
  pose proof Hd as Hd'. apply Sub_le in Hd'; [|by vm_compute].
  assert (HSub : Sub (appointments.rs_EndTime in_) (appointments.rs_StartTime in_)
                 = appointments.rs_EndTime in_ - appointments.rs_StartTime in_).
  { unfold Sub, minInt64, maxInt64, Hour_d, Minute, Second in *.
    destruct (Z.ltb_spec (appointments.rs_EndTime in_ - appointments.rs_StartTime in_)
                (- 2 ^ 63)); [lia|].
    destruct (Z.ltb_spec (2 ^ 63 - 1)
                (appointments.rs_EndTime in_ - appointments.rs_StartTime in_)); lia. }
  set (interval := if appointments.Interval _ =? 0 then 1 else _).
  destruct (Z.ltb_spec interval 1); [done|].
  set (weekdays := if (length _ =? 0)%nat then _ else _).
  destruct (dedupWeekdays weekdays []) as [normalized|] eqn:Hdd; [|done].
  destruct normalized as [|wd0 normalized]; [done|].
  change (length (wd0 :: normalized) =? 0)%nat with false. cbv iota.
  destruct (match appointments.Until _ with Some _ => _ | None => _ end) eqn:Hu; [done|].
  destruct (match appointments.Count _ with Some _ => _ | None => _ end) eqn:Hc; [done|].
  intros [= <-]. cbv zeta.
  cbn [appointments.cs_series appointments.cs_start appointments.cs_durationSeconds
       appointments.cs_untilUTC appointments.cs_count
       RecurringSeries.ID RecurringSeries.UserID RecurringSeries.Title
       RecurringSeries.Notes RecurringSeries.Timezone RecurringSeries.DTStart
       RecurringSeries.DurationSeconds RecurringSeries.Frequency
       RecurringSeries.Interval RecurringSeries.ByWeekday RecurringSeries.Until
       RecurringSeries.Count RecurringSeries.CreatedAt RecurringSeries.UpdatedAt].
  destruct (normalized_weekdays _ _ Hdd) as [Hsorted Hrange].
  pose proof (dedupWeekdays_elements _ _ _ Hdd) as Hel.
  pose proof Hdd as Hdd'. apply dedupWeekdays_inv in Hdd' as [Hnd _];
    [|constructor|constructor].
  destruct (sortWeekdays_elements _ Hnd) as [_ Hse].
  split_and!; try done; try lia.
  - rewrite HSub. rewrite Z.quot_div_nonneg; [done|lia|by vm_compute].
  - intros Hnil. pose proof (proj2 (Hse wd0) ltac:(by left)) as Hin0.
    rewrite Hnil in Hin0. done.
  - exists loc. split; [done|]. intros wd. rewrite Hse, Hel. cbn [In].
    subst weekdays. destruct (appointments.ByWeekday (appointments.Rule in_)); cbn;
      [destruct (Weekday loc _ =? Sunday); cbn|]; tauto.
  - by destruct (appointments.Until _).
  - intros u Hu'. rewrite Hu' in Hu. lia.
  - intros n' Hn'. rewrite Hn' in Hc. lia.
  - by destruct (appointments.Until _).
Qed.

Variable S : Type.
Variable repo : store.AppointmentRepository S.

(** [Service.CreateRecurringSeries] either fails in the service, leaving
    the store untouched, or ends with the call of the repository on the
    checked series. *)
Lemma CreateRecurringSeries_calls (st : S)
  (in_ : appointments.CreateRecurringSeriesInput) :
  (exists e, appointments.CreateRecurringSeries S repo tzdb st in_ = (st, Fail e))
  \/ exists c,
       appointments.checkSeriesFields tzdb in_ = Ok c
       /\ (appointments.cs_untilUTC c <> None \/ appointments.cs_count c <> None)
       /\ appointments.CreateRecurringSeries S repo tzdb st in_
          = store.CreateRecurringSeries repo st (appointments.cs_series c).
Proof.
  unfold appointments.CreateRecurringSeries.
  destruct (appointments.checkSeriesFields tzdb in_) as [c|e] eqn:Hc; [|left; by eexists].
  unfold appointments.checkHorizonAndCreate, appointments.validationError.
  destruct (appointments.cs_untilUTC c) as [u|] eqn:Hu;
    destruct (appointments.cs_count c) as [n|] eqn:Hn;
    try (left; by eexists).
  all: repeat match goal with
       | |- context [if ?b then _ else _] =>
           destruct b; try (left; by eexists)
       | |- context [match appointments.horizonExpansion ?t ?x with _ => _ end] =>
           destruct (appointments.horizonExpansion t x); try (left; by eexists)
       end.
  all: right; exists c; split; [done|]; split; [|done]; rewrite ?Hu, ?Hn;
    first [by left | by right].
Qed.

(** X25.  [Service.CreateRecurringSeries] hands the repository only
    normalized rules.  Either it fails without touching the store, or it
    returns what the repository returns for a series with: no id yet, the
    user, notes and start of the request, the trimmed non-empty title, the
    trimmed name of a known time zone, the whole seconds between start and
    end (the end being after the start and at most 24 hours later), the
    weekly frequency, an interval of at least 1 (1 for a request with
    interval 0), the weekdays of the request without repeats in ascending
    order, all between 1 and 7 - for a request without weekdays the weekday
    of the start in the zone, Sunday as 7 -, an [until] not before the
    start, a count of at least 1, and one of the two present. *)
Theorem Service_CreateRecurringSeries_normalizes (st : S)
  (in_ : appointments.CreateRecurringSeriesInput) :
  let rule := appointments.Rule in_ in
  let start := appointments.rs_StartTime in_ in
  let end_ := appointments.rs_EndTime in_ in
  (exists e, appointments.CreateRecurringSeries S repo tzdb st in_ = (st, Fail e))
  \/ exists s loc,
       appointments.CreateRecurringSeries S repo tzdb st in_
         = store.CreateRecurringSeries repo st s
       /\ RecurringSeries.ID s = uuid.Nil
       /\ RecurringSeries.UserID s = appointments.rs_UserID in_
       /\ RecurringSeries.UserID s <> EmptyString
       /\ RecurringSeries.Title s = GoStrings.TrimSpace (appointments.rs_Title in_)
       /\ RecurringSeries.Title s <> EmptyString
       /\ RecurringSeries.Notes s = appointments.rs_Notes in_
       /\ RecurringSeries.Timezone s = GoStrings.TrimSpace (appointments.TimeZone rule)
       /\ tzdb (RecurringSeries.Timezone s) = Some loc
       /\ RecurringSeries.DTStart s = start
       /\ start < end_ /\ end_ - start <= 24 * Hour_d
       /\ RecurringSeries.DurationSeconds s = (end_ - start) / Second
       /\ RecurringSeries.Frequency s = RecurrenceFrequencyWeekly
       /\ RecurringSeries.Interval s
          = (if appointments.Interval rule =? 0 then 1 else appointments.Interval rule)
       /\ 1 <= RecurringSeries.Interval s
       /\ StronglySorted Z.lt (RecurringSeries.ByWeekday s)
       /\ Forall (fun wd => 1 <= wd <= 7) (RecurringSeries.ByWeekday s)
       /\ (forall wd,
             In wd (RecurringSeries.ByWeekday s)
             <-> In wd (match appointments.ByWeekday rule with
                        | [] => [if Weekday loc start =? Sunday then 7
                                 else Weekday loc start]
                        | l => l
                        end))
       /\ RecurringSeries.Until s = appointments.Until rule
       /\ (forall u, RecurringSeries.Until s = Some u -> start <= u)
       /\ RecurringSeries.Count s = appointments.Count rule
       /\ (forall n, RecurringSeries.Count s = Some n -> 1 <= n)
       /\ (RecurringSeries.Until s <> None \/ RecurringSeries.Count s <> None).
Proof.
  intros rule start end_.
  destruct (CreateRecurringSeries_calls st in_) as [?|(c & Hc & Hone & Hcall)];
    [by left|right].
  apply checkSeriesFields_valid in Hc
    as (H1 & H2 & H3 & H4 & H5 & H6 & H7 & H8 & H9 & H10 & H11 & H12 & H13 & H14
        & H15 & H16 & H17 & (loc & Hloc & Hwd) & H19 & H20 & H21 & H22 & H23 & H24
        & H25 & H26 & H27 & H28).
  exists (appointments.cs_series c), loc.
  fold rule start end_ in H7, H8, H9, H10, H11, H13, Hwd, H19, H20, H21, H22.
  rewrite H27, H28 in Hone.
  repeat (split; [done|]).
  split; [by rewrite H19|]. split; [done|]. split; [by rewrite H21|].
  by rewrite H19, H21.
Qed.

(** The horizon expansion of a series of less than a second. *)
Lemma subsecond_series_result (st : S)
  (in_ : appointments.CreateRecurringSeriesInput) (c : appointments.checkedSeries) :
  appointments.checkSeriesFields tzdb in_ = Ok c ->
  appointments.rs_EndTime in_ - appointments.rs_StartTime in_ < Second ->
  (appointments.Count (appointments.Rule in_) <> None
   \/ exists u, appointments.Until (appointments.Rule in_) = Some u
                /\ u <= appointments.rs_StartTime in_ + 180 * 24 * Hour_d) ->
  RecurringSeries.DurationSeconds (appointments.cs_series c) = 0
  /\ appointments.CreateRecurringSeries S repo tzdb st in_
     = (st, Fail (ErrorString "invalid duration")).
Proof.
  intros Hc Hsub Hh. pose proof Hc as Hv. apply checkSeriesFields_valid in Hv
    as (H1 & H2 & H3 & H4 & H5 & H6 & H7 & H8 & H9 & H10 & H11 & H12 & H13 & H14
        & H15 & H16 & H17 & (loc & Hloc & Hwd) & H19 & H20 & H21 & H22 & H23 & H24
        & H25 & H26 & H27 & H28).
  assert (Hdur : RecurringSeries.DurationSeconds (appointments.cs_series c) = 0).
  { rewrite H11. unfold Second in *. Z.div_mod_to_equations. lia. }
  split; [done|].
  unfold appointments.CreateRecurringSeries. rewrite Hc.
  unfold appointments.checkHorizonAndCreate, appointments.validationError.
  rewrite H27, H28.
  assert (Hexp : appointments.horizonExpansion tzdb c
                 = Fail (ErrorString "invalid duration")).
  { unfold appointments.horizonExpansion, GenerateWeeklyOccurrences.
    cbn [appointments.withUntilCount RecurringSeries.Frequency
         RecurringSeries.DurationSeconds].
    rewrite H12, Hdur. done. }
  rewrite Hexp.
  unfold appointments.lookaheadEnd, store.RecurringConflictLookahead, After, Add.
  rewrite H25.
  destruct (appointments.Until (appointments.Rule in_)) as [u|] eqn:Hu;
    destruct (appointments.Count (appointments.Rule in_)) as [n|] eqn:Hn; try done.
  - destruct Hh as [?|(u' & [= <-] & Hle)]; [done|].
    destruct (Z.ltb_spec (appointments.rs_StartTime in_ + 180 * 24 * Hour_d) u); [lia|done].
  - destruct Hh as [?|(u' & ? & _)]; done.
Qed.

(** X26.  A request whose end is less than one second after its start passes
    the field checks with a duration of 0 seconds; unless a horizon check
    rejects it first, [Service.CreateRecurringSeries] then fails with the
    plain error "invalid duration" of the engine - not a
    [ValidationError] - and never calls the repository. *)
Theorem subsecond_series_fails_with_plain_error (st : S)
  (in_ : appointments.CreateRecurringSeriesInput) (c : appointments.checkedSeries) :
  appointments.checkSeriesFields tzdb in_ = Ok c ->
  appointments.rs_EndTime in_ - appointments.rs_StartTime in_ < Second ->
  (appointments.Count (appointments.Rule in_) <> None
   \/ exists u, appointments.Until (appointments.Rule in_) = Some u
                /\ u <= appointments.rs_StartTime in_ + 180 * 24 * Hour_d) ->
  RecurringSeries.DurationSeconds (appointments.cs_series c) = 0
  /\ appointments.CreateRecurringSeries S repo tzdb st in_
     = (st, Fail (ErrorString "invalid duration")).
Proof. exact (subsecond_series_result st in_ c). Qed.

End ServiceSeries.

(** ** The gRPC transport *)

Section Transport.
Import GoTime GoInt domain postgres createSpec.

Variable sha1sum : list Z -> list Z.
Variable tzdb : string -> option Location.

Lemma AsTime_New (t : Time) : timestamppb.AsTime (timestamppb.New t) = t.
Proof.
  unfold timestamppb.AsTime, timestamppb.New, unixSec, nsecOf.
  cbn [timestamppb.Seconds timestamppb.Nanos].
  rewrite Z.mul_comm. symmetry. apply Z.div_mod. unfold Second. lia.
Qed.

Lemma int16_small (z : Z) : - 2 ^ 15 <= z < 2 ^ 15 -> int16 z = z.
Proof. unfold int16. intros H. rewrite Z.mod_small; lia. Qed.

Lemma filter_id {A : Type} (f : A -> bool) (l : list A) :
  Forall (fun x => f x = true) l -> List.filter f l = l.
Proof.
  induction 1 as [|x l Hx _ IH]; [done|]. cbn [List.filter]. by rewrite Hx, IH.
Qed.

Lemma map_id_Forall {A : Type} (f : A -> A) (l : list A) :
  Forall (fun x => f x = x) l -> List.map f l = l.
Proof.
  induction 1 as [|x l Hx _ IH]; [done|]. cbn [List.map]. by rewrite Hx, IH.
Qed.

(** X27.  The weekly rule survives the round trip through its message:
    for a series whose weekdays lie between 1 and 7 and whose interval and
    count fit the unsigned 32-bit fields of the message (a count being
    positive), the rule the server reads from
    [toProtoWeeklyRecurrence s] is the rule of [s]. *)
Theorem weekly_rule_round_trip (s : RecurringSeries.t) :
  Forall (fun wd => 1 <= wd <= 7) (RecurringSeries.ByWeekday s) ->
  0 <= RecurringSeries.Interval s < 2 ^ 32 ->
  (forall c, RecurringSeries.Count s = Some c -> 0 < c < 2 ^ 32) ->
  grpc.weeklyRule (grpc.toProtoWeeklyRecurrence s)
  = appointments.mkRecurrenceRuleInput RecurrenceFrequencyWeekly
      (RecurringSeries.Interval s) (RecurringSeries.ByWeekday s)
      (RecurringSeries.Until s) (RecurringSeries.Count s)
      (RecurringSeries.Timezone s).
Proof.
  intros Hwd Hi Hc.
  unfold grpc.weeklyRule, grpc.toProtoWeeklyRecurrence.
  cbn [schedulev1.WeeklyRecurrence.Interval schedulev1.WeeklyRecurrence.Weekdays
       schedulev1.WeeklyRecurrence.Until schedulev1.WeeklyRecurrence.Count
       schedulev1.WeeklyRecurrence.TimeZone].
  f_equal.
  - unfold uint32. apply Z.mod_small. lia.
  - rewrite (filter_id _ (RecurringSeries.ByWeekday s)).
    2:{ eapply Forall_impl; [exact Hwd|]. cbv beta. intros wd H.
        destruct (Z.ltb_spec wd 1); [lia|]. destruct (Z.ltb_spec 7 wd); [lia|]. done. }
    rewrite filter_id.
    2:{ eapply Forall_impl; [exact Hwd|]. cbv beta. intros wd H.
        unfold schedulev1.Weekday_WEEKDAY_UNSPECIFIED.
        destruct (Z.eqb_spec wd 0); [lia|done]. }
    apply map_id_Forall. eapply Forall_impl; [exact Hwd|]. cbv beta.
    intros wd H. apply int16_small. lia.
  - destruct (RecurringSeries.Until s) as [u|]; [|done].
    cbn [option_map]. unfold UTC. by rewrite AsTime_New.
  - destruct (RecurringSeries.Count s) as [c|] eqn:E; [|done].
    specialize (Hc c eq_refl).
    destruct (Z.ltb_spec 0 c); [|lia].
    unfold uint32. rewrite Z.mod_small by lia.
    destruct (Z.ltb_spec 0 c); [done|lia].
Qed.


Lemma RepoCreateRecurringSeries_returns
  (env : HookEnv) (db db' : DB) (series s : RecurringSeries.t) :
  RepoCreateRecurringSeries tzdb env db series = (db', Ok s) ->
  s = RecurringSeries.mk (RecurringSeries.ID s) (RecurringSeries.UserID series)
        (RecurringSeries.Title series) (RecurringSeries.Notes series)
        (RecurringSeries.Timezone series) (RecurringSeries.DTStart series)
        (RecurringSeries.DurationSeconds series) (RecurringSeries.Frequency series)
        (RecurringSeries.Interval series) (RecurringSeries.ByWeekday series)
        (RecurringSeries.Until series) (RecurringSeries.Count series)
        (RecurringSeries.CreatedAt series) (RecurringSeries.UpdatedAt series).
Proof.
  unfold RepoCreateRecurringSeries.
  destruct (ensureNoRecurringSeriesConflicts tzdb db series); [|done].
  unfold CreateRecurringSeries. destruct (negb _); [done|].
  destruct (existsb _ _); [done|].
  by intros [= <- <-].
Qed.

(** X29.  What the reply of a successful RPC [CreateRecurringSeries] over
    the PostgreSQL repository contains, for a request whose interval and
    count fit their unsigned 32-bit fields: the user, the notes and the
    start of the request, the trimmed title, an end that is the start plus
    the whole seconds of the requested length (a fraction of a second is
    dropped), and the normalized rule - interval 1 for 0, the count and the
    [until] of the request, the trimmed name of a known zone, the weekdays
    in ascending order without repeats, all between 1 and 7 (for a request
    without weekdays the weekday of the start in the zone).  Its
    [created_at] and [updated_at] are the zero time, not the stored
    timestamps. *)
Theorem created_series_reply_echoes_the_normalized_rule
  (env : HookEnv) (db db' : DB)
  (req : schedulev1.CreateRecurringSeriesRequest.t)
  (startTime endTime : timestamppb.Timestamp)
  (weekly : schedulev1.WeeklyRecurrence.t)
  (resp : schedulev1.CreateRecurringSeriesResponse.t) :
  grpc.AppointmentsServer.CreateRecurringSeries DB
    (grpc.Service DB (AppointmentRepo tzdb env) AppointmentRepoListDelete sha1sum tzdb)
    db (Some req) = (db', grpc.Reply resp) ->
  schedulev1.CreateRecurringSeriesRequest.StartTime req = Some startTime ->
  schedulev1.CreateRecurringSeriesRequest.EndTime req = Some endTime ->
  schedulev1.CreateRecurringSeriesRequest.Weekly req = Some weekly ->
  0 <= schedulev1.WeeklyRecurrence.Interval weekly < 2 ^ 32 ->
  0 <= schedulev1.WeeklyRecurrence.Count weekly < 2 ^ 32 ->
  let start := timestamppb.AsTime startTime in
  let end_ := timestamppb.AsTime endTime in
  exists series w loc,
    schedulev1.CreateRecurringSeriesResponse.Series resp = Some series
    /\ schedulev1.RecurringSeries.Weekly series = Some w
    /\ schedulev1.RecurringSeries.UserId series
       = schedulev1.CreateRecurringSeriesRequest.UserId req
    /\ schedulev1.RecurringSeries.Title series
       = GoStrings.TrimSpace (schedulev1.CreateRecurringSeriesRequest.Title req)
    /\ schedulev1.RecurringSeries.Notes series
       = schedulev1.CreateRecurringSeriesRequest.Notes req
    /\ option_map timestamppb.AsTime (schedulev1.RecurringSeries.StartTime series)
       = Some start
    /\ option_map timestamppb.AsTime (schedulev1.RecurringSeries.EndTime series)
       = Some (start + (end_ - start) / Second * Second)
    /\ option_map timestamppb.AsTime (schedulev1.RecurringSeries.CreatedAt series)
       = Some zeroTime
    /\ option_map timestamppb.AsTime (schedulev1.RecurringSeries.UpdatedAt series)
       = Some zeroTime
    /\ schedulev1.WeeklyRecurrence.Interval w
       = (if (schedulev1.WeeklyRecurrence.Interval weekly =? 0)%Z then 1
          else schedulev1.WeeklyRecurrence.Interval weekly)
    /\ schedulev1.WeeklyRecurrence.Count w = schedulev1.WeeklyRecurrence.Count weekly
    /\ schedulev1.WeeklyRecurrence.TimeZone w
       = GoStrings.TrimSpace (schedulev1.WeeklyRecurrence.TimeZone weekly)
    /\ tzdb (schedulev1.WeeklyRecurrence.TimeZone w) = Some loc
    /\ option_map timestamppb.AsTime (schedulev1.WeeklyRecurrence.Until w)
       = option_map timestamppb.AsTime (schedulev1.WeeklyRecurrence.Until weekly)
    /\ StronglySorted Z.lt (schedulev1.WeeklyRecurrence.Weekdays w)
    /\ Forall (fun wd => 1 <= wd <= 7) (schedulev1.WeeklyRecurrence.Weekdays w)
    /\ forall wd,
         In wd (schedulev1.WeeklyRecurrence.Weekdays w)
         <-> In wd (match appointments.ByWeekday (grpc.weeklyRule weekly) with
                    | [] => [if (Weekday loc start =? Sunday)%Z then 7
                             else Weekday loc start]
                    | l => l
                    end).
Proof.
  intros Hrun Hs He Hw Hi Hcnt start end_. revert Hrun.
  unfold grpc.AppointmentsServer.CreateRecurringSeries. rewrite Hs, He, Hw.
  cbn [grpc.CreateRecurringSeries grpc.Service].
  set (in_ := appointments.mkCreateRecurringSeriesInput _ _ _ _ _ _).
  destruct (CreateRecurringSeries_calls tzdb DB (AppointmentRepo tzdb env) db in_)
    as [[e ->]|(c & Hc & _ & ->)]; [by destruct e|].
  cbn [store.CreateRecurringSeries AppointmentRepo].
  destruct (RepoCreateRecurringSeries tzdb env db (appointments.cs_series c))
    as [db1 [s|e]] eqn:Hr; [|by destruct e].
  intros [= <- <-]. apply RepoCreateRecurringSeries_returns in Hr.
  apply checkSeriesFields_valid in Hc
    as (_ & H2 & _ & H4 & _ & H6 & H7 & H8 & H9 & H10 & H11 & _ & H13 & H14
        & H15 & H16 & _ & (loc & Hloc & Hwd) & H19 & _ & H21 & _ & H23 & H24 & _).
  subst in_.
  cbn [appointments.Rule appointments.rs_StartTime appointments.rs_EndTime
       appointments.rs_UserID appointments.rs_Title appointments.rs_Notes] in *.
  fold start in H8, H9, H10, H11, Hwd. fold end_ in H9, H10, H11.
  exists (grpc.toProtoRecurringSeries s), (grpc.toProtoWeeklyRecurrence s), loc.
  assert (Hfilter : List.filter (fun wd => negb ((wd <? 1) || (7 <? wd)))
                      (RecurringSeries.ByWeekday (appointments.cs_series c))
                    = RecurringSeries.ByWeekday (appointments.cs_series c)).
  { apply filter_id. eapply Forall_impl; [exact H16|]. cbv beta. intros wd H.
    destruct (Z.ltb_spec wd 1); [lia|]. destruct (Z.ltb_spec 7 wd); [lia|]. done. }
  rewrite Hr.
  unfold grpc.toProtoRecurringSeries, grpc.toProtoWeeklyRecurrence.
  cbn [schedulev1.CreateRecurringSeriesResponse.Series
       schedulev1.RecurringSeries.Weekly schedulev1.RecurringSeries.UserId
       schedulev1.RecurringSeries.Title schedulev1.RecurringSeries.Notes
       schedulev1.RecurringSeries.StartTime schedulev1.RecurringSeries.EndTime
       schedulev1.RecurringSeries.CreatedAt schedulev1.RecurringSeries.UpdatedAt
       schedulev1.WeeklyRecurrence.Interval schedulev1.WeeklyRecurrence.Count
       schedulev1.WeeklyRecurrence.TimeZone schedulev1.WeeklyRecurrence.Until
       schedulev1.WeeklyRecurrence.Weekdays
       RecurringSeries.ID RecurringSeries.UserID RecurringSeries.Title
       RecurringSeries.Notes RecurringSeries.Timezone RecurringSeries.DTStart
       RecurringSeries.DurationSeconds RecurringSeries.Interval
       RecurringSeries.ByWeekday RecurringSeries.Until RecurringSeries.Count
       RecurringSeries.CreatedAt RecurringSeries.UpdatedAt option_map].
  rewrite Hfilter, !AsTime_New, H2, H4, H6, H7, H8, H11, H13, H19, H21, H23, H24.
  cbn [grpc.weeklyRule appointments.Interval appointments.Count
       appointments.TimeZone appointments.Until].
  split; [done|]. split; [done|]. split; [done|]. split; [done|]. split; [done|].
  split; [done|].
  split.
  { f_equal. unfold Add. f_equal. apply wrap64_inRange.
    unfold spec.inRange, minInt64, maxInt64, Hour_d, Minute, Second in *.
    Z.div_mod_to_equations. lia. }
  split; [done|]. split; [done|].
  split.
  { unfold uint32. apply Z.mod_small.
    destruct (Z.eqb_spec (schedulev1.WeeklyRecurrence.Interval weekly) 0); lia. }
  split.
  { destruct (Z.ltb_spec 0 (schedulev1.WeeklyRecurrence.Count weekly)) as [Hp|Hn].
    - destruct (Z.ltb_spec 0 (schedulev1.WeeklyRecurrence.Count weekly)); [|lia].
      unfold uint32. apply Z.mod_small. lia.
    - lia. }
  split; [done|].
  split.
  { rewrite H7 in Hloc. exact Hloc. }
  split.
  { destruct (schedulev1.WeeklyRecurrence.Until weekly) as [u|]; [|done].
    cbn [option_map]. unfold UTC. by rewrite AsTime_New. }
  split; [done|]. split; [done|]. exact Hwd.
Qed.

Variable S : Type.
Variable repo : store.AppointmentRepository S.
Variable listDelete : store.AppointmentListDelete S.

(** X30.  The RPC [CreateRecurringSeries] answers a request whose end is
    less than one second after its start with [Internal], not with
    [InvalidArgument]: when the request passes the field checks of the
    service and has a count, or an [until] within 180 days of the start,
    the answer is the status [Internal] "internal error" and the store is
    not touched. *)
Theorem subsecond_series_rpc_answers_internal (st : S)
  (req : schedulev1.CreateRecurringSeriesRequest.t)
  (startTime endTime : timestamppb.Timestamp)
  (weekly : schedulev1.WeeklyRecurrence.t) (c : appointments.checkedSeries) :
  schedulev1.CreateRecurringSeriesRequest.StartTime req = Some startTime ->
  schedulev1.CreateRecurringSeriesRequest.EndTime req = Some endTime ->
  schedulev1.CreateRecurringSeriesRequest.Weekly req = Some weekly ->
  appointments.checkSeriesFields tzdb
    (appointments.mkCreateRecurringSeriesInput
       (schedulev1.CreateRecurringSeriesRequest.UserId req)
       (schedulev1.CreateRecurringSeriesRequest.Title req)
       (schedulev1.CreateRecurringSeriesRequest.Notes req)
       (timestamppb.AsTime startTime) (timestamppb.AsTime endTime)
       (grpc.weeklyRule weekly)) = Ok c ->
  timestamppb.AsTime endTime - timestamppb.AsTime startTime < Second ->
  (0 < schedulev1.WeeklyRecurrence.Count weekly
   \/ exists u, schedulev1.WeeklyRecurrence.Until weekly = Some u
                /\ timestamppb.AsTime u
                   <= timestamppb.AsTime startTime + 180 * 24 * Hour_d) ->
  grpc.AppointmentsServer.CreateRecurringSeries S
    (grpc.Service S repo listDelete sha1sum tzdb) st (Some req)
  = (st, grpc.Status codes.Internal "internal error"%string).
Proof.
  intros Hs He Hw Hc Hsub Hh.
  unfold grpc.AppointmentsServer.CreateRecurringSeries. rewrite Hs, He, Hw.
  cbn [grpc.CreateRecurringSeries grpc.Service].
  destruct (subsecond_series_result tzdb S repo st _ c Hc) as [_ ->]; [done| |done].
  cbn [appointments.Rule appointments.Count appointments.Until
       appointments.rs_StartTime grpc.weeklyRule].
  destruct Hh as [Hpos|(u & Hu & Hle)].
  - left. destruct (Z.ltb_spec 0 (schedulev1.WeeklyRecurrence.Count weekly)); [done|lia].
  - right. exists (timestamppb.AsTime u). rewrite Hu. done.
Qed.

End Transport.

(** ** Examples *)

Section StoreExamples.
Import GoTime domain postgres.
Local Open Scope string_scope.


Lemma db1_wellFormed : storeSpec.wellFormed storeSamples.db1.
Proof.
  split; [|split].
  - constructor; [vm_compute; reflexivity|constructor].
  - apply NoDup_singleton.
  - constructor; constructor.
Defined.

Lemma appointments_stay_overlap_free_witness :
  storeSpec.wellFormed
    (CreateAppointment createSamples.env1 storeSamples.db1 storeSamples.abutting).1
  /\ storeSpec.wellFormed
       (DeleteAppointment storeSamples.db1 "u1" (scenarios.seriesID 901)).1.
Proof.
  split.
  - apply (proj1 (appointments_stay_overlap_free createSamples.env1 storeSamples.db1
                    db1_wellFormed) storeSamples.abutting _
             (CreateAppointment createSamples.env1 storeSamples.db1
                storeSamples.abutting).2).
    apply surjective_pairing.
  - apply (proj2 (appointments_stay_overlap_free createSamples.env1 storeSamples.db1
                    db1_wellFormed) "u1" (scenarios.seriesID 901) _
             (DeleteAppointment storeSamples.db1 "u1" (scenarios.seriesID 901)).2).
    apply surjective_pairing.
Defined.


Lemma DeleteAppointment_removes_only_the_named_row_witness :
  DeleteAppointment storeSamples.db1 "u2" (scenarios.seriesID 901)
    = (storeSamples.db1, Fail ErrNotFound)
  /\ exists db',
       DeleteAppointment storeSamples.db1 "u1" (scenarios.seriesID 901) = (db', Ok tt)
       /\ forall a, ~ In a (appointments db').
Proof.
  split.
  - apply (proj1 (DeleteAppointment_removes_only_the_named_row storeSamples.db1 "u2"
                    (scenarios.seriesID 901))).
    split; [reflexivity|]. intros (a & [<-|[]] & Hu & _). vm_compute in Hu.
    discriminate Hu.
  - destruct (proj2 (DeleteAppointment_removes_only_the_named_row storeSamples.db1 "u1"
                       (scenarios.seriesID 901)))
      as (db' & Hd & Hrows & _).
    + exists storeSamples.a1. split; [by left|]. split; reflexivity.
    + exists db'. split; [exact Hd|]. intros a Ha. apply Hrows in Ha as [[<-|[]] Hn].
      apply Hn. split; reflexivity.
Defined.

Lemma delete_undoes_create_witness :
  exists db' a,
    CreateAppointment createSamples.env1 storeSamples.db1 storeSamples.abutting
      = (db', Ok a)
    /\ DeleteAppointment db' "u1" (scenarios.seriesID 903) = (storeSamples.db1, Ok tt).
Proof.
  eexists. eexists. split; [vm_compute; reflexivity|].
  apply (delete_undoes_create createSamples.env1 storeSamples.db1 _
           storeSamples.abutting storeSamples.abutting).
  - vm_compute. intros [H|[]]. discriminate H.
  - vm_compute. reflexivity.
Defined.

Lemma delete_frees_the_slot_witness :
  exists db' db'',
    DeleteAppointment storeSamples.db1 "u1" (scenarios.seriesID 901) = (db', Ok tt)
    /\ CreateAppointment createSamples.env1 db' storeSamples.inside
       = (db'', Ok storeSamples.inside).
Proof.
  exists (mkDB [] [] []).
  destruct (delete_frees_the_slot createSamples.env1 storeSamples.db1 (mkDB [] [] [])
              storeSamples.a1 storeSamples.inside)
    as (db'' & row & Hc & _).
  - exact db1_wellFormed.
  - by left.
  - vm_compute. reflexivity.
  - reflexivity.
  - vm_compute. reflexivity.
  - vm_compute. reflexivity.
  - vm_compute. discriminate.
  - vm_compute. reflexivity.
  - vm_compute. discriminate.
  - intros [].
  - exists db''. split; [vm_compute; reflexivity|]. exact Hc.
Defined.




Lemma S5_overridden_wellFormed : seriesSpec.wellFormed storeSamples.S5_overridden.
Proof.
  split; [|split; [|split]].
  - apply NoDup_singleton.
  - apply NoDup_singleton.
  - apply NoDup_singleton.
  - constructor; [by left|constructor].
Defined.

Lemma series_relations_stay_well_formed_witness :
  seriesSpec.wellFormed
    (UpsertRecurringException createSamples.env1 storeSamples.S5_overridden
       storeSamples.skipSecond).1
  /\ seriesSpec.wellFormed
       (DeleteRecurringSeries storeSamples.S5_overridden "u1" (scenarios.seriesID 5)).1
  /\ seriesSpec.wellFormed
       (CreateRecurringSeries createSamples.env1 storeSamples.S5_overridden
          scenarios.S5_gap).1.
Proof.
  pose proof (series_relations_stay_well_formed createSamples.env1
                storeSamples.S5_overridden S5_overridden_wellFormed) as (Hc & Hu & Hd).
  split; [|split].
  - apply (Hu storeSamples.skipSecond _
             (UpsertRecurringException createSamples.env1 storeSamples.S5_overridden
                storeSamples.skipSecond).2).
    apply surjective_pairing.
  - apply (Hd "u1" (scenarios.seriesID 5) _
             (DeleteRecurringSeries storeSamples.S5_overridden "u1"
                (scenarios.seriesID 5)).2).
    apply surjective_pairing.
  - apply (Hc scenarios.S5_gap _
             (CreateRecurringSeries createSamples.env1 storeSamples.S5_overridden
                scenarios.S5_gap).2).
    apply surjective_pairing.
Defined.

Lemma DeleteRecurringSeries_cascades_witness :
  DeleteRecurringSeries storeSamples.S5_overridden "u2" (scenarios.seriesID 5)
    = (storeSamples.S5_overridden, Fail ErrNotFound)
  /\ exists db',
       DeleteRecurringSeries storeSamples.S5_overridden "u1" (scenarios.seriesID 5)
         = (db', Ok tt)
       /\ forall e, ~ In e (recurring_exceptions db').
Proof.
  split.
  - apply (proj1 (DeleteRecurringSeries_cascades storeSamples.S5_overridden "u2"
                    (scenarios.seriesID 5))).
    split; [reflexivity|]. intros (s & [<-|[]] & Hu & _). vm_compute in Hu.
    discriminate Hu.
  - destruct (proj2 (DeleteRecurringSeries_cascades storeSamples.S5_overridden "u1"
                       (scenarios.seriesID 5)))
      as (db' & Hd & _ & _ & Hex).
    + exists scenarios.S5. split; [by left|]. split; reflexivity.
    + exists db'. split; [exact Hd|]. intros e He. apply Hex in He as [[<-|[]] Hn].
      apply Hn. reflexivity.
Defined.


Lemma created_series_is_listed_witness :
  exists db' s occs res,
    RepoCreateRecurringSeries tzdata.tzdb createSamples.env1 scenarios.S5_db
      conflictSamples.S6_series = (db', Ok s)
    /\ GenerateWeeklyOccurrences tzdata.tzdb s
         (utcDate 2026 1 1 0 0 0) (utcDate 2026 2 1 0 0 0) = Ok occs
    /\ ListOccurrences tzdata.tzdb db' "u1"
         (utcDate 2026 1 1 0 0 0) (utcDate 2026 2 1 0 0 0) = Ok res
    /\ length occs = 3%nat
    /\ forall o, In o occs -> In o res.
Proof.
  destruct (RepoCreateRecurringSeries tzdata.tzdb createSamples.env1 scenarios.S5_db
              conflictSamples.S6_series) as [db' [s|e]] eqn:Hc;
    [|vm_compute in Hc; discriminate Hc].
  assert (Hs : s = conflictSamples.S6_series).
  { pose proof Hc as Hc'. vm_compute in Hc'. injection Hc' as _ <-. reflexivity. }
  destruct (GenerateWeeklyOccurrences tzdata.tzdb s
              (utcDate 2026 1 1 0 0 0) (utcDate 2026 2 1 0 0 0)) as [occs|e] eqn:Hg;
    [|rewrite Hs in Hg; vm_compute in Hg; discriminate Hg].
  destruct (ListOccurrences tzdata.tzdb db' (RecurringSeries.UserID s)
              (utcDate 2026 1 1 0 0 0) (utcDate 2026 2 1 0 0 0)) as [res|e] eqn:Hl.
  2:{ exfalso. pose proof Hc as Hc'. vm_compute in Hc'. injection Hc' as <- <-.
      vm_compute in Hl. discriminate Hl. }
  exists db', s, occs, res. split; [reflexivity|]. split; [exact Hg|].
  split; [rewrite Hs in Hl; exact Hl|]. split.
  - rewrite Hs in Hg. vm_compute in Hg. injection Hg as <-. reflexivity.
  - apply (created_series_is_listed tzdata.tzdb createSamples.env1 scenarios.S5_db db'
             conflictSamples.S6_series s (utcDate 2026 1 1 0 0 0)
             (utcDate 2026 2 1 0 0 0) occs res).
    + vm_compute. reflexivity.
    + vm_compute. reflexivity.
    + vm_compute. reflexivity.
    + vm_compute. reflexivity.
    + split; [|split; [|split]]; [apply NoDup_singleton|constructor|constructor
                                 |constructor].
    + exact Hc.
    + exact Hg.
    + exact Hl.
Defined.

Lemma deleted_series_is_not_listed_witness :
  exists db',
    DeleteRecurringSeries storeSamples.S5_overridden "u1" (scenarios.seriesID 5)
      = (db', Ok tt)
    /\ ListOccurrences tzdata.tzdb db' "u1"
         scenarios.S5_windowStart scenarios.S5_windowEnd = Ok [].
Proof.
  destruct (DeleteRecurringSeries storeSamples.S5_overridden "u1" (scenarios.seriesID 5))
    as [db' [[]|e]] eqn:Hd; [|vm_compute in Hd; discriminate Hd].
  exists db'. split; [reflexivity|].
  destruct (ListOccurrences tzdata.tzdb db' "u1"
              scenarios.S5_windowStart scenarios.S5_windowEnd) as [res|e] eqn:Hl.
  2:{ exfalso. pose proof Hd as Hd'. vm_compute in Hd'. injection Hd' as <-.
      vm_compute in Hl. discriminate Hl. }
  f_equal. destruct res as [|o res]; [reflexivity|]. exfalso.
  pose proof (proj1 (deleted_series_is_not_listed tzdata.tzdb storeSamples.S5_overridden
                       db' "u1" (scenarios.seriesID 5)
                       scenarios.S5_windowStart scenarios.S5_windowEnd Hd)
                (o :: res) o Hl ltac:(by left)) as Hne.
  apply Hne. pose proof Hd as Hd'. vm_compute in Hd'. injection Hd' as <-.
  vm_compute in Hl. discriminate Hl.
Defined.

Lemma skipped_occurrence_is_not_listed_witness :
  exists db' r res,
    UpsertRecurringException createSamples.env1 scenarios.S5_db storeSamples.skipSecond
      = (db', Ok r)
    /\ ListOccurrences tzdata.tzdb db' "u1"
         scenarios.S5_windowStart scenarios.S5_windowEnd = Ok res
    /\ length res = 2%nat
    /\ forall o, In o res ->
         RecurringOccurrence.ID o
           <> GoStrings.FormatInt (UnixNano (utcDate 2026 3 8 13 0 0)).
Proof.
  destruct (UpsertRecurringException createSamples.env1 scenarios.S5_db
              storeSamples.skipSecond) as [db' [r|e]] eqn:Hu;
    [|vm_compute in Hu; discriminate Hu].
  assert (Hdb : db' = mkDB [] [scenarios.S5]
                        [RecurringException_BeforeAppendModel createSamples.env1
                           storeSamples.skipSecond]).
  { pose proof Hu as Hu'. vm_compute in Hu'. injection Hu' as <- _. reflexivity. }
  destruct (ListOccurrences tzdata.tzdb db' "u1"
              scenarios.S5_windowStart scenarios.S5_windowEnd) as [res|e] eqn:Hl;
    [|rewrite Hdb in Hl; vm_compute in Hl; discriminate Hl].
  exists db', r, res. split; [reflexivity|]. split; [exact Hl|]. split.
  - pose proof Hl as Hl'. rewrite Hdb in Hl'. vm_compute in Hl'. injection Hl' as <-.
    reflexivity.
  - intros o Ho.
    apply (skipped_occurrence_is_not_listed tzdata.tzdb createSamples.env1
             scenarios.S5_db db' storeSamples.skipSecond r "u1"
             scenarios.S5_windowStart scenarios.S5_windowEnd res).
    + constructor.
    + reflexivity.
    + exact Hu.
    + vm_compute. split; [discriminate|reflexivity].
    + vm_compute. reflexivity.
    + exact Hl.
    + exact Ho.
    + pose proof Hl as Hl'. rewrite Hdb in Hl'. vm_compute in Hl'. injection Hl' as <-.
      destruct Ho as [<-|[<-|[]]]; reflexivity.
Defined.

Lemma ByWeekday_order_and_repeats_do_not_matter_witness :
  GenerateWeeklyOccurrences tzdata.tzdb
    (ruleSpec.setByWeekday countSamples.biweekly [3; 7])
    countSamples.windowStart countSamples.windowEnd
  = GenerateWeeklyOccurrences tzdata.tzdb countSamples.biweekly
      countSamples.windowStart countSamples.windowEnd.
Proof.
  apply (ByWeekday_order_and_repeats_do_not_matter tzdata.tzdb countSamples.biweekly
           [3; 7] countSamples.windowStart countSamples.windowEnd).
  intros wd. change (RecurringSeries.ByWeekday countSamples.biweekly) with [7; 3; 7].
  cbn [In]. tauto.
Defined.


Lemma interval_and_count_are_normalized_witness :
  GenerateWeeklyOccurrences tzdata.tzdb (ruleSpec.setInterval scenarios.S5 0)
    scenarios.S5_windowStart scenarios.S5_windowEnd
  = GenerateWeeklyOccurrences tzdata.tzdb (ruleSpec.setInterval scenarios.S5 1)
      scenarios.S5_windowStart scenarios.S5_windowEnd
  /\ GenerateWeeklyOccurrences tzdata.tzdb (engineFlat.setCount scenarios.S5 (Some (-1)))
       scenarios.S5_windowStart scenarios.S5_windowEnd
     = GenerateWeeklyOccurrences tzdata.tzdb (engineFlat.setCount scenarios.S5 None)
         scenarios.S5_windowStart scenarios.S5_windowEnd.
Proof.
  split.
  - apply (proj1 (interval_and_count_are_normalized tzdata.tzdb scenarios.S5
                    scenarios.S5_windowStart scenarios.S5_windowEnd) 0). lia.
  - apply (proj2 (interval_and_count_are_normalized tzdata.tzdb scenarios.S5
                    scenarios.S5_windowStart scenarios.S5_windowEnd) (-1)). lia.
Defined.

Lemma occurrences_are_strictly_ascending_witness :
  exists occs,
    GenerateWeeklyOccurrences tzdata.tzdb countSamples.biweekly
      countSamples.windowStart countSamples.windowEnd = Ok occs
    /\ (5 < length occs)%nat
    /\ StronglySorted
         (fun a b => RecurringOccurrence.StartTime a < RecurringOccurrence.StartTime b)
         occs.
Proof.
  destruct (GenerateWeeklyOccurrences tzdata.tzdb countSamples.biweekly
              countSamples.windowStart countSamples.windowEnd) as [occs|e] eqn:Hg;
    [|vm_compute in Hg; discriminate Hg].
  exists occs. split; [reflexivity|]. split.
  - pose proof Hg as Hg'. vm_compute in Hg'. injection Hg' as <-. vm_compute. lia.
  - apply (occurrences_are_strictly_ascending tzdata.tzdb countSamples.biweekly
             countSamples.windowStart countSamples.windowEnd occs
             tzdata.NewYork (-18000) (-14400)).
    + vm_compute. reflexivity.
    + exact Hg.
    + reflexivity.
    + vm_compute. reflexivity.
    + vm_compute. reflexivity.
Defined.

Lemma occurrences_fall_on_the_weekdays_of_the_rule_witness :
  exists occs o,
    GenerateWeeklyOccurrences tzdata.tzdb scenarios.S5
      scenarios.S5_windowStart scenarios.S5_windowEnd = Ok occs
    /\ In o occs
    /\ RecurringOccurrence.StartTime o = utcDate 2026 3 8 13 0 0
    /\ exists k wd,
         0 <= k /\ In wd [7]
         /\ RecurringOccurrence.StartTime o
            = Date tzdata.NewYork
                (engineFlat.mondayOf (daysFromCivil 2026 3 1) + k * 1 * 7 + (wd - 1))
                9 0 0 0.
Proof.
  destruct (GenerateWeeklyOccurrences tzdata.tzdb scenarios.S5
              scenarios.S5_windowStart scenarios.S5_windowEnd) as [occs|e] eqn:Hg;
    [|vm_compute in Hg; discriminate Hg].
  assert (Ho : exists o, In o occs
                         /\ RecurringOccurrence.StartTime o = utcDate 2026 3 8 13 0 0).
  { pose proof Hg as Hg'. vm_compute in Hg'. injection Hg' as <-.
    eexists. split; [right; left; reflexivity|]. vm_compute. reflexivity. }
  destruct Ho as (o & Ho & Hst).
  exists occs, o. split; [reflexivity|]. split; [exact Ho|]. split; [exact Hst|].
  destruct (occurrences_fall_on_the_weekdays_of_the_rule tzdata.tzdb scenarios.S5
              scenarios.S5_windowStart scenarios.S5_windowEnd occs o
              ltac:(vm_compute; reflexivity) Hg Ho)
    as (loc & k & wd & Hloc & Hk & Hwd & _ & Hstart & _).
  injection Hloc as <-.
  exists k, wd. split; [exact Hk|]. split; [exact Hwd|]. exact Hstart.
Defined.

Lemma mondayDateUTC_is_the_Monday_of_the_local_week_witness :
  Weekday UTCLoc (mondayDateUTC tzdata.NewYork (utcDate 2026 3 8 13 0 0)) = 1
  /\ Weekday UTCLoc
       (AddDateDays (mondayDateUTC tzdata.NewYork (utcDate 2026 3 8 13 0 0))
          (weekdayOffsetFromMonday 7)) = 7 mod 7.
Proof.
  pose proof (mondayDateUTC_is_the_Monday_of_the_local_week tzdata.NewYork
                (utcDate 2026 3 8 13 0 0)) as (_ & Hm & _ & Hwd).
  split; [exact Hm|]. apply (Hwd 7). lia.
Defined.



Lemma Service_CreateRecurringSeries_normalizes_witness :
  exists s,
    appointments.CreateRecurringSeries unit seriesSamples.acceptAll tzdata.tzdb tt
      (seriesSamples.request None (Some 3)) = (tt, Ok s)
    /\ RecurringSeries.Interval s = 1
    /\ RecurringSeries.ByWeekday s = [1]
    /\ RecurringSeries.DurationSeconds s = 3600.
Proof.
  destruct (Service_CreateRecurringSeries_normalizes tzdata.tzdb unit
              seriesSamples.acceptAll tt (seriesSamples.request None (Some 3)))
    as [[e He]|(s & loc & Hcall & Hrest)].
  - vm_compute in He. discriminate He.
  - exists s. cbn [store.CreateRecurringSeries seriesSamples.acceptAll] in Hcall.
    split; [exact Hcall|].
    vm_compute in Hcall. injection Hcall as <-. split; [|split]; reflexivity.
Defined.

Lemma subsecond_series_fails_with_plain_error_witness :
  appointments.CreateRecurringSeries unit seriesSamples.acceptAll tzdata.tzdb tt
    storeSamples.halfSecond
  = (tt, Fail (ErrorString "invalid duration")).
Proof.
  destruct (appointments.checkSeriesFields tzdata.tzdb storeSamples.halfSecond)
    as [c|e] eqn:Hc; [|vm_compute in Hc; discriminate Hc].
  apply (subsecond_series_fails_with_plain_error tzdata.tzdb unit
           seriesSamples.acceptAll tt storeSamples.halfSecond c Hc).
  - vm_compute. reflexivity.
  - left. discriminate.
Defined.

End StoreExamples.
Section TransportExamples.
Import GoTime domain postgres.

Lemma weekly_rule_round_trip_witness :
  grpc.weeklyRule (grpc.toProtoWeeklyRecurrence scenarios.S5)
  = appointments.mkRecurrenceRuleInput RecurrenceFrequencyWeekly
      (RecurringSeries.Interval scenarios.S5) (RecurringSeries.ByWeekday scenarios.S5)
      (RecurringSeries.Until scenarios.S5) (RecurringSeries.Count scenarios.S5)
      (RecurringSeries.Timezone scenarios.S5).
Proof.
  apply (weekly_rule_round_trip scenarios.S5).
  - cbn. repeat constructor; lia.
  - cbn. lia.
  - intros c Hc. vm_compute in Hc. injection Hc as <-. lia.
Defined.


Lemma subsecond_series_rpc_answers_internal_witness :
  grpc.AppointmentsServer.CreateRecurringSeries DB transportSamples.server emptyDB
    (Some (transportSamples.seriesRequest transportSamples.justAfterNine))
  = (emptyDB, grpc.Status codes.Internal "internal error"%string).
Proof.
  destruct (appointments.checkSeriesFields tzdata.tzdb
              (appointments.mkCreateRecurringSeriesInput "u1" " standup " EmptyString
                 (timestamppb.AsTime transportSamples.nine)
                 (timestamppb.AsTime transportSamples.justAfterNine)
                 (grpc.weeklyRule transportSamples.rawWeekly)))
    as [c|e] eqn:Hc; [|vm_compute in Hc; discriminate Hc].
  apply (subsecond_series_rpc_answers_internal createSpec.sampleDigest tzdata.tzdb
           DB (AppointmentRepo tzdata.tzdb createSamples.env1)
           AppointmentRepoListDelete emptyDB
           (transportSamples.seriesRequest transportSamples.justAfterNine)
           transportSamples.nine transportSamples.justAfterNine
           transportSamples.rawWeekly c eq_refl eq_refl eq_refl Hc).
  - vm_compute. reflexivity.
  - left. vm_compute. reflexivity.
Defined.

Lemma created_series_reply_echoes_the_normalized_rule_witness :
  exists db' resp series w,
    grpc.AppointmentsServer.CreateRecurringSeries DB transportSamples.server emptyDB
      (Some (transportSamples.seriesRequest transportSamples.halfPastNine))
    = (db', grpc.Reply resp)
    /\ schedulev1.CreateRecurringSeriesResponse.Series resp = Some series
    /\ schedulev1.RecurringSeries.Weekly series = Some w
    /\ schedulev1.WeeklyRecurrence.Interval w = 1
    /\ schedulev1.WeeklyRecurrence.Count w = 3
    /\ option_map timestamppb.AsTime (schedulev1.RecurringSeries.EndTime series)
       = Some (timestamppb.AsTime transportSamples.nine + 1800 * Second).
Proof.
  destruct (grpc.AppointmentsServer.CreateRecurringSeries DB transportSamples.server
              emptyDB (Some (transportSamples.seriesRequest transportSamples.halfPastNine)))
    as [db' [resp|c msg]] eqn:Hc; [|vm_compute in Hc; discriminate Hc].
  destruct (created_series_reply_echoes_the_normalized_rule createSpec.sampleDigest
              tzdata.tzdb createSamples.env1 emptyDB db'
              (transportSamples.seriesRequest transportSamples.halfPastNine)
              transportSamples.nine transportSamples.halfPastNine
              transportSamples.rawWeekly resp Hc eq_refl eq_refl eq_refl)
    as (series & w & loc & H1 & H2 & _ & _ & _ & _ & H7 & _ & _ & H10 & H11 & _);
    [vm_compute; split; [discriminate|reflexivity]
    |vm_compute; split; [discriminate|reflexivity]|].
  exists db', resp, series, w.
  split; [reflexivity|]. split; [exact H1|]. split; [exact H2|].
  split; [rewrite H10; reflexivity|]. split; [rewrite H11; reflexivity|].
  rewrite H7. vm_compute. reflexivity.
Defined.

End TransportExamples.
